(** * EventPulse backend: a shallow embedding of the claim protocol, the
      fan-out hub and the repositories, with the properties checked on it.

    The repository holds two generations of the same service side by side:
    - the e-mail login schema ([IncidenciaRepository], [TareaRepository],
      [MensajeRepository], handlers with [Atender], [Resolver],
      [Completar]), embedded in [Module V1];
    - the handle login schema ([IncidenciaRepo], [TareaRepo], [MensajeRepo],
      handlers with [Editar]), embedded in [Module V2].

    PostgreSQL is modelled as a record of tables.  A transaction carries its
    own uncommitted writes and the row locks it holds; other sessions read
    the committed tables only (READ COMMITTED).  Timestamps are integers
    and [NOW()] is a parameter of every operation that reads the clock. *)

From Stdlib Require Import ZArith String Ascii List Bool Lia Permutation Sorted.
From stdpp Require Import base gmap sets list strings fin_maps sorting.

#[local] Set Warnings "-clear-no-such-hyp,-register-all".

Local Open Scope Z_scope.
Local Open Scope string_scope.
Local Open Scope list_scope.
Local Open Scope stdpp_scope.

(** ** Go helpers *)

Module Go.

(** An [error] value; handlers look at [err.Error()] only. *)
Inductive error :=
| errorString (s : string)   (* errors.New, fmt.Errorf *)
| pqError (msg : string).    (* an error reported by the database driver *)

Definition Error (e : error) : string :=
  match e with
  | errorString s => s
  | pqError msg => "pq: " +:+ msg
  end.

(** [sql.ErrNoRows] *)
Definition ErrNoRows : error := errorString "sql: no rows in result set".

(** [strings.HasPrefix(s, p)] *)
Definition HasPrefix (s p : string) : bool := String.prefix p s.

(** Cut [s] at the first occurrence of the character [sep]. *)
Fixpoint cortar (sep : ascii) (s : string) : option (string * string) :=
  match s with
  | EmptyString => None
  | String c r =>
      if Ascii.eqb c sep then Some (EmptyString, r)
      else match cortar sep r with
           | Some (a, b) => Some (String c a, b)
           | None => None
           end
  end.

(** [strings.SplitN(s, ":", 2)] *)
Definition SplitN2 (s : string) : list string :=
  match cortar ":"%char s with
  | Some (a, b) => [a; b]
  | None => [s]
  end.

(** JSON documents.  A marshalled [[]byte] is represented by the document
    it encodes; [time.Time] values are encoded as their integer instant. *)
Inductive JSON :=
| JNull
| JBool (b : bool)
| JNum (z : Z)
| JStr (s : string)
| JArr (l : list JSON)
| JObj (campos : list (string * JSON)).

(** The member [k] of an object. *)
Fixpoint buscar_campo (k : string) (campos : list (string * JSON)) : option JSON :=
  match campos with
  | [] => None
  | (k', v) :: resto => if String.eqb k k' then Some v else buscar_campo k resto
  end.

Definition campo (k : string) (j : JSON) : option JSON :=
  match j with
  | JObj campos => buscar_campo k campos
  | _ => None
  end.

(** A [*string] or [*time.Time] field tagged [omitempty]. *)
Definition omitempty {A : Type} (k : string) (f : A → JSON) (o : option A)
  : list (string * JSON) :=
  match o with
  | Some a => [(k, f a)]
  | None => []
  end.

(** A [string] field tagged [omitempty]. *)
Definition omitempty_str (k : string) (v : string) : list (string * JSON) :=
  if String.eqb v "" then [] else [(k, JStr v)].

(** An [int] field tagged [omitempty]. *)
Definition omitempty_int (k : string) (v : Z) : list (string * JSON) :=
  if Z.eqb v 0 then [] else [(k, JNum v)].

(** What a handler hands to [c.JSON]: the status and the encoded body. *)
Record Respuesta := mkRespuesta { Status : Z; Cuerpo : JSON }.

(** A message handed to [redis.Publish]. *)
Record Publicacion := mkPublicacion { Canal : string; Data : JSON }.

(** HTTP status codes used by the handlers. *)
Definition StatusOK : Z := 200.
Definition StatusBadRequest : Z := 400.
Definition StatusUnauthorized : Z := 401.
Definition StatusForbidden : Z := 403.
Definition StatusNotFound : Z := 404.
Definition StatusConflict : Z := 409.
Definition StatusInternalServerError : Z := 500.

End Go.

(** ** PostgreSQL: texts bound to a UUID column *)

Module Pg.
Import Go.

Definition isxdigit (c : ascii) : bool :=
  let n := nat_of_ascii c in
  (Nat.leb 48 n && Nat.leb n 57) || (Nat.leb 65 n && Nat.leb n 70)
  || (Nat.leb 97 n && Nat.leb n 102).

(** The bytes of a UUID from number [i] on, [quedan] of them: two
    hexadecimal digits each, and a hyphen allowed after every second byte
    but the last.  What follows the bytes is returned. *)
Fixpoint leer_bytes (quedan i : nat) (s : string) : option string :=
  match quedan with
  | O => Some s
  | S quedan =>
      match s with
      | String a (String b r) =>
          if isxdigit a && isxdigit b then
            leer_bytes quedan (S i)
              (match r with
               | String c r' =>
                   if Ascii.eqb c "-" && Nat.odd i && Nat.ltb i 15 then r' else r
               | EmptyString => r
               end)
          else None
      | _ => None
      end
  end.

(** The texts the server casts to [uuid] ([uuid_in]): sixteen bytes,
    optionally in braces. *)
Definition es_uuid (s : string) : bool :=
  match s with
  | String c r =>
      if Ascii.eqb c "{" then
        match leer_bytes 16 0 r with
        | Some resto => String.eqb resto "}"
        | None => false
        end
      else
        match leer_bytes 16 0 s with
        | Some resto => String.eqb resto ""
        | None => false
        end
  | EmptyString => false
  end.

Definition comilla : string := String (ascii_of_nat 34) EmptyString.

(** The statement fails when a parameter compared with a UUID column is
    no UUID. *)
Definition ErrUUID (s : string) : error :=
  pqError ("invalid input syntax for type uuid: " +:+ comilla +:+ s +:+ comilla).

End Pg.

(** ** The e-mail login generation *)

Module V1.
Import Go.

(** *** models *)

Definition RolAseo : string := "aseo".
Definition RolGuardia : string := "guardia".
Definition RolMedico : string := "medico".
Definition RolLogistica : string := "logistica".
Definition RolSupervisor : string := "supervisor".
Definition RolAdmin : string := "admin".

Definition EstadoPendiente : string := "pendiente".
Definition EstadoEnAtencion : string := "en_atencion".
Definition EstadoResuelta : string := "resuelta".

Definition TareaPendiente : string := "pendiente".
Definition TareaCompletada : string := "completada".

Definition WSIncidenciaNueva : string := "incidencia_nueva".
Definition WSIncidenciaActualizada : string := "incidencia_actualizada".
Definition WSIncidenciaConflicto : string := "incidencia_conflicto".
Definition WSTareaActualizada : string := "tarea_actualizada".
Definition WSMensajeNuevo : string := "mensaje_nuevo".

Module Usuario.
Record t := mk {
  ID : string; Nombre : string; Email : string;
  Password : string;              (* json:"-" db:"password_hash" *)
  Rol : string; ZonaID : option string; EventoID : string;
  Activo : bool; CreadoEn : Z }.
End Usuario.

Module Incidencia.
Record t := mk {
  ID : string; EventoID : string; ZonaID : string;
  ZonaNombre : string; Tipo : string; Descripcion : string;
  Estado : string; ReportadaPor : string;
  AtendidaPor : option string;
  CreadaEn : Z; ActualizadaEn : Z }.

(** The zero value of the struct. *)
Definition cero : t := mk "" "" "" "" "" "" "" "" None 0 0.
End Incidencia.

(** A row of [incidencias_historial] (its generated id left out). *)
Module Historial.
Record t := mk {
  incidencia_id : string;
  estado_anterior : string;
  estado_nuevo : string;
  usuario_id : string;
  cambiado_en : Z }.
End Historial.

Module Tarea.
Record t := mk {
  ID : string; EventoID : string; ZonaID : option string;
  Titulo : string; Descripcion : string; Estado : string;
  Prioridad : string; AsignadaA : option string;
  CompletadaEn : option Z; CreadaEn : Z }.
End Tarea.

Module ConflictoPayload.
Record t := mk {
  IncidenciaID : string; Mensaje : string; AtendidaPor : string }.
End ConflictoPayload.

Module ErrorResponse.
Record t := mk { Error : string; Codigo : Z }.
End ErrorResponse.

(** *** the store *)

Record DB := mkDB {
  usuarios : gmap string Usuario.t;
  incidencias : gmap string Incidencia.t;
  incidencias_historial : list Historial.t;
  tareas : gmap string Tarea.t;
  bloqueos : gset string   (* rows of [incidencias] locked by an open transaction *)
}.

Definition con_incidencias (db : DB) (m : gmap string Incidencia.t) : DB :=
  mkDB (usuarios db) m (incidencias_historial db) (tareas db) (bloqueos db).
Definition con_historial (db : DB) (h : list Historial.t) : DB :=
  mkDB (usuarios db) (incidencias db) h (tareas db) (bloqueos db).
Definition con_tareas (db : DB) (m : gmap string Tarea.t) : DB :=
  mkDB (usuarios db) (incidencias db) (incidencias_historial db) m (bloqueos db).
Definition con_bloqueos (db : DB) (b : gset string) : DB :=
  mkDB (usuarios db) (incidencias db) (incidencias_historial db) (tareas db) b.

(** An open transaction: the row versions and history rows it has written
    and not yet committed, the row locks it holds, and whether a statement
    of it has failed (after which PostgreSQL refuses every statement and
    turns COMMIT into ROLLBACK). *)
Record Tx := mkTx {
  tx_incidencias : gmap string Incidencia.t;
  tx_historial : list Historial.t;
  tx_bloqueos : gset string;
  tx_fallida : bool
}.

(** [db.BeginTxx] *)
Definition BeginTxx : Tx := mkTx ∅ [] ∅ false.

(** The rows of [incidencias] as the transaction sees them. *)
Definition vista (db : DB) (tx : Tx) : gmap string Incidencia.t :=
  tx_incidencias tx ∪ incidencias db.

(** [tx.Rollback()]: the writes are dropped, the locks released. *)
Definition Rollback (db : DB) (tx : Tx) : DB :=
  con_bloqueos db (bloqueos db ∖ tx_bloqueos tx).

Definition ErrInFailedTransaction : error :=
  errorString "pq: Could not complete operation in a failed transaction".
Definition ErrAbortada : error :=
  pqError "current transaction is aborted, commands ignored until end of transaction block".
Definition ErrForeignKey : error := pqError "foreign_key_violation".

(** [tx.Commit()] *)
Definition Commit (db : DB) (tx : Tx) : DB * option error :=
  if tx_fallida tx then (Rollback db tx, Some ErrInFailedTransaction)
  else
    (mkDB (usuarios db)
          (tx_incidencias tx ∪ incidencias db)
          (incidencias_historial db ++ tx_historial tx)
          (tareas db)
          (bloqueos db ∖ tx_bloqueos tx),
     None).

(** *** repository: incidents *)

Module IncidenciaRepository.
Import Incidencia.

Definition es_ErrNoRows (e : error) : bool :=
  match e with
  | errorString s => String.eqb s "sql: no rows in result set"
  | pqError _ => false
  end.

(** [SELECT id, estado, atendida_por FROM incidencias WHERE id = $1
    FOR UPDATE SKIP LOCKED], run inside [tx].  A row locked by another
    transaction is skipped, which [GetContext] reports as
    [sql.ErrNoRows]; otherwise the row is locked for [tx].  [id] is a
    UUID column (the keys of the table stand for UUIDs): a text that is
    neither the id of a row nor a UUID makes the statement fail. *)
Definition seleccionar_skip_locked (db : DB) (tx : Tx) (incID : string)
  : DB * Tx * (error + Incidencia.t) :=
  if tx_fallida tx then (db, tx, inl ErrAbortada)
  else
    match vista db tx !! incID with
    | None =>
        if Pg.es_uuid incID then (db, tx, inl ErrNoRows)
        else
          (db, mkTx (tx_incidencias tx) (tx_historial tx) (tx_bloqueos tx) true,
           inl (Pg.ErrUUID incID))
    | Some fila =>
        if bool_decide (incID ∈ bloqueos db ∖ tx_bloqueos tx)
        then (db, tx, inl ErrNoRows)
        else
          (con_bloqueos db ({[incID]} ∪ bloqueos db),
           mkTx (tx_incidencias tx) (tx_historial tx)
                ({[incID]} ∪ tx_bloqueos tx) (tx_fallida tx),
           inr (mk (ID fila) "" "" "" "" "" (Estado fila) ""
                   (AtendidaPor fila) 0 0))
    end.

(** [SELECT i.id, i.estado, i.atendida_por, u.nombre as zona_nombre
    FROM incidencias i LEFT JOIN usuarios u ON u.id = i.atendida_por
    WHERE i.id = $1], run on the pool (outside any transaction): it
    reads committed rows and takes no lock.  [zona_nombre] is scanned
    into a Go [string]; when the join finds no user the column is NULL
    and the scan fails. *)
Definition consultar_actual (db : DB) (incID : string)
  : error + Incidencia.t :=
  match incidencias db !! incID with
  | None => if Pg.es_uuid incID then inl ErrNoRows else inl (Pg.ErrUUID incID)
  | Some fila =>
      match AtendidaPor fila ≫= (λ u, usuarios db !! u) with
      | None =>
          inl (errorString
                 "sql: Scan error on column zona_nombre: converting NULL to string is unsupported")
      | Some u =>
          inr (mk (ID fila) "" "" (Usuario.Nombre u) "" "" (Estado fila) ""
                  (AtendidaPor fila) 0 0)
      end
  end.

(** [UPDATE incidencias SET estado = 'en_atencion', atendida_por = $1
    WHERE id = $2 RETURNING ...] inside [tx]; [atendida_por] references
    [usuarios(id)]; the BEFORE UPDATE trigger stamps [actualizada_en]. *)
Definition actualizar_en_atencion (db : DB) (tx : Tx) (ahora : Z)
    (usuarioID incID : string) : Tx * (error + Incidencia.t) :=
  if tx_fallida tx then (tx, inl ErrAbortada)
  else
    match vista db tx !! incID with
    | None =>
        if Pg.es_uuid incID then (tx, inl ErrNoRows)
        else
          (mkTx (tx_incidencias tx) (tx_historial tx) (tx_bloqueos tx) true,
           inl (Pg.ErrUUID incID))
    | Some fila =>
        match usuarios db !! usuarioID with
        | None =>
            (mkTx (tx_incidencias tx) (tx_historial tx) (tx_bloqueos tx) true,
             inl ErrForeignKey)
        | Some _ =>
            let nueva :=
              mk (ID fila) (EventoID fila) (ZonaID fila) "" (Tipo fila)
                 (Descripcion fila) EstadoEnAtencion (ReportadaPor fila)
                 (Some usuarioID) (CreadaEn fila) ahora in
            (mkTx (<[incID := nueva]> (tx_incidencias tx)) (tx_historial tx)
                  (tx_bloqueos tx) (tx_fallida tx),
             inr nueva)
        end
    end.

(** [INSERT INTO incidencias_historial (incidencia_id, estado_anterior,
    estado_nuevo, usuario_id) VALUES ...] inside [tx]; both ids are
    foreign keys.  A failed statement leaves the transaction failed. *)
Definition insertar_historial (db : DB) (tx : Tx) (ahora : Z)
    (incID anterior nuevo usuarioID : string) : Tx * option error :=
  if tx_fallida tx then (tx, Some ErrAbortada)
  else
    match vista db tx !! incID, usuarios db !! usuarioID with
    | Some _, Some _ =>
        (mkTx (tx_incidencias tx)
              (tx_historial tx ++ [Historial.mk incID anterior nuevo usuarioID ahora])
              (tx_bloqueos tx) (tx_fallida tx),
         None)
    | _, _ =>
        (mkTx (tx_incidencias tx) (tx_historial tx) (tx_bloqueos tx) true,
         Some ErrForeignKey)
    end.

(** The name reported when the locking read came back empty. *)
Definition conflicto_sin_fila (db : DB) (incID : string) : error :=
  match consultar_actual db incID with
  | inl _ => errorString "incidencia_conflicto:desconocido"
  | inr actual =>
      let nombre :=
        match AtendidaPor actual with
        | Some _ => ZonaNombre actual
        | None => "otro usuario"
        end in
      errorString ("incidencia_conflicto:" +:+ nombre)
  end.

Definition conflicto_estado (inc : Incidencia.t) : error :=
  errorString ("incidencia_conflicto:ya está en estado " +:+ Estado inc).

(** [AtenderConLock], run with no other session interleaved between
    its statements.  The deferred [tx.Rollback()] is written out on
    every return before the commit. *)
Definition AtenderConLock (db : DB) (ahora : Z) (incID usuarioID : string)
  : DB * (error + Incidencia.t) :=
  let tx := BeginTxx in
  match seleccionar_skip_locked db tx incID with
  | (db, tx, inl err) =>
      if es_ErrNoRows err
      then (Rollback db tx, inl (conflicto_sin_fila db incID))
      else (Rollback db tx, inl err)
  | (db, tx, inr inc) =>
      if negb (String.eqb (Estado inc) EstadoPendiente)
      then (Rollback db tx, inl (conflicto_estado inc))
      else
        match actualizar_en_atencion db tx ahora usuarioID incID with
        | (tx, inl err) => (Rollback db tx, inl err)
        | (tx, inr actualizada) =>
            let tx := fst (insertar_historial db tx ahora incID
                             "pendiente" "en_atencion" usuarioID) in
            match Commit db tx with
            | (db, Some err) => (db, inl err)
            | (db, None) => (db, inr actualizada)
            end
        end
  end.

(** [UPDATE incidencias SET estado = 'resuelta', atendida_por = $1
    WHERE id = $2 AND (atendida_por = $1 OR $3 = 'supervisor' OR
    $3 = 'admin') RETURNING ...] inside [tx]. *)
Definition actualizar_resuelta (db : DB) (tx : Tx) (ahora : Z)
    (p1 p2 p3 : string) : Tx * (error + Incidencia.t) :=
  if tx_fallida tx then (tx, inl ErrAbortada)
  else
    match vista db tx !! p2 with
    | None =>
        if Pg.es_uuid p2 then (tx, inl ErrNoRows)
        else
          (mkTx (tx_incidencias tx) (tx_historial tx) (tx_bloqueos tx) true,
           inl (Pg.ErrUUID p2))
    | Some fila =>
        if bool_decide (AtendidaPor fila = Some p1)
           || String.eqb p3 "supervisor" || String.eqb p3 "admin"
        then
          match usuarios db !! p1 with
          | None =>
              (mkTx (tx_incidencias tx) (tx_historial tx) (tx_bloqueos tx) true,
               inl ErrForeignKey)
          | Some _ =>
              let nueva :=
                mk (ID fila) (EventoID fila) (ZonaID fila) "" (Tipo fila)
                   (Descripcion fila) EstadoResuelta (ReportadaPor fila)
                   (Some p1) (CreadaEn fila) ahora in
              (mkTx (<[p2 := nueva]> (tx_incidencias tx)) (tx_historial tx)
                    (tx_bloqueos tx) (tx_fallida tx),
               inr nueva)
          end
        else (tx, inl ErrNoRows)
    end.

(** [Resolver]: the statement is bound with
    [(usuarioID, incID, usuarioID)], so [$3] is the user id. *)
Definition Resolver (db : DB) (ahora : Z) (incID usuarioID : string)
  : DB * (error + Incidencia.t) :=
  let tx := BeginTxx in
  match actualizar_resuelta db tx ahora usuarioID incID usuarioID with
  | (tx, inl err) =>
      if es_ErrNoRows err
      then (Rollback db tx,
            inl (errorString "no tienes permiso para resolver esta incidencia"))
      else (Rollback db tx, inl err)
  | (tx, inr actualizada) =>
      let tx := fst (insertar_historial db tx ahora incID
                       "en_atencion" "resuelta" usuarioID) in
      (fst (Commit db tx), inr actualizada)
  end.

(** *** concurrent claims

    The statements of [AtenderConLock], executed one at a time so that
    several calls can interleave on one store.  A call is at one of
    these points: *)
Inductive Hilo :=
| Inicio                                         (* transaction begun *)
| SinFila (tx : Tx)                              (* locking read: ErrNoRows *)
| ConFila (tx : Tx) (inc : Incidencia.t)         (* locking read: row locked *)
| Actualizada (tx : Tx) (actualizada : Incidencia.t)    (* UPDATE done *)
| ConHistorial (tx : Tx) (actualizada : Incidencia.t)   (* INSERT done *)
| Fin (r : error + Incidencia.t).                (* returned *)

(** The next statement of a call by [usuarioID] on [incID]. *)
Definition paso (db : DB) (ahora : Z) (incID usuarioID : string) (h : Hilo)
  : DB * Hilo :=
  match h with
  | Inicio =>
      match seleccionar_skip_locked db BeginTxx incID with
      | (db, tx, inl err) =>
          if es_ErrNoRows err then (db, SinFila tx)
          else (Rollback db tx, Fin (inl err))
      | (db, tx, inr inc) => (db, ConFila tx inc)
      end
  | SinFila tx =>
      (Rollback db tx, Fin (inl (conflicto_sin_fila db incID)))
  | ConFila tx inc =>
      if negb (String.eqb (Estado inc) EstadoPendiente)
      then (Rollback db tx, Fin (inl (conflicto_estado inc)))
      else
        match actualizar_en_atencion db tx ahora usuarioID incID with
        | (tx, inl err) => (Rollback db tx, Fin (inl err))
        | (tx, inr actualizada) => (db, Actualizada tx actualizada)
        end
  | Actualizada tx actualizada =>
      (db, ConHistorial
             (fst (insertar_historial db tx ahora incID
                     "pendiente" "en_atencion" usuarioID))
             actualizada)
  | ConHistorial tx actualizada =>
      match Commit db tx with
      | (db, Some err) => (db, Fin (inl err))
      | (db, None) => (db, Fin (inr actualizada))
      end
  | Fin r => (db, Fin r)
  end.

(** Call number [t.1] executes its next statement at time [t.2]. *)
Definition turno (incID : string) (actores : list string)
    (s : DB * list Hilo) (t : nat * Z) : DB * list Hilo :=
  match actores !! t.1, s.2 !! t.1 with
  | Some u, Some h =>
      let '(db, h') := paso s.1 t.2 incID u h in (db, <[t.1 := h']> s.2)
  | _, _ => s
  end.

(** A schedule: which call moves next, and when. *)
Definition correr (incID : string) (actores : list string)
    (s : DB * list Hilo) (plan : list (nat * Z)) : DB * list Hilo :=
  foldl (turno incID actores) s plan.

(** All calls begun, none has executed a statement yet. *)
Definition arranque (db : DB) (actores : list string) : DB * list Hilo :=
  (db, replicate (length actores) Inicio).

(** The handler treats an error as a claim conflict by its prefix. *)
Definition es_conflicto (e : error) : bool :=
  HasPrefix (Error e) "incidencia_conflicto:".

End IncidenciaRepository.

(** *** repository: tasks *)

Module TareaRepository.
Import Tarea.

(** [Completar]: [UPDATE tareas SET estado = 'completada',
    asignada_a = $1, completada_en = $2 WHERE id = $3 AND
    estado = 'pendiente' RETURNING ...], with [$2 = time.Now()]. *)
Definition Completar (db : DB) (ahora : Z) (tareaID usuarioID : string)
  : DB * (error + Tarea.t) :=
  match tareas db !! tareaID with
  | Some t =>
      if String.eqb (Estado t) "pendiente" then
        match usuarios db !! usuarioID with
        | None => (db, inl ErrForeignKey)
        | Some _ =>
            let nueva :=
              mk (ID t) (EventoID t) (ZonaID t) (Titulo t) (Descripcion t)
                 "completada" (Prioridad t) (Some usuarioID) (Some ahora)
                 (CreadaEn t) in
            (con_tareas db (<[tareaID := nueva]> (tareas db)), inr nueva)
        end
      else (db, inl (errorString "tarea no encontrada o ya completada"))
  | None => (db, inl (errorString "tarea no encontrada o ya completada"))
  end.

End TareaRepository.

(** *** repository: users *)

Module UsuarioRepository.
Import Usuario.

(** [SELECT ... FROM usuarios WHERE email = $1 AND activo = true];
    [email] is UNIQUE. *)
Definition BuscarPorEmail (db : DB) (email : string) : option Usuario.t :=
  snd <$> List.find (λ kv, String.eqb (Email kv.2) email && Activo kv.2)
            (map_to_list (usuarios db)).

(** [SELECT ... FROM usuarios WHERE id = $1] *)
Definition BuscarPorID (db : DB) (id : string) : option Usuario.t :=
  usuarios db !! id.

End UsuarioRepository.

(** *** JSON encodings (the struct tags) *)

Module Encode.

(** [Password] is tagged [json:"-"]: it has no member. *)
Definition Usuario (u : Usuario.t) : JSON :=
  JObj ([("id", JStr (Usuario.ID u));
         ("nombre", JStr (Usuario.Nombre u));
         ("email", JStr (Usuario.Email u));
         ("rol", JStr (Usuario.Rol u))]
        ++ omitempty "zona_id" JStr (Usuario.ZonaID u)
        ++ [("evento_id", JStr (Usuario.EventoID u));
            ("activo", JBool (Usuario.Activo u));
            ("creado_en", JNum (Usuario.CreadoEn u))]).

Definition Incidencia (i : Incidencia.t) : JSON :=
  JObj ([("id", JStr (Incidencia.ID i));
         ("evento_id", JStr (Incidencia.EventoID i));
         ("zona_id", JStr (Incidencia.ZonaID i))]
        ++ omitempty_str "zona_nombre" (Incidencia.ZonaNombre i)
        ++ [("tipo", JStr (Incidencia.Tipo i));
            ("descripcion", JStr (Incidencia.Descripcion i));
            ("estado", JStr (Incidencia.Estado i));
            ("reportada_por", JStr (Incidencia.ReportadaPor i))]
        ++ omitempty "atendida_por" JStr (Incidencia.AtendidaPor i)
        ++ [("creada_en", JNum (Incidencia.CreadaEn i));
            ("actualizada_en", JNum (Incidencia.ActualizadaEn i))]).

Definition LoginResponse (token : string) (u : Usuario.t) : JSON :=
  JObj [("token", JStr token); ("usuario", Usuario u)].

Definition ConflictoPayload (p : ConflictoPayload.t) : JSON :=
  JObj [("incidencia_id", JStr (ConflictoPayload.IncidenciaID p));
        ("mensaje", JStr (ConflictoPayload.Mensaje p));
        ("atendida_por", JStr (ConflictoPayload.AtendidaPor p))].

Definition ErrorResponse (e : ErrorResponse.t) : JSON :=
  JObj ([("error", JStr (ErrorResponse.Error e))]
        ++ omitempty_int "codigo" (ErrorResponse.Codigo e)).

(** [EventoWS{Tipo, Payload, EventoID}] *)
Definition EventoWS (tipo : string) (payload : JSON) (eventoID : string) : JSON :=
  JObj [("tipo", JStr tipo); ("payload", payload); ("evento_id", JStr eventoID)].

End Encode.

(** *** hub: publishing *)

Module HubPub.

(** [PublicarEvento]: to every instance, on the channel of the event. *)
Definition PublicarEvento (eventoID : string) (evento : JSON) : Publicacion :=
  mkPublicacion ("eventpulse:" +:+ eventoID) evento.

(** [PublicarAUsuario]: on the channel of one user. *)
Definition PublicarAUsuario (eventoID usuarioID : string) (evento : JSON)
  : Publicacion :=
  mkPublicacion ("eventpulse:usuario:" +:+ usuarioID) evento.

End HubPub.

(** *** handlers *)

Definition responder_error (status : Z) (msg : string) (codigo : Z) : Respuesta :=
  mkRespuesta status (Encode.ErrorResponse (ErrorResponse.mk msg codigo)).

Module IncidenciaHandler.
Import HubPub.

(** [Atender]: the response and what the goroutine it starts publishes. *)
Definition Atender (db : DB) (ahora : Z) (incID usuarioID eventoID : string)
  : DB * Respuesta * list Publicacion :=
  match IncidenciaRepository.AtenderConLock db ahora incID usuarioID with
  | (db, inl err) =>
      if HasPrefix (Error err) "incidencia_conflicto:" then
        let partes := SplitN2 (Error err) in
        let quien :=
          match partes with
          | [_; q] => q
          | _ => "otro usuario"
          end in
        (db,
         responder_error StatusConflict
           ("Conflicto: ya fue tomada por " +:+ quien) StatusConflict,
         [PublicarAUsuario eventoID usuarioID
            (Encode.EventoWS WSIncidenciaConflicto
               (Encode.ConflictoPayload
                  (ConflictoPayload.mk incID
                     ("La incidencia ya fue tomada por " +:+ quien) quien))
               eventoID)])
      else (db, responder_error StatusInternalServerError (Error err) 0, [])
  | (db, inr actualizada) =>
      (db,
       mkRespuesta StatusOK (Encode.Incidencia actualizada),
       [PublicarEvento eventoID
          (Encode.EventoWS WSIncidenciaActualizada
             (Encode.Incidencia actualizada) eventoID)])
  end.

(** [Resolver]: the role in the request context is not read. *)
Definition Resolver (db : DB) (ahora : Z) (incID usuarioID eventoID : string)
  : DB * Respuesta * list Publicacion :=
  match IncidenciaRepository.Resolver db ahora incID usuarioID with
  | (db, inl err) => (db, responder_error StatusForbidden (Error err) 0, [])
  | (db, inr actualizada) =>
      (db,
       mkRespuesta StatusOK (Encode.Incidencia actualizada),
       [PublicarEvento eventoID
          (Encode.EventoWS WSIncidenciaActualizada
             (Encode.Incidencia actualizada) eventoID)])
  end.

End IncidenciaHandler.

Module AuthHandler.

Record LoginRequest := mkLoginRequest { Email : string; Password : string }.

(** The value a handler of this file hands to [c.JSON], as the handler
    has built it. *)
Inductive Valor :=
| VErrorResponse (e : ErrorResponse.t)
| VLoginResponse (token : string) (usuario : Usuario.t)
| VUsuario (usuario : Usuario.t).

(** [json.Marshal] of it: the body [c.JSON] writes. *)
Definition Marshal (v : Valor) : JSON :=
  match v with
  | VErrorResponse e => Encode.ErrorResponse e
  | VLoginResponse token usuario => Encode.LoginResponse token usuario
  | VUsuario usuario => Encode.Usuario usuario
  end.

Section Servicios.
(** [bcrypt.CompareHashAndPassword(hash, password) == nil] and
    [JWTService.GenerarToken]. *)
Variable ValidarPassword : string → string → bool.
Variable GenerarToken : Usuario.t → error + string.

(** [usuario.Password = ""] *)
Definition sin_password (u : Usuario.t) : Usuario.t :=
  Usuario.mk (Usuario.ID u) (Usuario.Nombre u) (Usuario.Email u) ""
    (Usuario.Rol u) (Usuario.ZonaID u) (Usuario.EventoID u)
    (Usuario.Activo u) (Usuario.CreadoEn u).

(** [Login], up to its call of [c.JSON]: the status and the value of
    that call; [req] is the outcome of [c.ShouldBindJSON]. *)
Definition Login_JSON (db : DB) (req : error + LoginRequest) : Z * Valor :=
  match req with
  | inl err => (StatusBadRequest, VErrorResponse (ErrorResponse.mk (Error err) 0))
  | inr req =>
      match UsuarioRepository.BuscarPorEmail db (Email req) with
      | None =>
          (StatusUnauthorized,
           VErrorResponse (ErrorResponse.mk "Credenciales inválidas" 0))
      | Some usuario =>
          if negb (ValidarPassword (Usuario.Password usuario) (Password req))
          then (StatusUnauthorized,
                VErrorResponse (ErrorResponse.mk "Credenciales inválidas" 0))
          else
            match GenerarToken usuario with
            | inl _ =>
                (StatusInternalServerError,
                 VErrorResponse (ErrorResponse.mk "Error generando token" 0))
            | inr token =>
                let usuario := sin_password usuario in
                (StatusOK, VLoginResponse token usuario)
            end
      end
  end.

(** [Login]: the response. *)
Definition Login (db : DB) (req : error + LoginRequest) : Respuesta :=
  mkRespuesta (Login_JSON db req).1 (Marshal (Login_JSON db req).2).

(** [Me], up to its call of [c.JSON]. *)
Definition Me_JSON (db : DB) (usuarioID : string) : Z * Valor :=
  match UsuarioRepository.BuscarPorID db usuarioID with
  | None => (StatusNotFound, VErrorResponse (ErrorResponse.mk "Usuario no encontrado" 0))
  | Some usuario =>
      let usuario := sin_password usuario in
      (StatusOK, VUsuario usuario)
  end.

(** [Me]: the response. *)
Definition Me (db : DB) (usuarioID : string) : Respuesta :=
  mkRespuesta (Me_JSON db usuarioID).1 (Marshal (Me_JSON db usuarioID).2).

End Servicios.
End AuthHandler.

End V1.

(** ** SQL helpers shared by both generations *)

Module Sql.

(** [ORDER BY clave DESC]: rows with equal keys keep their table order
    (PostgreSQL leaves their order open). *)
Fixpoint insertar_desc {A : Type} (clave : A → Z) (x : A) (l : list A) : list A :=
  match l with
  | [] => [x]
  | y :: r =>
      if Z.leb (clave y) (clave x) then x :: y :: r
      else y :: insertar_desc clave x r
  end.

Definition ordenar_desc {A : Type} (clave : A → Z) (l : list A) : list A :=
  foldr (insertar_desc clave) [] l.

(** [LIMIT n] *)
Definition limitar {A : Type} (n : Z) (l : list A) : list A :=
  take (Z.to_nat n) l.

End Sql.

(** ** The handle login generation *)

Module V2.
Import Go.

(** *** models *)

Definition RolAdmin : string := "admin".
Definition RolSupervisor : string := "supervisor".

Definition EventoActivo : string := "activo".
Definition EventoTerminado : string := "terminado".

Definition IncidenciaPendiente : string := "pendiente".
Definition IncidenciaEnAtencion : string := "en_atencion".
Definition IncidenciaResuelta : string := "resuelta".

Definition TareaPendiente : string := "pendiente".
Definition TareaEnProgreso : string := "en_progreso".
Definition TareaCompletada : string := "completada".

Module Evento.
Record t := mk {
  ID : string; Nombre : string; Descripcion : string; Estado : string;
  CreadoPor : string; CreadoEn : Z; TerminadoEn : option Z }.
End Evento.

Module Zona.
Record t := mk { ID : string; EventoID : string; Nombre : string }.
End Zona.

Module Usuario.
Record t := mk {
  ID : string; NombreUsuario : string; Nombre : string;
  Password : string;              (* json:"-" db:"password_hash" *)
  Rol : string; EventoID : option string;
  Activo : bool; CreadoEn : Z }.
End Usuario.

Module Incidencia.
Record t := mk {
  ID : string; EventoID : string; ZonaID : string; ZonaNombre : string;
  Tipo : string; Descripcion : string; Estado : string;
  CreadaPor : string; AsignadaA : option string;
  NombreAsignado : option string;
  CreadaEn : Z; ActualizadaEn : Z }.
End Incidencia.

Module Tarea.
Record t := mk {
  ID : string; EventoID : string; ZonaID : option string;
  ZonaNombre : option string; Titulo : string; Descripcion : string;
  Estado : string; Prioridad : string; CreadaPor : string;
  AsignadaA : option string; NombreAsignado : option string;
  CompletadaEn : option Z; CreadaEn : Z }.
End Tarea.

Module Mensaje.
Record t := mk {
  ID : string; EventoID : string; UsuarioID : string;
  NombreUsuario : string; RolUsuario : string;
  Contenido : string; EnviadoEn : Z }.
End Mensaje.

Module EditarIncidenciaRequest.
Record t := mk { Estado : option string; AsignadaA : option string }.
End EditarIncidenciaRequest.

Module CrearTareaRequest.
Record t := mk {
  ZonaID : string; Titulo : string; Descripcion : string;
  Prioridad : string; AsignadaA : option string }.
End CrearTareaRequest.

Module EditarTareaRequest.
Record t := mk { Estado : option string; AsignadaA : option string }.
End EditarTareaRequest.

(** *** the store: the tables of the second schema *)

Module Fila.
Record incidencia := mkIncidencia {
  i_id : string; i_evento_id : string; i_zona_id : string; i_tipo : string;
  i_descripcion : string; i_estado : string; i_creada_por : string;
  i_asignada_a : option string; i_creada_en : Z; i_actualizada_en : Z }.

Record historial := mkHistorial {
  h_incidencia_id : string; h_estado_anterior : string;
  h_estado_nuevo : string; h_usuario_id : string; h_cambiado_en : Z }.

Record tarea := mkTarea {
  t_id : string; t_evento_id : string; t_zona_id : option string;
  t_titulo : string; t_descripcion : string; t_estado : string;
  t_prioridad : string; t_creada_por : string;
  t_asignada_a : option string; t_completada_en : option Z;
  t_creada_en : Z }.

Record mensaje := mkMensaje {
  m_id : string; m_evento_id : string; m_usuario_id : string;
  m_contenido : string; m_enviado_en : Z }.
End Fila.
Import Fila.

Record DB := mkDB {
  usuarios : gmap string Usuario.t;
  eventos : list Evento.t;
  zonas : gmap (string * string) Zona.t;      (* PRIMARY KEY (id, evento_id) *)
  incidencias : gmap string incidencia;
  incidencias_historial : list historial;
  tareas : gmap string tarea;
  mensajes : list mensaje
}.

Definition con_incidencias (db : DB) (m : gmap string incidencia) : DB :=
  mkDB (usuarios db) (eventos db) (zonas db) m (incidencias_historial db)
       (tareas db) (mensajes db).
Definition con_historial (db : DB) (h : list historial) : DB :=
  mkDB (usuarios db) (eventos db) (zonas db) (incidencias db) h
       (tareas db) (mensajes db).
Definition con_tareas (db : DB) (m : gmap string tarea) : DB :=
  mkDB (usuarios db) (eventos db) (zonas db) (incidencias db)
       (incidencias_historial db) m (mensajes db).

Definition ErrAbortada : error :=
  pqError "current transaction is aborted, commands ignored until end of transaction block".
Definition ErrForeignKey : error := pqError "foreign_key_violation".
Definition ErrCheck : error := pqError "check_violation".
Definition ErrScanNull : error :=
  errorString "sql: Scan error: converting NULL to string is unsupported".

(** An open transaction: the store as the transaction sees it, and whether
    one of its statements has failed. *)
Record Tx := mkTx { tx_vista : DB; tx_fallida : bool }.

Definition BeginTxx (db : DB) : Tx := mkTx db false.
Definition fallar (tx : Tx) : Tx := mkTx (tx_vista tx) true.

(** [tx.Commit()]; a failed transaction commits nothing. *)
Definition Commit (db : DB) (tx : Tx) : DB :=
  if tx_fallida tx then db else tx_vista tx.

(** *** repository: events *)

Module EventoRepo.
(** [SELECT ... FROM eventos WHERE estado = 'activo'
    ORDER BY creado_en DESC LIMIT 1] *)
Definition ObtenerActivo (db : DB) : option Evento.t :=
  head (Sql.ordenar_desc Evento.CreadoEn
          (List.filter (λ e, String.eqb (Evento.Estado e) "activo") (eventos db))).
End EventoRepo.

(** *** repository: incidents *)

Module IncidenciaRepo.

(** CHECK (estado IN ('pendiente','en_atencion','resuelta')) *)
Definition estado_valido (e : string) : bool :=
  String.eqb e "pendiente" || String.eqb e "en_atencion" || String.eqb e "resuelta".

(** [ObtenerPorID]: the row with the names of its zone and assignee
    joined in.  [zona_nombre] is scanned into a Go [string], which
    fails on NULL (no such zone in the event). *)
Definition ObtenerPorID (db : DB) (id : string) : error + option Incidencia.t :=
  match incidencias db !! id with
  | None => inr None
  | Some f =>
      match zonas db !! (i_zona_id f, i_evento_id f) with
      | None => inl ErrScanNull
      | Some z =>
          inr (Some (Incidencia.mk (i_id f) (i_evento_id f) (i_zona_id f)
                       (Zona.Nombre z) (i_tipo f) (i_descripcion f)
                       (i_estado f) (i_creada_por f) (i_asignada_a f)
                       (i_asignada_a f ≫= (λ u, Usuario.Nombre <$> usuarios db !! u))
                       (i_creada_en f) (i_actualizada_en f)))
      end
  end.

(** [SELECT estado FROM incidencias WHERE id = $1] scanned into
    [estadoActual], which keeps its zero value when there is no row. *)
Definition leer_estado (tx : Tx) (id : string) : string :=
  match incidencias (tx_vista tx) !! id with
  | Some f => i_estado f
  | None => ""
  end.

(** [UPDATE incidencias SET estado = $1 WHERE id = $2] *)
Definition actualizar_estado (tx : Tx) (ahora : Z) (estado id : string)
  : Tx * option error :=
  if tx_fallida tx then (tx, Some ErrAbortada)
  else
    match incidencias (tx_vista tx) !! id with
    | None => (tx, None)
    | Some f =>
        if estado_valido estado then
          let f' := mkIncidencia (i_id f) (i_evento_id f) (i_zona_id f) (i_tipo f)
                      (i_descripcion f) estado (i_creada_por f)
                      (i_asignada_a f) (i_creada_en f) ahora in
          (mkTx (con_incidencias (tx_vista tx)
                   (<[id := f']> (incidencias (tx_vista tx)))) false,
           None)
        else (fallar tx, Some ErrCheck)
    end.

(** [INSERT INTO incidencias_historial ...] *)
Definition insertar_historial (tx : Tx) (ahora : Z)
    (id anterior nuevo usuarioID : string) : Tx * option error :=
  if tx_fallida tx then (tx, Some ErrAbortada)
  else
    match incidencias (tx_vista tx) !! id, usuarios (tx_vista tx) !! usuarioID with
    | Some _, Some _ =>
        (mkTx (con_historial (tx_vista tx)
                 (incidencias_historial (tx_vista tx)
                    ++ [mkHistorial id anterior nuevo usuarioID ahora])) false,
         None)
    | _, _ => (fallar tx, Some ErrForeignKey)
    end.

(** [UPDATE incidencias SET asignada_a = $1 WHERE id = $2] *)
Definition actualizar_asignada (tx : Tx) (ahora : Z) (asignada id : string)
  : Tx * option error :=
  if tx_fallida tx then (tx, Some ErrAbortada)
  else
    match incidencias (tx_vista tx) !! id with
    | None => (tx, None)
    | Some f =>
        match usuarios (tx_vista tx) !! asignada with
        | None => (fallar tx, Some ErrForeignKey)
        | Some _ =>
            let f' := mkIncidencia (i_id f) (i_evento_id f) (i_zona_id f) (i_tipo f)
                        (i_descripcion f) (i_estado f) (i_creada_por f)
                        (Some asignada) (i_creada_en f) ahora in
            (mkTx (con_incidencias (tx_vista tx)
                     (<[id := f']> (incidencias (tx_vista tx)))) false,
             None)
        end
    end.

(** [Editar] *)
Definition Editar (db : DB) (ahora : Z) (id : string)
    (req : EditarIncidenciaRequest.t) (usuarioID : string)
  : DB * (error + option Incidencia.t) :=
  let tx := BeginTxx db in
  let estadoActual := leer_estado tx id in
  let paso_estado : Tx * option error :=
    match EditarIncidenciaRequest.Estado req with
    | Some estado =>
        match actualizar_estado tx ahora estado id with
        | (tx, Some err) => (tx, Some err)
        | (tx, None) =>
            (fst (insertar_historial tx ahora id estadoActual estado usuarioID),
             None)
        end
    | None => (tx, None)
    end in
  match paso_estado with
  | (_, Some err) => (db, inl err)
  | (tx, None) =>
      let paso_asignada : Tx * option error :=
        match EditarIncidenciaRequest.AsignadaA req with
        | Some asignada => actualizar_asignada tx ahora asignada id
        | None => (tx, None)
        end in
      match paso_asignada with
      | (_, Some err) => (db, inl err)
      | (tx, None) =>
          let db := Commit db tx in
          (db, ObtenerPorID db id)
      end
  end.

End IncidenciaRepo.

(** *** repository: tasks *)

Module TareaRepo.

(** CHECK (estado IN ('pendiente','en_progreso','completada')) *)
Definition estado_valido (e : string) : bool :=
  String.eqb e "pendiente" || String.eqb e "en_progreso" || String.eqb e "completada".

(** CHECK (prioridad IN ('alta','media','baja')) *)
Definition prioridad_valida (p : string) : bool :=
  String.eqb p "alta" || String.eqb p "media" || String.eqb p "baja".

(** The BEFORE UPDATE trigger [trg_tareas_completada]:
    IF NEW.estado = 'completada' AND OLD.estado != 'completada'
    THEN NEW.completada_en = NOW(). *)
Definition update_tareas_actualizada_en (ahora : Z) (OLD NEW : tarea) : tarea :=
  if String.eqb (t_estado NEW) "completada"
     && negb (String.eqb (t_estado OLD) "completada")
  then mkTarea (t_id NEW) (t_evento_id NEW) (t_zona_id NEW) (t_titulo NEW)
         (t_descripcion NEW) (t_estado NEW) (t_prioridad NEW)
         (t_creada_por NEW) (t_asignada_a NEW) (Some ahora) (t_creada_en NEW)
  else NEW.

(** A nullable reference to [usuarios(id)]. *)
Definition existe_usuario (db : DB) (o : option string) : bool :=
  match o with
  | None => true
  | Some u => bool_decide (is_Some (usuarios db !! u))
  end.

Definition ObtenerPorID (db : DB) (id : string) : option Tarea.t :=
  (λ f,
     Tarea.mk (t_id f) (t_evento_id f) (t_zona_id f)
       (t_zona_id f ≫= (λ z, Zona.Nombre <$> zonas db !! (z, t_evento_id f)))
       (t_titulo f) (t_descripcion f) (t_estado f) (t_prioridad f)
       (t_creada_por f) (t_asignada_a f)
       (t_asignada_a f ≫= (λ u, Usuario.Nombre <$> usuarios db !! u))
       (t_completada_en f) (t_creada_en f))
  <$> tareas db !! id.

(** [Crear]: the INSERT names neither [estado] nor [completada_en], so
    the row gets the defaults ['pendiente'] and NULL; [nuevoID] is the
    fresh [uuid_generate_v4()]. *)
Definition Crear (db : DB) (ahora : Z) (nuevoID : string)
    (req : CrearTareaRequest.t) (eventoID adminID : string)
  : DB * (error + Tarea.t) :=
  let zonaID :=
    if String.eqb (CrearTareaRequest.ZonaID req) "" then None
    else Some (CrearTareaRequest.ZonaID req) in
  if negb (prioridad_valida (CrearTareaRequest.Prioridad req))
  then (db, inl ErrCheck)
  else if negb (existsb (λ e, String.eqb (Evento.ID e) eventoID) (eventos db))
          || negb (existe_usuario db (Some adminID))
          || negb (existe_usuario db (CrearTareaRequest.AsignadaA req))
  then (db, inl ErrForeignKey)
  else
    let f := mkTarea nuevoID eventoID zonaID (CrearTareaRequest.Titulo req)
               (CrearTareaRequest.Descripcion req) "pendiente"
               (CrearTareaRequest.Prioridad req) adminID
               (CrearTareaRequest.AsignadaA req) None ahora in
    let db := con_tareas db (<[nuevoID := f]> (tareas db)) in
    match ObtenerPorID db nuevoID with
    | Some t => (db, inr t)
    | None => (db, inl ErrNoRows)
    end.

(** [UPDATE tareas SET estado = $1 WHERE id = $2] *)
Definition actualizar_estado (db : DB) (ahora : Z) (estado id : string)
  : DB * option error :=
  match tareas db !! id with
  | None => (db, None)
  | Some f =>
      let nueva := mkTarea (t_id f) (t_evento_id f) (t_zona_id f) (t_titulo f)
                     (t_descripcion f) estado (t_prioridad f) (t_creada_por f)
                     (t_asignada_a f) (t_completada_en f) (t_creada_en f) in
      let nueva := update_tareas_actualizada_en ahora f nueva in
      if estado_valido estado
      then (con_tareas db (<[id := nueva]> (tareas db)), None)
      else (db, Some ErrCheck)
  end.

(** [UPDATE tareas SET asignada_a = $1 WHERE id = $2] *)
Definition actualizar_asignada (db : DB) (ahora : Z) (asignada id : string)
  : DB * option error :=
  match tareas db !! id with
  | None => (db, None)
  | Some f =>
      let nueva := mkTarea (t_id f) (t_evento_id f) (t_zona_id f) (t_titulo f)
                     (t_descripcion f) (t_estado f) (t_prioridad f)
                     (t_creada_por f) (Some asignada) (t_completada_en f)
                     (t_creada_en f) in
      let nueva := update_tareas_actualizada_en ahora f nueva in
      match usuarios db !! asignada with
      | Some _ => (con_tareas db (<[id := nueva]> (tareas db)), None)
      | None => (db, Some ErrForeignKey)
      end
  end.

(** [Editar]: each statement commits on its own. *)
Definition Editar (db : DB) (ahora : Z) (id : string) (req : EditarTareaRequest.t)
  : DB * (error + option Tarea.t) :=
  let r1 : DB * option error :=
    match EditarTareaRequest.Estado req with
    | Some estado => actualizar_estado db ahora estado id
    | None => (db, None)
    end in
  match r1 with
  | (db, Some err) => (db, inl err)
  | (db, None) =>
      let r2 : DB * option error :=
        match EditarTareaRequest.AsignadaA req with
        | Some asignada => actualizar_asignada db ahora asignada id
        | None => (db, None)
        end in
      match r2 with
      | (db, Some err) => (db, inl err)
      | (db, None) => (db, inr (ObtenerPorID db id))
      end
  end.

End TareaRepo.

(** *** repository: users *)

Module UsuarioRepo.
(** [SELECT ... FROM usuarios WHERE nombre_usuario = $1 AND activo = true];
    [nombre_usuario] is UNIQUE. *)
Definition BuscarPorNombreUsuario (db : DB) (nombreUsuario : string)
  : option Usuario.t :=
  snd <$> List.find
            (λ kv, String.eqb (Usuario.NombreUsuario kv.2) nombreUsuario
                   && Usuario.Activo kv.2)
            (map_to_list (usuarios db)).

Definition BuscarPorID (db : DB) (id : string) : option Usuario.t :=
  usuarios db !! id.
End UsuarioRepo.

(** *** repository: chat messages *)

Module MensajeRepo.

(** [JOIN usuarios u ON u.id = m.usuario_id] for one message row. *)
Definition unir (db : DB) (m : mensaje) : option Mensaje.t :=
  (λ u, Mensaje.mk (m_id m) (m_evento_id m) (m_usuario_id m)
          (Usuario.Nombre u) (Usuario.Rol u) (m_contenido m) (m_enviado_en m))
  <$> usuarios db !! m_usuario_id m.

(** The rows of the event, joined with their authors. *)
Definition del_evento (db : DB) (eventoID : string) : list Mensaje.t :=
  omap (unir db)
    (List.filter (λ m, String.eqb (m_evento_id m) eventoID) (mensajes db)).

(** A text that can be compared with [evento_id], a UUID column: the id
    of a stored event (the ids of the store stand for UUIDs) or a UUID. *)
Definition es_evento_id (db : DB) (s : string) : bool :=
  existsb (λ e, String.eqb (Evento.ID e) s) (eventos db) || Pg.es_uuid s.

(** [SELECT ... FROM mensajes m JOIN usuarios u ... WHERE m.evento_id = $1
    ORDER BY m.enviado_en DESC LIMIT $2]; the statement fails when [$1]
    is no UUID (the empty text, for one). *)
Definition consultar (db : DB) (eventoID : string) (limite : Z)
  : error + list Mensaje.t :=
  if negb (es_evento_id db eventoID) then inl (Pg.ErrUUID eventoID)
  else if Z.ltb limite 0 then inl (pqError "LIMIT must not be negative")
  else inr (Sql.limitar limite
              (Sql.ordenar_desc Mensaje.EnviadoEn (del_evento db eventoID))).

(** [lista[i], lista[j] = lista[j], lista[i]]; [None] is the
    index-out-of-range panic. *)
Definition intercambiar {A : Type} (lista : list A) (i j : Z) : option (list A) :=
  if Z.leb 0 i && Z.leb 0 j then
    match lista !! Z.to_nat i, lista !! Z.to_nat j with
    | Some a, Some b => Some (<[Z.to_nat j := a]> (<[Z.to_nat i := b]> lista))
    | _, _ => None
    end
  else None.

(** [for i, j := 0, len(lista)-1; i < j; i, j = i+1, j-1 { swap }],
    unrolled at most [vueltas] times. *)
Fixpoint invertir_desde {A : Type} (vueltas : nat) (i j : Z) (lista : list A)
  : option (list A) :=
  if Z.ltb i j then
    match vueltas with
    | O => None
    | S vueltas =>
        match intercambiar lista i j with
        | Some lista => invertir_desde vueltas (i + 1) (j - 1) lista
        | None => None
        end
    end
  else Some lista.

Definition invertir {A : Type} (lista : list A) : option (list A) :=
  invertir_desde (length lista) 0 (Z.of_nat (length lista) - 1) lista.

(** [Listar]: the slice and the error it returns; [None] is a panic. *)
Definition Listar (db : DB) (eventoID : string) (limite : Z)
  : option (list Mensaje.t * option error) :=
  match consultar db eventoID limite with
  | inl err => (λ l, (l, Some err)) <$> invertir []
  | inr lista => (λ l, (l, None)) <$> invertir lista
  end.

End MensajeRepo.

(** *** JSON encodings *)

Module Encode.

Definition Usuario (u : Usuario.t) : JSON :=
  JObj ([("id", JStr (Usuario.ID u));
         ("nombre_usuario", JStr (Usuario.NombreUsuario u));
         ("nombre", JStr (Usuario.Nombre u));
         ("rol", JStr (Usuario.Rol u))]
        ++ omitempty "evento_id" JStr (Usuario.EventoID u)
        ++ [("activo", JBool (Usuario.Activo u));
            ("creado_en", JNum (Usuario.CreadoEn u))]).

Definition LoginResponse (token : string) (u : Usuario.t) : JSON :=
  JObj [("token", JStr token); ("usuario", Usuario u)].

Definition Mensaje (m : Mensaje.t) : JSON :=
  JObj [("id", JStr (Mensaje.ID m));
        ("evento_id", JStr (Mensaje.EventoID m));
        ("usuario_id", JStr (Mensaje.UsuarioID m));
        ("nombre_usuario", JStr (Mensaje.NombreUsuario m));
        ("rol_usuario", JStr (Mensaje.RolUsuario m));
        ("contenido", JStr (Mensaje.Contenido m));
        ("enviado_en", JNum (Mensaje.EnviadoEn m))].

(** A slice; the query leaves it nil when there is no row. *)
Definition Mensajes (l : list Mensaje.t) : JSON :=
  match l with
  | [] => JNull
  | _ => JArr (Mensaje <$> l)
  end.

Definition ErrorResponse (msg : string) (codigo : Z) : JSON :=
  JObj ([("error", JStr msg)] ++ omitempty_int "codigo" codigo).

End Encode.

(** *** handlers *)

Definition responder_error (status : Z) (msg : string) : Respuesta :=
  mkRespuesta status (Encode.ErrorResponse msg 0).

Module ChatHandler.

(** The event a request is about: the one in its token, or else the
    active one ([if eventoID == "" { if ev, _ := ObtenerActivo(..); ev != nil
    { eventoID = ev.ID } }]). *)
Definition evento_de_la_peticion (db : DB) (eventoID : string) : string :=
  if String.eqb eventoID "" then
    match EventoRepo.ObtenerActivo db with
    | Some ev => Evento.ID ev
    | None => eventoID
    end
  else eventoID.

(** [Historial]; [eventoID] is [middleware.GetEventoID(c)]. *)
Definition Historial (db : DB) (eventoID : string) : option Respuesta :=
  let eventoID := evento_de_la_peticion db eventoID in
  (λ r : list Mensaje.t * option error,
     match r with
     | (_, Some _) =>
         responder_error StatusInternalServerError "Error obteniendo historial"
     | (msgs, None) => mkRespuesta StatusOK (Encode.Mensajes msgs)
     end)
  <$> MensajeRepo.Listar db eventoID 50.

End ChatHandler.

Module AuthHandler.

Record LoginRequest := mkLoginRequest { NombreUsuario : string; Password : string }.

(** The value a handler of this file hands to [c.JSON], as the handler
    has built it. *)
Inductive Valor :=
| VErrorResponse (msg : string) (codigo : Z)
| VLoginResponse (token : string) (usuario : Usuario.t)
| VUsuario (usuario : Usuario.t).

(** [json.Marshal] of it: the body [c.JSON] writes. *)
Definition Marshal (v : Valor) : JSON :=
  match v with
  | VErrorResponse msg codigo => Encode.ErrorResponse msg codigo
  | VLoginResponse token usuario => Encode.LoginResponse token usuario
  | VUsuario usuario => Encode.Usuario usuario
  end.

Section Servicios.
Variable ValidarPassword : string → string → bool.
Variable GenerarToken : Usuario.t → error + string.

(** [usuario.Password = ""] *)
Definition sin_password (u : Usuario.t) : Usuario.t :=
  Usuario.mk (Usuario.ID u) (Usuario.NombreUsuario u) (Usuario.Nombre u) ""
    (Usuario.Rol u) (Usuario.EventoID u) (Usuario.Activo u)
    (Usuario.CreadoEn u).

(** [Login], up to its call of [c.JSON]: the status and the value of
    that call (the handler reads the request password as
    [req.Password_hash]). *)
Definition Login_JSON (db : DB) (req : error + LoginRequest) : Z * Valor :=
  match req with
  | inl err => (StatusBadRequest, VErrorResponse (Error err) 0)
  | inr req =>
      match UsuarioRepo.BuscarPorNombreUsuario db (NombreUsuario req) with
      | None => (StatusUnauthorized, VErrorResponse "Credenciales inválidas" 0)
      | Some usuario =>
          if negb (ValidarPassword (Usuario.Password usuario) (Password req))
          then (StatusUnauthorized, VErrorResponse "Credenciales inválidas" 0)
          else
            match GenerarToken usuario with
            | inl _ =>
                (StatusInternalServerError, VErrorResponse "Error generando token" 0)
            | inr token =>
                let usuario := sin_password usuario in
                (StatusOK, VLoginResponse token usuario)
            end
      end
  end.

(** [Login]: the response. *)
Definition Login (db : DB) (req : error + LoginRequest) : Respuesta :=
  mkRespuesta (Login_JSON db req).1 (Marshal (Login_JSON db req).2).

(** [Me], up to its call of [c.JSON]. *)
Definition Me_JSON (db : DB) (usuarioID : string) : Z * Valor :=
  match UsuarioRepo.BuscarPorID db usuarioID with
  | None => (StatusNotFound, VErrorResponse "Usuario no encontrado" 0)
  | Some u =>
      let u := sin_password u in
      (StatusOK, VUsuario u)
  end.

(** [Me]: the response. *)
Definition Me (db : DB) (usuarioID : string) : Respuesta :=
  mkRespuesta (Me_JSON db usuarioID).1 (Marshal (Me_JSON db usuarioID).2).

End Servicios.
End AuthHandler.

End V2.

(** ** The fan-out hub (both generations) *)

Module Ws.
Import Go.

(** A buffered [chan []byte]. *)
Record Canal := mkCanal { buf : list JSON; capacidad : nat; cerrado : bool }.

Record Cliente := mkCliente { send : Canal; UsuarioID : string; EventoID : string }.

(** The hub: the clients by address, and the registry
    [map[string]map[*Cliente]bool]. *)
Record Hub := mkHub {
  memoria : gmap nat Cliente;
  clientes : gmap string (gset nat)
}.

Definition registrados (h : Hub) (eventoID : string) : gset nat :=
  default ∅ (clientes h !! eventoID).

(** [select { case c.send <- data: ... default: ... }] *)
Inductive Intento := Enviado (c : Canal) | Lleno | Panico.

Definition enviar_sin_bloquear (c : Canal) (data : JSON) : Intento :=
  if cerrado c then Panico
  else if Nat.ltb (length (buf c)) (capacidad c)
       then Enviado (mkCanal (buf c ++ [data]) (capacidad c) (cerrado c))
       else Lleno.

(** [close(c)]; closing a closed channel panics. *)
Definition cerrar (c : Canal) : option Canal :=
  if cerrado c then None else Some (mkCanal (buf c) (capacidad c) true).

Definition con_send (cl : Cliente) (c : Canal) : Cliente :=
  mkCliente c (UsuarioID cl) (EventoID cl).

(** The body of the fan-out loop for the client at address [c]. *)
Definition entregar (eventoID : string) (data : JSON) (c : nat) (h : Hub)
  : option Hub :=
  cl ← memoria h !! c;
  match enviar_sin_bloquear (send cl) data with
  | Enviado canal =>
      Some (mkHub (<[c := con_send cl canal]> (memoria h)) (clientes h))
  | Lleno =>
      canal ← cerrar (send cl);
      Some (mkHub (<[c := con_send cl canal]> (memoria h))
                  (<[eventoID := registrados h eventoID ∖ {[c]}]> (clientes h)))
  | Panico => None
  end.

(** [for c := range h.clientes[eventoID] { ... }], visiting the clients
    in the order [orden]. *)
Fixpoint recorrer (eventoID : string) (data : JSON) (orden : list nat) (h : Hub)
  : option Hub :=
  match orden with
  | [] => Some h
  | c :: resto =>
      match entregar eventoID data c h with
      | Some h => recorrer eventoID data resto h
      | None => None
      end
  end.

(** [distribuir] (the range order of a Go map is not fixed; [elements]
    is one such order). *)
Definition distribuir (h : Hub) (eventoID : string) (data : JSON) : option Hub :=
  recorrer eventoID data (elements (registrados h eventoID)) h.

Record EventoWS := mkEventoWS { Tipo : string; Payload : JSON; EventoWS_EventoID : string }.

Definition campo_string (k : string) (j : JSON) : option string :=
  match campo k j with
  | None | Some JNull => Some ""
  | Some (JStr s) => Some s
  | Some _ => None
  end.

(** [json.Unmarshal(data, &evento)] *)
Definition Unmarshal (data : JSON) : option EventoWS :=
  match data with
  | JObj _ =>
      tipo ← campo_string "tipo" data;
      eventoID ← campo_string "evento_id" data;
      Some (mkEventoWS tipo (default JNull (campo "payload" data)) eventoID)
  | JNull => Some (mkEventoWS "" JNull "")
  | _ => None
  end.

(** [distribuirMensaje] of the first generation. *)
Definition distribuirMensaje (h : Hub) (canal : string) (data : JSON) : option Hub :=
  match Unmarshal data with
  | None => Some h
  | Some evento =>
      if String.eqb (EventoWS_EventoID evento) "" then Some h
      else recorrer (EventoWS_EventoID evento) data
             (elements (registrados h (EventoWS_EventoID evento))) h
  end.

(** One message of [escucharRedis] in the second generation. *)
Definition escucharRedis_mensaje (h : Hub) (payload : JSON) : option Hub :=
  match Unmarshal payload with
  | None => Some h
  | Some evento => distribuir h (EventoWS_EventoID evento) payload
  end.

(** [Run], case [<-h.registrar]. *)
Definition registrar (h : Hub) (c : nat) : option Hub :=
  cl ← memoria h !! c;
  Some (mkHub (memoria h)
              (<[EventoID cl := {[c]} ∪ registrados h (EventoID cl)]> (clientes h))).

(** [Run], case [<-h.desregistrar]. *)
Definition desregistrar (h : Hub) (c : nat) : option Hub :=
  cl ← memoria h !! c;
  match clientes h !! EventoID cl with
  | Some conns =>
      if bool_decide (c ∈ conns) then
        canal ← cerrar (send cl);
        Some (mkHub (<[c := con_send cl canal]> (memoria h))
                    (<[EventoID cl := conns ∖ {[c]}]> (clientes h)))
      else Some h
  | None => Some h
  end.

(** [HandleConexion]: a new client (at the fresh address [c]) with an
    empty queue of [capacidad] frames (256 in the first generation, 512 in
    the second), handed to [registrar]. *)
Definition HandleConexion (h : Hub) (c : nat) (capacidad : nat)
    (usuarioID eventoID : string) : Hub :=
  mkHub (<[c := mkCliente (mkCanal [] capacidad false) usuarioID eventoID]> (memoria h))
        (clientes h).

End Ws.

(** * Properties *)

(** ** The claim protocol, one call at a time *)

Section GoStrings.
Import Go.

Lemma HasPrefix_app (p s : string) : HasPrefix (p +:+ s) p = true.
Proof.
  unfold HasPrefix. induction p as [|c p IH]; simpl.
  - by destruct s.
  - destruct (ascii_dec c c); [apply IH | done].
Qed.

End GoStrings.

Section ClaimSequential.
Import Go V1 V1.Incidencia V1.IncidenciaRepository.

(** Taking a free lock and releasing it again leaves the store as it was. *)
Lemma tomar_y_soltar (db : DB) (incID : string) :
  incID ∉ bloqueos db →
  con_bloqueos (con_bloqueos db ({[incID]} ∪ bloqueos db))
    (({[incID]} ∪ bloqueos db) ∖ ({[incID]} ∪ ∅)) = db.
Proof.
  intros Hlibre. destruct db as [us incs hist ts bl]; unfold con_bloqueos; simpl in *.
  f_equal. set_solver.
Qed.

Lemma vista_inicio (db : DB) : vista db BeginTxx = incidencias db.
Proof. unfold vista; simpl. apply (left_id_L ∅ (∪)). Qed.

Lemma libre_no_ajeno (db : DB) (incID : string) :
  incID ∉ bloqueos db →
  bool_decide (incID ∈ bloqueos db ∖ tx_bloqueos BeginTxx) = false.
Proof. intros H. apply bool_decide_eq_false. set_solver. Qed.

(** The row the UPDATE of a claim writes. *)
Definition fila_atendida (fila : Incidencia.t) (usuarioID : string) (ahora : Z)
  : Incidencia.t :=
  mk (ID fila) (EventoID fila) (ZonaID fila) "" (Tipo fila) (Descripcion fila)
     EstadoEnAtencion (ReportadaPor fila) (Some usuarioID) (CreadaEn fila) ahora.

(** What a claim does to a pending, unlocked incident. *)
Lemma atender_pendiente (db : DB) (ahora : Z) (incID A : string)
    (fila : Incidencia.t) :
  incidencias db !! incID = Some fila →
  Estado fila = EstadoPendiente →
  incID ∉ bloqueos db →
  is_Some (usuarios db !! A) →
  AtenderConLock db ahora incID A =
    (mkDB (usuarios db)
          (<[incID := fila_atendida fila A ahora]> (incidencias db))
          (incidencias_historial db
             ++ [Historial.mk incID EstadoPendiente EstadoEnAtencion A ahora])
          (tareas db) (bloqueos db),
     inr (fila_atendida fila A ahora)).
Proof.
  intros Hfila Hpend Hlibre [u Hu].
  unfold AtenderConLock, seleccionar_skip_locked.
  rewrite vista_inicio, Hfila, (libre_no_ajeno _ _ Hlibre). simpl.
  rewrite Hpend. simpl.
  unfold actualizar_en_atencion, vista. simpl.
  rewrite (left_id_L ∅ (∪)), Hfila, Hu.
  unfold insertar_historial, vista. simpl.
  rewrite lookup_union_l', lookup_insert_eq by (rewrite lookup_insert_eq; eauto).
  rewrite Hu. unfold Commit. simpl.
  f_equal. f_equal.
  - apply map_eq. intros k. destruct (decide (k = incID)) as [->|Hne].
    + rewrite lookup_union_l', !lookup_insert_eq by (rewrite lookup_insert_eq; eauto).
      reflexivity.
    + rewrite lookup_union_r by (rewrite lookup_insert_ne by done; apply lookup_empty).
      rewrite lookup_insert_ne by done. reflexivity.
  - set_solver.
Qed.


(** C2. A claim by actor [A] on a pending incident whose row no other
    transaction holds succeeds: the incident becomes [en_atencion] with
    assignee [A], exactly one history row pendiente→en_atencion by [A] is
    appended by the same commit, nothing else in the store changes, and
    the updated incident is returned. *)
Theorem claim_pending_succeeds (db : DB) (ahora : Z) (incID A : string)
    (fila : Incidencia.t) :
  incidencias db !! incID = Some fila →
  Estado fila = EstadoPendiente →
  incID ∉ bloqueos db →
  is_Some (usuarios db !! A) →
  let actualizada := fila_atendida fila A ahora in
  AtenderConLock db ahora incID A =
    (mkDB (usuarios db)
          (<[incID := actualizada]> (incidencias db))
          (incidencias_historial db
             ++ [Historial.mk incID EstadoPendiente EstadoEnAtencion A ahora])
          (tareas db) (bloqueos db),
     inr actualizada)
  ∧ Estado actualizada = EstadoEnAtencion
  ∧ AtendidaPor actualizada = Some A.
Proof.
  intros Hfila Hpend Hlibre Hu actualizada.
  split; [by apply atender_pendiente | split; reflexivity].
Qed.

Lemma claim_pending_succeeds_witness :
  let u1 := Usuario.mk "W1" "Ana" "ana@example.org" "hash" RolAseo None "E1" true 0 in
  let i1 := mk "I1" "E1" "Z1" "" "derrame" "agua en el pasillo" EstadoPendiente
              "ADM" None 5 5 in
  let db := mkDB {["W1" := u1]} {["I1" := i1]} [] ∅ ∅ in
  snd (AtenderConLock db 10 "I1" "W1") = inr (fila_atendida i1 "W1" 10).
Proof.
  intros u1 i1 db.
  destruct (claim_pending_succeeds db 10 "I1" "W1" i1) as [H _].
  - reflexivity.
  - reflexivity.
  - set_solver.
  - exists u1. reflexivity.
  - rewrite H. reflexivity.
Defined.

(** What a claim does to an unlocked incident that is not pending. *)
Lemma claim_not_pending_conflict_aux (db : DB) (ahora : Z) (incID A : string)
    (fila : Incidencia.t) :
  incidencias db !! incID = Some fila →
  Estado fila ≠ EstadoPendiente →
  incID ∉ bloqueos db →
  AtenderConLock db ahora incID A =
    (db, inl (errorString
                ("incidencia_conflicto:ya está en estado " +:+ Estado fila)))
  ∧ es_conflicto
      (errorString ("incidencia_conflicto:ya está en estado " +:+ Estado fila))
    = true.
Proof.
  intros Hfila Hno Hlibre. split;
    [| exact (HasPrefix_app "incidencia_conflicto:"
                ("ya está en estado " +:+ Estado fila))].
  unfold AtenderConLock, seleccionar_skip_locked.
  rewrite vista_inicio, Hfila, (libre_no_ajeno _ _ Hlibre). simpl.
  apply String.eqb_neq in Hno. rewrite Hno. simpl.
  unfold Rollback. simpl. rewrite tomar_y_soltar by done. reflexivity.
Qed.

(** C4. A claim on an incident that is not pending (and whose row no
    other transaction holds) fails with the conflict error naming the
    current state, and the store (incident row, history, locks) is left
    exactly as it was. *)
Theorem claim_not_pending_conflict (db : DB) (ahora : Z) (incID A : string)
    (fila : Incidencia.t) :
  incidencias db !! incID = Some fila →
  Estado fila ≠ EstadoPendiente →
  incID ∉ bloqueos db →
  AtenderConLock db ahora incID A =
    (db, inl (errorString
                ("incidencia_conflicto:ya está en estado " +:+ Estado fila)))
  ∧ es_conflicto
      (errorString ("incidencia_conflicto:ya está en estado " +:+ Estado fila))
    = true.
Proof. exact (claim_not_pending_conflict_aux db ahora incID A fila). Qed.

Lemma claim_not_pending_conflict_witness :
  let u1 := Usuario.mk "W1" "Ana" "ana@example.org" "hash" RolAseo None "E1" true 0 in
  let i1 := mk "I1" "E1" "Z1" "" "derrame" "agua en el pasillo" EstadoEnAtencion
              "ADM" (Some "W1") 5 7 in
  let db := mkDB {["W1" := u1]} {["I1" := i1]}
              [Historial.mk "I1" EstadoPendiente EstadoEnAtencion "W1" 7] ∅ ∅ in
  AtenderConLock db 10 "I1" "W2" =
    (db, inl (errorString "incidencia_conflicto:ya está en estado en_atencion")).
Proof.
  intros u1 i1 db.
  destruct (claim_not_pending_conflict db 10 "I1" "W2" i1) as [H _].
  - reflexivity.
  - discriminate.
  - set_solver.
  - exact H.
Defined.

End ClaimSequential.

(** ** The claim protocol under interleaving *)

Section ClaimConcurrent.
Import Go V1 V1.Incidencia V1.IncidenciaRepository.

(** How many statements a call may still execute. *)
Definition restantes (h : Hilo) : nat :=
  match h with
  | Inicio => 4
  | ConFila _ _ => 3
  | Actualizada _ _ => 2
  | SinFila _ | ConHistorial _ _ => 1
  | Fin _ => 0
  end.

(** How often call [i] is scheduled in [plan]. *)
Definition turnos_de (i : nat) (plan : list (nat * Z)) : nat :=
  length (filter (λ t, t.1 = i) plan).

Lemma paso_restantes (db : DB) (ahora : Z) (incID u : string) (h : Hilo) :
  (restantes (paso db ahora incID u h).2 ≤ pred (restantes h))%nat.
Proof.
  destruct h; simpl; try lia.
  - destruct (seleccionar_skip_locked db BeginTxx incID) as [[db' tx] [err|inc]];
      simpl; [destruct (es_ErrNoRows err); simpl |]; lia.
  - destruct (negb _); simpl; [lia |].
    destruct (actualizar_en_atencion db tx ahora u incID) as [tx' [err|a]];
      simpl; lia.
  - destruct (Commit db tx) as [db' [err|]]; simpl; lia.
Qed.

Lemma turno_otro (incID : string) (actores : list string)
    (s : DB * list Hilo) (t : nat * Z) (i : nat) :
  t.1 ≠ i → (turno incID actores s t).2 !! i = s.2 !! i.
Proof.
  intros Hne. unfold turno.
  destruct (actores !! t.1); [| done]. destruct (s.2 !! t.1); [| done].
  destruct (paso _ _ _ _ _) as [db' h']. simpl.
  by apply list_lookup_insert_ne.
Qed.

Lemma turno_propio (incID : string) (actores : list string)
    (s : DB * list Hilo) (t : nat * Z) (u : string) (h : Hilo) :
  actores !! t.1 = Some u → s.2 !! t.1 = Some h →
  turno incID actores s t
  = ((paso s.1 t.2 incID u h).1, <[t.1 := (paso s.1 t.2 incID u h).2]> s.2).
Proof.
  intros Hu Hh. unfold turno. rewrite Hu, Hh.
  by destruct (paso _ _ _ _ _).
Qed.

(** No call can be held up: after [k] turns a call has at most
    [4 - k] statements left, whatever the other calls do. *)
Lemma correr_restantes (incID : string) (actores : list string)
    (plan : list (nat * Z)) (s : DB * list Hilo) (i : nat) (u : string) (h : Hilo) :
  actores !! i = Some u → s.2 !! i = Some h →
  ∃ h', (correr incID actores s plan).2 !! i = Some h'
        ∧ (restantes h' ≤ restantes h - turnos_de i plan)%nat.
Proof.
  intros Hu. revert s h. induction plan as [|t plan IH]; intros s h Hh.
  - exists h. split; [done | unfold turnos_de; simpl; lia].
  - unfold correr. simpl. fold (correr incID actores (turno incID actores s t) plan).
    unfold turnos_de.
    destruct (decide (t.1 = i)) as [Heq|Hne];
      [rewrite filter_cons_True by done | rewrite filter_cons_False by done].
    + subst i. rewrite (turno_propio _ _ _ _ _ _ Hu Hh).
      set (r := paso s.1 t.2 incID u h).
      destruct (IH (r.1, <[t.1 := r.2]> s.2) r.2) as (h' & Hh' & Hle).
      { simpl. apply list_lookup_insert_eq. by eapply lookup_lt_Some. }
      exists h'. split; [done |].
      pose proof (paso_restantes s.1 t.2 incID u h) as Hp. fold r in Hp.
      unfold turnos_de in Hle. simpl. lia.
    + destruct (IH (turno incID actores s t) h) as (h' & Hh' & Hle).
      { rewrite turno_otro by done. done. }
      exists h'. split; [done |]. unfold turnos_de in Hle. lia.
Qed.

Lemma rollback_inicio (db : DB) : Rollback db BeginTxx = db.
Proof.
  destruct db; unfold Rollback, con_bloqueos; simpl. f_equal. set_solver.
Qed.

Lemma conflicto_sin_fila_es_conflicto (db : DB) (i : string) :
  es_conflicto (conflicto_sin_fila db i) = true.
Proof.
  unfold conflicto_sin_fila.
  destruct (consultar_actual db i) as [|actual]; [done |].
  apply HasPrefix_app.
Qed.

Lemma conflicto_estado_es_conflicto (inc : Incidencia.t) :
  es_conflicto (conflicto_estado inc) = true.
Proof.
  exact (HasPrefix_app "incidencia_conflicto:" ("ya está en estado " +:+ Estado inc)).
Qed.

Lemma otros_tras_turno (P : Hilo → Prop) (hilos : list Hilo) (i w : nat) (h' : Hilo) :
  (∀ j h, j ≠ w → hilos !! j = Some h → P h) → P h' →
  ∀ j h, j ≠ w → <[i := h']> hilos !! j = Some h → P h.
Proof.
  intros Hotros Hh' j h Hj Hlk.
  apply list_lookup_insert_Some in Hlk as [(-> & <- & _) | (Hne & Hlk)]; eauto.
Qed.

Variables (db0 : DB) (incID : string) (actores : list string)
          (fila0 : Incidencia.t).
Hypothesis Hfila : incidencias db0 !! incID = Some fila0.
Hypothesis Hpend : Estado fila0 = EstadoPendiente.
Hypothesis Hlibre : incID ∉ bloqueos db0.
Hypothesis Husuarios : ∀ u, u ∈ actores → is_Some (usuarios db0 !! u).

(** The transaction of the call that holds the row, at its three points. *)
Let tx_leida : Tx := mkTx ∅ [] ({[incID]} ∪ ∅) false.
Let tx_escrita (u : string) (t : Z) : Tx :=
  mkTx (<[incID := fila_atendida fila0 u t]> ∅) [] ({[incID]} ∪ ∅) false.
Let tx_historiada (u : string) (t t' : Z) : Tx :=
  mkTx (<[incID := fila_atendida fila0 u t]> ∅)
       ([] ++ [Historial.mk incID "pendiente" "en_atencion" u t'])
       ({[incID]} ∪ ∅) false.
Let leida (fila : Incidencia.t) : Incidencia.t :=
  mk (ID fila) "" "" "" "" "" (Estado fila) "" (AtendidaPor fila) 0 0.

(** The store while the winner is in flight, and after its commit. *)
Let db_bloqueada : DB := con_bloqueos db0 ({[incID]} ∪ bloqueos db0).
Let db_atendida (u : string) (t t' : Z) (b : gset string) : DB :=
  mkDB (usuarios db0)
       (<[incID := fila_atendida fila0 u t]> (incidencias db0))
       (incidencias_historial db0
          ++ [Historial.mk incID "pendiente" "en_atencion" u t'])
       (tareas db0) b.

Definition perdedor (h : Hilo) : Prop :=
  h = Inicio ∨ h = SinFila BeginTxx
  ∨ ∃ e, h = Fin (inl e) ∧ es_conflicto e = true.

Let tardio (h : Hilo) : Prop :=
  perdedor h
  ∨ ∃ tx inc, h = ConFila tx inc ∧ Estado inc = EstadoEnAtencion.

Let en_vuelo (u : string) (h : Hilo) : Prop :=
  h = ConFila tx_leida (leida fila0)
  ∨ (∃ t, h = Actualizada (tx_escrita u t) (fila_atendida fila0 u t))
  ∨ (∃ t t', h = ConHistorial (tx_historiada u t t') (fila_atendida fila0 u t)).

Let faseA (s : DB * list Hilo) : Prop :=
  s.1 = db0 ∧ ∀ j h, s.2 !! j = Some h → h = Inicio.

Let faseB (s : DB * list Hilo) : Prop :=
  ∃ w u, actores !! w = Some u ∧ s.1 = db_bloqueada
         ∧ (∃ h, s.2 !! w = Some h ∧ en_vuelo u h)
         ∧ ∀ j h, j ≠ w → s.2 !! j = Some h → perdedor h.

Let faseC (s : DB * list Hilo) : Prop :=
  ∃ w u t t' b,
    actores !! w = Some u ∧ s.1 = db_atendida u t t' b
    ∧ s.2 !! w = Some (Fin (inr (fila_atendida fila0 u t)))
    ∧ ∀ j h, j ≠ w → s.2 !! j = Some h → tardio h.

Let Inv (s : DB * list Hilo) : Prop := faseA s ∨ faseB s ∨ faseC s.

(** The locking read of a fresh transaction. *)
Lemma paso_inicio_libre (db : DB) (ahora : Z) (u : string) (fila : Incidencia.t) :
  incidencias db !! incID = Some fila → incID ∉ bloqueos db →
  paso db ahora incID u Inicio
  = (con_bloqueos db ({[incID]} ∪ bloqueos db), ConFila tx_leida (leida fila)).
Proof.
  intros Hf Hl. unfold paso, seleccionar_skip_locked.
  rewrite vista_inicio, Hf, (libre_no_ajeno _ _ Hl). reflexivity.
Qed.

Lemma paso_inicio_ocupada (db : DB) (ahora : Z) (u : string) (fila : Incidencia.t) :
  incidencias db !! incID = Some fila → incID ∈ bloqueos db →
  paso db ahora incID u Inicio = (db, SinFila BeginTxx).
Proof.
  intros Hf Hl. unfold paso, seleccionar_skip_locked.
  rewrite vista_inicio, Hf. simpl.
  rewrite bool_decide_eq_true_2 by set_solver. reflexivity.
Qed.

Lemma inv_turno (s : DB * list Hilo) (t : nat * Z) :
  Inv s → Inv (turno incID actores s t).
Proof.
  intros HI. unfold turno.
  destruct (actores !! t.1) as [u|] eqn:Hu; [| done].
  destruct (s.2 !! t.1) as [h|] eqn:Hh; [| done].
  destruct s as [db hilos]; simpl in *.
  pose proof (lookup_lt_Some _ _ _ Hh) as Hlen.
  destruct HI as [[Hdb Hall]
                 | [(w & uw & Hw & Hdb & (hw & Hhw & Hvuelo) & Hotros)
                   | (w & uw & t0 & t0' & b & Hw & Hdb & Hhw & Hotros)]];
    simpl in *; subst db.
  - (* nobody has touched the row yet *)
    rewrite (Hall _ _ Hh), (paso_inicio_libre _ _ _ _ Hfila Hlibre).
    right; left. exists t.1, u. simpl. repeat split; [done | |].
    + exists (ConFila tx_leida (leida fila0)).
      split; [by apply list_lookup_insert_eq | by left].
    + intros j h' Hj Hlk. rewrite list_lookup_insert_ne in Hlk by done.
      left. eauto.
  - (* the winner holds the row *)
    destruct (decide (t.1 = w)) as [Heq|Hne].
    + rewrite Heq in *. assert (u = uw) as -> by congruence.
      assert (h = hw) as -> by congruence.
      assert (is_Some (usuarios db0 !! uw)) as [usr Husr].
      { apply Husuarios. eapply list_elem_of_lookup_2; eauto. }
      destruct Hvuelo as [-> | [[t1 ->] | (t1 & t1' & ->)]].
      * (* UPDATE *)
        assert (paso db_bloqueada t.2 incID uw (ConFila tx_leida (leida fila0))
                = (db_bloqueada,
                   Actualizada (tx_escrita uw t.2) (fila_atendida fila0 uw t.2)))
          as ->.
        { unfold paso. simpl. rewrite Hpend. simpl.
          unfold actualizar_en_atencion, vista. simpl.
          rewrite (left_id_L ∅ (∪)), Hfila, Husr. reflexivity. }
        right; left. exists w, uw. simpl. repeat split; [done | |].
        -- eexists. split; [by apply list_lookup_insert_eq |].
           right; left. by exists t.2.
        -- intros j h' Hj Hlk. rewrite list_lookup_insert_ne in Hlk by done. eauto.
      * (* INSERT *)
        assert (paso db_bloqueada t.2 incID uw
                  (Actualizada (tx_escrita uw t1) (fila_atendida fila0 uw t1))
                = (db_bloqueada,
                   ConHistorial (tx_historiada uw t1 t.2) (fila_atendida fila0 uw t1)))
          as ->.
        { unfold paso, insertar_historial, vista. simpl.
          rewrite lookup_union_l', lookup_insert_eq by (rewrite lookup_insert_eq; eauto).
          rewrite Husr. reflexivity. }
        right; left. exists w, uw. simpl. repeat split; [done | |].
        -- eexists. split; [by apply list_lookup_insert_eq |].
           right; right. by exists t1, t.2.
        -- intros j h' Hj Hlk. rewrite list_lookup_insert_ne in Hlk by done. eauto.
      * (* COMMIT *)
        assert (paso db_bloqueada t.2 incID uw
                  (ConHistorial (tx_historiada uw t1 t1') (fila_atendida fila0 uw t1))
                = (db_atendida uw t1 t1'
                     (({[incID]} ∪ bloqueos db0) ∖ ({[incID]} ∪ ∅)),
                   Fin (inr (fila_atendida fila0 uw t1))))
          as ->.
        { unfold paso, Commit, db_atendida. simpl. do 2 f_equal.
          by rewrite insert_empty, <- insert_union_singleton_l. }
        right; right. exists w, uw, t1, t1', (({[incID]} ∪ bloqueos db0) ∖ ({[incID]} ∪ ∅)).
        simpl. repeat split; [done | by apply list_lookup_insert_eq |].
        intros j h' Hj Hlk. rewrite list_lookup_insert_ne in Hlk by done.
        left. eauto.
    + (* somebody else moves *)
      assert (∃ h', paso db_bloqueada t.2 incID u h = (db_bloqueada, h') ∧ perdedor h')
        as (h' & -> & Hh').
      { destruct (Hotros _ _ Hne Hh) as [-> | [-> | (e & -> & He)]].
        - exists (SinFila BeginTxx). split; [| right; by left].
          apply (paso_inicio_ocupada _ _ _ fila0); [done | set_solver].
        - eexists. split.
          + unfold paso. rewrite rollback_inicio. reflexivity.
          + right; right. eexists. split; [done |].
            apply conflicto_sin_fila_es_conflicto.
        - eexists. split; [reflexivity |]. right; right. eauto. }
      right; left. exists w, uw. simpl. repeat split; [done | |].
      * exists hw. split; [| done]. by rewrite list_lookup_insert_ne.
      * by apply otros_tras_turno.
  - (* the winner has committed *)
    destruct (decide (t.1 = w)) as [Heq|Hne].
    + rewrite Heq in *. assert (h = Fin (inr (fila_atendida fila0 uw t0))) as -> by congruence.
      simpl. right; right. exists w, uw, t0, t0', b. simpl.
      repeat split; [done | by apply list_lookup_insert_eq |].
      intros j h' Hj Hlk. rewrite list_lookup_insert_ne in Hlk by done. eauto.
    + assert (∃ b' h', paso (db_atendida uw t0 t0' b) t.2 incID u h
                       = (db_atendida uw t0 t0' b', h') ∧ tardio h')
        as (b' & h' & -> & Hh').
      { destruct (Hotros _ _ Hne Hh)
          as [[-> | [-> | (e & -> & He)]] | (tx & inc & -> & Hinc)].
        - destruct (decide (incID ∈ b)) as [Hin|Hnin].
          + exists b, (SinFila BeginTxx). split; [| left; right; by left].
            eapply paso_inicio_ocupada; [| done]. simpl. apply lookup_insert_eq.
          + exists ({[incID]} ∪ b). eexists. split.
            * eapply paso_inicio_libre; [| done]. simpl. apply lookup_insert_eq.
            * right. do 2 eexists. split; reflexivity.
        - exists b. eexists. split.
          + unfold paso. rewrite rollback_inicio. reflexivity.
          + left. right; right. eexists. split; [done |].
            apply conflicto_sin_fila_es_conflicto.
        - exists b. eexists. split; [reflexivity |]. left. right; right. eauto.
        - exists (b ∖ tx_bloqueos tx). eexists. split.
          + unfold paso. rewrite Hinc. simpl. reflexivity.
          + left. right; right. eexists. split; [done |].
            apply conflicto_estado_es_conflicto. }
      right; right. exists w, uw, t0, t0', b'. simpl.
      repeat split; [done | by rewrite list_lookup_insert_ne |].
      by apply otros_tras_turno.
Qed.

Lemma inv_correr (plan : list (nat * Z)) (s : DB * list Hilo) :
  Inv s → Inv (correr incID actores s plan).
Proof.
  revert s. induction plan as [|t plan IH]; intros s HI; [done |].
  apply IH, inv_turno, HI.
Qed.

Lemma inv_arranque : Inv (arranque db0 actores).
Proof.
  left. split; [done |]. intros j h Hlk.
  by apply lookup_replicate in Hlk as [-> _].
Qed.

(** C1. [N ≥ 1] calls of [AtenderConLock] on the same pending, unlocked
    incident, their statements interleaved in any order in which every
    call gets its (at most four) turns: exactly one call returns the
    incident, now [en_atencion] and assigned to that caller, which is
    also what the store holds together with one new history row by that
    caller; every other call returns an error with the conflict prefix. *)
Theorem exclusive_claim (plan : list (nat * Z)) :
  actores ≠ [] →
  (∀ i, (i < length actores)%nat → (4 ≤ turnos_de i plan)%nat) →
  let fin := correr incID actores (arranque db0 actores) plan in
  ∃ w u t t',
    actores !! w = Some u
    ∧ fin.2 !! w = Some (Fin (inr (fila_atendida fila0 u t)))
    ∧ incidencias fin.1 !! incID = Some (fila_atendida fila0 u t)
    ∧ incidencias_historial fin.1
      = incidencias_historial db0
          ++ [Historial.mk incID EstadoPendiente EstadoEnAtencion u t']
    ∧ ∀ j, (j < length actores)%nat → j ≠ w →
           ∃ e, fin.2 !! j = Some (Fin (inl e)) ∧ es_conflicto e = true.
Proof.
  intros Hno Hturnos fin.
  assert (∀ i, (i < length actores)%nat →
               ∃ h, fin.2 !! i = Some h ∧ restantes h = 0%nat) as Hfin.
  { intros i Hi.
    destruct (lookup_lt_is_Some_2 actores i Hi) as [u Hu].
    destruct (correr_restantes incID actores plan (arranque db0 actores) i u Inicio Hu)
      as (h & Hh & Hle).
    { simpl. by apply lookup_replicate_2. }
    exists h. split; [done |]. specialize (Hturnos i Hi). simpl in Hle. lia. }
  pose proof (inv_correr plan _ inv_arranque) as HI. fold fin in HI.
  destruct HI as [[_ Hall]
                 | [(w & uw & Hw & _ & (hw & Hhw & Hvuelo) & _)
                   | (w & uw & t0 & t0' & b & Hw & Hdb & Hhw & Hotros)]].
  - destruct actores as [|a rest] eqn:Ha; [done |].
    destruct (Hfin 0%nat) as (h & Hh & Hr); [simpl; lia |].
    rewrite (Hall _ _ Hh) in Hr. done.
  - destruct (Hfin w) as (h & Hh & Hr); [by eapply lookup_lt_Some |].
    assert (h = hw) as -> by congruence.
    by destruct Hvuelo as [-> | [[? ->] | (? & ? & ->)]].
  - exists w, uw, t0, t0'. rewrite Hdb. simpl.
    repeat split; [done | done | apply lookup_insert_eq |].
    intros j Hj Hne. destruct (Hfin j Hj) as (h & Hh & Hr).
    destruct (Hotros _ _ Hne Hh)
      as [[-> | [-> | (e & -> & He)]] | (tx & inc & -> & _)]; try done.
    by exists e.
Qed.

(** Run alone, the statements executed one at a time give what
    [AtenderConLock] gives. *)
Lemma AtenderConLock_correr (db : DB) (ahora : Z) (i u : string) :
  correr i [u] (arranque db [u]) (replicate 4 (0%nat, ahora))
  = ((AtenderConLock db ahora i u).1, [Fin (AtenderConLock db ahora i u).2]).
Proof.
  unfold correr, arranque, AtenderConLock. simpl. unfold turno at 4. simpl.
  destruct (seleccionar_skip_locked db BeginTxx i) as [[db1 tx1] [err|inc]]; simpl.
  - destruct (es_ErrNoRows err); reflexivity.
  - unfold turno at 3. simpl.
    destruct (negb _); simpl; [reflexivity |].
    destruct (actualizar_en_atencion db1 tx1 ahora u i) as [tx2 [err|a]]; simpl;
      [reflexivity |].
    unfold turno. simpl.
    by destruct (Commit db1 _) as [db3 [err|]].
Qed.

End ClaimConcurrent.

Lemma exclusive_claim_witness :
  let u1 := V1.Usuario.mk "W1" "Ana" "ana@example.org" "h1" V1.RolAseo None "E1" true 0 in
  let u2 := V1.Usuario.mk "W2" "Luis" "luis@example.org" "h2" V1.RolGuardia None "E1" true 0 in
  let i1 := V1.Incidencia.mk "I1" "E1" "Z1" "" "derrame" "agua en el pasillo"
              V1.EstadoPendiente "ADM" None 5 5 in
  let db := V1.mkDB {["W1" := u1; "W2" := u2]} {["I1" := i1]} [] ∅ ∅ in
  let plan : list (nat * Z) :=
    [(1%nat, 10); (0%nat, 11); (1%nat, 12); (0%nat, 13); (1%nat, 14);
     (1%nat, 15); (0%nat, 16); (0%nat, 17); (1%nat, 18)] in
  let fin := V1.IncidenciaRepository.correr "I1" ["W1"; "W2"]
               (V1.IncidenciaRepository.arranque db ["W1"; "W2"]) plan in
  ∃ w u t t',
    ["W1"; "W2"] !! w = Some u
    ∧ fin.2 !! w = Some (V1.IncidenciaRepository.Fin (inr (fila_atendida i1 u t)))
    ∧ V1.incidencias fin.1 !! "I1" = Some (fila_atendida i1 u t)
    ∧ V1.incidencias_historial fin.1
      = [] ++ [V1.Historial.mk "I1" V1.EstadoPendiente V1.EstadoEnAtencion u t']
    ∧ ∀ j, (j < 2)%nat → j ≠ w →
           ∃ e, fin.2 !! j = Some (V1.IncidenciaRepository.Fin (inl e))
                ∧ V1.IncidenciaRepository.es_conflicto e = true.
Proof.
  intros u1 u2 i1 db plan fin.
  apply (exclusive_claim db "I1" ["W1"; "W2"] i1).
  - reflexivity.
  - reflexivity.
  - set_solver.
  - intros u Hu.
    apply elem_of_cons in Hu as [-> | Hu]; [by eexists |].
    apply elem_of_cons in Hu as [-> | Hu]; [by eexists |].
    by apply elem_of_nil in Hu.
  - discriminate.
  - intros i Hi. destruct i as [|[|i]]; [vm_compute; lia | vm_compute; lia |].
    simpl in Hi. lia.
Defined.

(** ** The handlers of the claim protocol *)

Section ClaimHandlers.
Import Go V1 V1.Incidencia V1.IncidenciaRepository V1.IncidenciaHandler.

Lemma SplitN2_conflicto (msg : string) :
  SplitN2 ("incidencia_conflicto:" +:+ msg) = ["incidencia_conflicto"; msg].
Proof. reflexivity. Qed.

(** What [Atender] answers to a conflict error of the repository: status
    409, the text after the prefix appended to the fixed sentence, code
    409, and one envelope of kind [incidencia_conflicto] for the claimed
    incident on the caller's channel. *)
Lemma Atender_conflicto (db db' : DB) (ahora : Z) (incID usuarioID eventoID msg : string) :
  AtenderConLock db ahora incID usuarioID
  = (db', inl (errorString ("incidencia_conflicto:" +:+ msg))) →
  Atender db ahora incID usuarioID eventoID
  = (db',
     mkRespuesta 409
       (JObj [("error", JStr ("Conflicto: ya fue tomada por " +:+ msg));
              ("codigo", JNum 409)]),
     [mkPublicacion ("eventpulse:usuario:" +:+ usuarioID)
        (JObj [("tipo", JStr "incidencia_conflicto");
               ("payload",
                JObj [("incidencia_id", JStr incID);
                      ("mensaje", JStr ("La incidencia ya fue tomada por " +:+ msg));
                      ("atendida_por", JStr msg)]);
               ("evento_id", JStr eventoID)])]).
Proof.
  intros H. unfold Atender. rewrite H.
  change (Error (errorString ("incidencia_conflicto:" +:+ msg)))
    with ("incidencia_conflicto:" +:+ msg).
  rewrite HasPrefix_app, SplitN2_conflicto. reflexivity.
Qed.

(** The store of the two scenarios: incident I1 was claimed by W1 (Ana)
    and that claim is committed; incident I2 is in attention, assigned to
    W3; S1 is a supervisor. *)
Definition db_escenario : DB :=
  mkDB {[ "W1" := Usuario.mk "W1" "Ana" "ana@example.org" "h1" RolAseo None "E1" true 0;
          "W2" := Usuario.mk "W2" "Luis" "luis@example.org" "h2" RolGuardia None "E1" true 0;
          "W3" := Usuario.mk "W3" "Eva" "eva@example.org" "h3" RolMedico None "E1" true 0;
          "S1" := Usuario.mk "S1" "Sara" "sara@example.org" "h4" RolSupervisor None "E1" true 0 ]}
       {[ "I1" := mk "I1" "E1" "Z1" "" "derrame" "agua en el pasillo"
                    EstadoEnAtencion "ADM" (Some "W1") 5 7;
          "I2" := mk "I2" "E1" "Z1" "" "medico" "persona desmayada"
                    EstadoEnAtencion "ADM" (Some "W3") 6 8 ]}
       [Historial.mk "I1" EstadoPendiente EstadoEnAtencion "W1" 7;
        Historial.mk "I2" EstadoPendiente EstadoEnAtencion "W3" 8]
       ∅ ∅.

(** C7 (the code departs from the claim).  W2 claims I1 after W1's claim
    was committed: the answer is 409 with code 409 and the conflict
    envelope names I1, but the [error] text carries the state message in
    the place of the winner's display name "Ana". *)
Theorem atender_conflict_names_state :
  Atender db_escenario 10 "I1" "W2" "E1"
  = (db_escenario,
     mkRespuesta 409
       (JObj [("error",
               JStr "Conflicto: ya fue tomada por ya está en estado en_atencion");
              ("codigo", JNum 409)]),
     [mkPublicacion "eventpulse:usuario:W2"
        (JObj [("tipo", JStr "incidencia_conflicto");
               ("payload",
                JObj [("incidencia_id", JStr "I1");
                      ("mensaje",
                       JStr "La incidencia ya fue tomada por ya está en estado en_atencion");
                      ("atendida_por", JStr "ya está en estado en_atencion")]);
               ("evento_id", JStr "E1")])])
  ∧ Usuario.Nombre <$> (usuarios db_escenario !! "W1") = Some "Ana"
  ∧ "Conflicto: ya fue tomada por ya está en estado en_atencion"
    ≠ "Conflicto: ya fue tomada por Ana".
Proof.
  split; [| split; [reflexivity | discriminate]].
  apply (Atender_conflicto _ _ _ _ _ _ "ya está en estado en_atencion").
  assert (incidencias db_escenario !! "I1"
          = Some (mk "I1" "E1" "Z1" "" "derrame" "agua en el pasillo"
                    EstadoEnAtencion "ADM" (Some "W1") 5 7)) as Hfila
    by reflexivity.
  destruct (claim_not_pending_conflict_aux db_escenario 10 "I1" "W2" _ Hfila)
    as [H _]; [discriminate | set_solver | exact H].
Qed.

(** C3 (the code departs from the claim).  [Resolver] binds the user id
    where the statement compares the role, so the supervisor S1, who is
    not the assignee of I2, is refused: error, status 403, nothing
    written, nothing published. *)
Theorem resolver_refuses_supervisor :
  Usuario.Rol <$> (usuarios db_escenario !! "S1") = Some RolSupervisor
  ∧ IncidenciaRepository.Resolver db_escenario 20 "I2" "S1"
    = (db_escenario,
       inl (errorString "no tienes permiso para resolver esta incidencia"))
  ∧ IncidenciaHandler.Resolver db_escenario 20 "I2" "S1" "E1"
    = (db_escenario,
       mkRespuesta 403
         (JObj [("error", JStr "no tienes permiso para resolver esta incidencia")]),
       []).
Proof.
  assert (IncidenciaRepository.Resolver db_escenario 20 "I2" "S1"
          = (db_escenario,
             inl (errorString "no tienes permiso para resolver esta incidencia")))
    as H.
  { unfold IncidenciaRepository.Resolver, actualizar_resuelta.
    rewrite vista_inicio. simpl.
    replace (incidencias db_escenario !! "I2")
      with (Some (mk "I2" "E1" "Z1" "" "medico" "persona desmayada"
                    EstadoEnAtencion "ADM" (Some "W3") 6 8)) by reflexivity.
    simpl. by rewrite rollback_inicio. }
  split; [reflexivity | split; [exact H |]].
  unfold IncidenciaHandler.Resolver. rewrite H. reflexivity.
Qed.

End ClaimHandlers.

(** ** Login and profile responses *)

Section AuthResponses.
Import Go.

Definition poner_password1 (u : V1.Usuario.t) (p : string) : V1.Usuario.t :=
  V1.Usuario.mk (V1.Usuario.ID u) (V1.Usuario.Nombre u) (V1.Usuario.Email u) p
    (V1.Usuario.Rol u) (V1.Usuario.ZonaID u) (V1.Usuario.EventoID u)
    (V1.Usuario.Activo u) (V1.Usuario.CreadoEn u).

Definition poner_password2 (u : V2.Usuario.t) (p : string) : V2.Usuario.t :=
  V2.Usuario.mk (V2.Usuario.ID u) (V2.Usuario.NombreUsuario u) (V2.Usuario.Nombre u) p
    (V2.Usuario.Rol u) (V2.Usuario.EventoID u) (V2.Usuario.Activo u)
    (V2.Usuario.CreadoEn u).

(** The user object in a value handed to [c.JSON], if it has one. *)
Definition usuario_de1 (v : V1.AuthHandler.Valor) : option V1.Usuario.t :=
  match v with
  | V1.AuthHandler.VErrorResponse _ => None
  | V1.AuthHandler.VLoginResponse _ u | V1.AuthHandler.VUsuario u => Some u
  end.

Definition usuario_de2 (v : V2.AuthHandler.Valor) : option V2.Usuario.t :=
  match v with
  | V2.AuthHandler.VErrorResponse _ _ => None
  | V2.AuthHandler.VLoginResponse _ u | V2.AuthHandler.VUsuario u => Some u
  end.

Lemma BuscarPorEmail_fila (db : V1.DB) (email : string) (u : V1.Usuario.t) :
  V1.UsuarioRepository.BuscarPorEmail db email = Some u →
  ∃ k, V1.usuarios db !! k = Some u.
Proof.
  unfold V1.UsuarioRepository.BuscarPorEmail.
  destruct (List.find _ _) as [[k u']|] eqn:Hfind; [| done].
  simpl. intros [= <-]. apply List.find_some in Hfind as [Hin _].
  exists k. by apply list_elem_of_In, elem_of_map_to_list in Hin.
Qed.

Lemma BuscarPorNombreUsuario_fila (db : V2.DB) (n : string) (u : V2.Usuario.t) :
  V2.UsuarioRepo.BuscarPorNombreUsuario db n = Some u →
  ∃ k, V2.usuarios db !! k = Some u.
Proof.
  unfold V2.UsuarioRepo.BuscarPorNombreUsuario.
  destruct (List.find _ _) as [[k u']|] eqn:Hfind; [| done].
  simpl. intros [= <-]. apply List.find_some in Hfind as [Hin _].
  exists k. by apply list_elem_of_In, elem_of_map_to_list in Hin.
Qed.

Lemma Login1_ok (validar : string → string → bool)
    (generar : V1.Usuario.t → error + string) (db : V1.DB)
    (req : error + V1.AuthHandler.LoginRequest) :
  Status (V1.AuthHandler.Login validar generar db req) = StatusOK →
  ∃ token k u,
    V1.usuarios db !! k = Some u
    ∧ V1.AuthHandler.Login_JSON validar generar db req
      = (StatusOK, V1.AuthHandler.VLoginResponse token (poner_password1 u ""))
    ∧ V1.AuthHandler.Login validar generar db req
      = mkRespuesta StatusOK (V1.Encode.LoginResponse token (poner_password1 u "")).
Proof.
  unfold V1.AuthHandler.Login, V1.AuthHandler.Login_JSON.
  destruct req as [err|req]; [discriminate |].
  destruct (V1.UsuarioRepository.BuscarPorEmail db _) as [u|] eqn:Hb; [| discriminate].
  destruct (negb _); [discriminate |].
  destruct (generar u) as [err|token]; [discriminate |].
  intros _. destruct (BuscarPorEmail_fila db _ u Hb) as [k Hk].
  by exists token, k, u.
Qed.

Lemma Me1_ok (db : V1.DB) (usuarioID : string) :
  Status (V1.AuthHandler.Me db usuarioID) = StatusOK →
  ∃ u, V1.usuarios db !! usuarioID = Some u
       ∧ V1.AuthHandler.Me_JSON db usuarioID
         = (StatusOK, V1.AuthHandler.VUsuario (poner_password1 u ""))
       ∧ V1.AuthHandler.Me db usuarioID
         = mkRespuesta StatusOK (V1.Encode.Usuario (poner_password1 u "")).
Proof.
  unfold V1.AuthHandler.Me, V1.AuthHandler.Me_JSON, V1.UsuarioRepository.BuscarPorID.
  destruct (V1.usuarios db !! usuarioID) as [u|]; [| discriminate].
  intros _. by exists u.
Qed.

Lemma Login2_ok (validar : string → string → bool)
    (generar : V2.Usuario.t → error + string) (db : V2.DB)
    (req : error + V2.AuthHandler.LoginRequest) :
  Status (V2.AuthHandler.Login validar generar db req) = StatusOK →
  ∃ token k u,
    V2.usuarios db !! k = Some u
    ∧ V2.AuthHandler.Login_JSON validar generar db req
      = (StatusOK, V2.AuthHandler.VLoginResponse token (poner_password2 u ""))
    ∧ V2.AuthHandler.Login validar generar db req
      = mkRespuesta StatusOK (V2.Encode.LoginResponse token (poner_password2 u "")).
Proof.
  unfold V2.AuthHandler.Login, V2.AuthHandler.Login_JSON.
  destruct req as [err|req]; [discriminate |].
  destruct (V2.UsuarioRepo.BuscarPorNombreUsuario db _) as [u|] eqn:Hb; [| discriminate].
  destruct (negb _); [discriminate |].
  destruct (generar u) as [err|token]; [discriminate |].
  intros _. destruct (BuscarPorNombreUsuario_fila db _ u Hb) as [k Hk].
  by exists token, k, u.
Qed.

Lemma Me2_ok (db : V2.DB) (usuarioID : string) :
  Status (V2.AuthHandler.Me db usuarioID) = StatusOK →
  ∃ u, V2.usuarios db !! usuarioID = Some u
       ∧ V2.AuthHandler.Me_JSON db usuarioID
         = (StatusOK, V2.AuthHandler.VUsuario (poner_password2 u ""))
       ∧ V2.AuthHandler.Me db usuarioID
         = mkRespuesta StatusOK (V2.Encode.Usuario (poner_password2 u "")).
Proof.
  unfold V2.AuthHandler.Me, V2.AuthHandler.Me_JSON, V2.UsuarioRepo.BuscarPorID.
  destruct (V2.usuarios db !! usuarioID) as [u|]; [| discriminate].
  intros _. by exists u.
Qed.

(** Whatever they answer, [Login] and [Me] hand no user to [c.JSON]
    whose [Password] is not empty. *)
Lemma sin_hash1 (validar : string → string → bool)
    (generar : V1.Usuario.t → error + string) (db : V1.DB)
    (req : error + V1.AuthHandler.LoginRequest) (usuarioID : string)
    (u : V1.Usuario.t) :
  usuario_de1 (V1.AuthHandler.Login_JSON validar generar db req).2 = Some u
  ∨ usuario_de1 (V1.AuthHandler.Me_JSON db usuarioID).2 = Some u →
  V1.Usuario.Password u = "".
Proof.
  unfold V1.AuthHandler.Login_JSON, V1.AuthHandler.Me_JSON. intros [H | H].
  - destruct req as [err|req]; [done |].
    destruct (V1.UsuarioRepository.BuscarPorEmail db _) as [u0|]; [| done].
    destruct (negb _); [done |].
    destruct (generar u0); [done |]. simpl in H. by injection H as <-.
  - destruct (V1.UsuarioRepository.BuscarPorID db usuarioID) as [u0|]; [| done].
    simpl in H. by injection H as <-.
Qed.

Lemma sin_hash2 (validar : string → string → bool)
    (generar : V2.Usuario.t → error + string) (db : V2.DB)
    (req : error + V2.AuthHandler.LoginRequest) (usuarioID : string)
    (u : V2.Usuario.t) :
  usuario_de2 (V2.AuthHandler.Login_JSON validar generar db req).2 = Some u
  ∨ usuario_de2 (V2.AuthHandler.Me_JSON db usuarioID).2 = Some u →
  V2.Usuario.Password u = "".
Proof.
  unfold V2.AuthHandler.Login_JSON, V2.AuthHandler.Me_JSON. intros [H | H].
  - destruct req as [err|req]; [done |].
    destruct (V2.UsuarioRepo.BuscarPorNombreUsuario db _) as [u0|]; [| done].
    destruct (negb _); [done |].
    destruct (generar u0); [done |]. simpl in H. by injection H as <-.
  - destruct (V2.UsuarioRepo.BuscarPorID db usuarioID) as [u0|]; [| done].
    simpl in H. by injection H as <-.
Qed.

(** C10. In both generations, the value a successful login hands to
    [c.JSON] is the token with the stored user whose [Password] the
    handler has set to the empty string, and the value [/auth/me] hands
    over is the stored user with [Password] set to the empty string: the
    hash is cleared before the value is marshalled.  Whatever they answer,
    neither handler hands over a user with a non-empty [Password].  And
    marshalling gives the password no member: the body is the same
    document whatever the [Password] field holds. *)
Theorem password_hash_not_in_response :
  (∀ validar generar db req,
     Status (V1.AuthHandler.Login validar generar db req) = StatusOK →
     ∃ token k u,
       V1.usuarios db !! k = Some u
       ∧ V1.AuthHandler.Login_JSON validar generar db req
         = (StatusOK, V1.AuthHandler.VLoginResponse token (poner_password1 u ""))
       ∧ V1.AuthHandler.Login validar generar db req
         = mkRespuesta StatusOK
             (V1.Encode.LoginResponse token (poner_password1 u "")))
  ∧ (∀ db usuarioID,
       Status (V1.AuthHandler.Me db usuarioID) = StatusOK →
       ∃ u, V1.usuarios db !! usuarioID = Some u
            ∧ V1.AuthHandler.Me_JSON db usuarioID
              = (StatusOK, V1.AuthHandler.VUsuario (poner_password1 u ""))
            ∧ V1.AuthHandler.Me db usuarioID
              = mkRespuesta StatusOK (V1.Encode.Usuario (poner_password1 u "")))
  ∧ (∀ validar generar db req usuarioID u,
       usuario_de1 (V1.AuthHandler.Login_JSON validar generar db req).2 = Some u
       ∨ usuario_de1 (V1.AuthHandler.Me_JSON db usuarioID).2 = Some u →
       V1.Usuario.Password u = "")
  ∧ (∀ token u hash,
       V1.AuthHandler.Marshal (V1.AuthHandler.VLoginResponse token (poner_password1 u hash))
       = V1.AuthHandler.Marshal (V1.AuthHandler.VLoginResponse token u)
       ∧ V1.AuthHandler.Marshal (V1.AuthHandler.VUsuario (poner_password1 u hash))
         = V1.AuthHandler.Marshal (V1.AuthHandler.VUsuario u))
  ∧ (∀ validar generar db req,
       Status (V2.AuthHandler.Login validar generar db req) = StatusOK →
       ∃ token k u,
         V2.usuarios db !! k = Some u
         ∧ V2.AuthHandler.Login_JSON validar generar db req
           = (StatusOK, V2.AuthHandler.VLoginResponse token (poner_password2 u ""))
         ∧ V2.AuthHandler.Login validar generar db req
           = mkRespuesta StatusOK
               (V2.Encode.LoginResponse token (poner_password2 u "")))
  ∧ (∀ db usuarioID,
       Status (V2.AuthHandler.Me db usuarioID) = StatusOK →
       ∃ u, V2.usuarios db !! usuarioID = Some u
            ∧ V2.AuthHandler.Me_JSON db usuarioID
              = (StatusOK, V2.AuthHandler.VUsuario (poner_password2 u ""))
            ∧ V2.AuthHandler.Me db usuarioID
              = mkRespuesta StatusOK (V2.Encode.Usuario (poner_password2 u "")))
  ∧ (∀ validar generar db req usuarioID u,
       usuario_de2 (V2.AuthHandler.Login_JSON validar generar db req).2 = Some u
       ∨ usuario_de2 (V2.AuthHandler.Me_JSON db usuarioID).2 = Some u →
       V2.Usuario.Password u = "")
  ∧ (∀ token u hash,
       V2.AuthHandler.Marshal (V2.AuthHandler.VLoginResponse token (poner_password2 u hash))
       = V2.AuthHandler.Marshal (V2.AuthHandler.VLoginResponse token u)
       ∧ V2.AuthHandler.Marshal (V2.AuthHandler.VUsuario (poner_password2 u hash))
         = V2.AuthHandler.Marshal (V2.AuthHandler.VUsuario u)).
Proof.
  split; [apply Login1_ok |]. split; [apply Me1_ok |].
  split; [apply sin_hash1 |]. split; [by intros token u hash |].
  split; [apply Login2_ok |]. split; [apply Me2_ok |].
  split; [apply sin_hash2 |]. by intros token u hash.
Qed.

(** A successful login and profile read in each generation. *)
Definition validar_demo (hash password : string) : bool :=
  String.eqb hash ("bcrypt:" +:+ password).
Definition db1_demo : V1.DB :=
  V1.mkDB {[ "W1" := V1.Usuario.mk "W1" "Ana" "ana@example.org" "bcrypt:secreto"
                       V1.RolAseo None "E1" true 0 ]} ∅ [] ∅ ∅.
Definition db2_demo : V2.DB :=
  V2.mkDB {[ "W1" := V2.Usuario.mk "W1" "ana" "Ana" "bcrypt:secreto"
                       "aseo" (Some "E1") true 0 ]} [] ∅ ∅ [] ∅ [].

Lemma password_hash_not_in_response_witness :
  (∃ token k u,
     V1.usuarios db1_demo !! k = Some u
     ∧ V1.AuthHandler.Login_JSON validar_demo (λ _, inr "tok") db1_demo
         (inr (V1.AuthHandler.mkLoginRequest "ana@example.org" "secreto"))
       = (StatusOK, V1.AuthHandler.VLoginResponse token (poner_password1 u ""))
     ∧ V1.AuthHandler.Login validar_demo (λ _, inr "tok") db1_demo
         (inr (V1.AuthHandler.mkLoginRequest "ana@example.org" "secreto"))
       = mkRespuesta StatusOK
           (V1.Encode.LoginResponse token (poner_password1 u "")))
  ∧ (∃ u, V1.usuarios db1_demo !! "W1" = Some u
          ∧ V1.AuthHandler.Me_JSON db1_demo "W1"
            = (StatusOK, V1.AuthHandler.VUsuario (poner_password1 u ""))
          ∧ V1.AuthHandler.Me db1_demo "W1"
            = mkRespuesta StatusOK (V1.Encode.Usuario (poner_password1 u "")))
  ∧ (∃ token k u,
       V2.usuarios db2_demo !! k = Some u
       ∧ V2.AuthHandler.Login_JSON validar_demo (λ _, inr "tok") db2_demo
           (inr (V2.AuthHandler.mkLoginRequest "ana" "secreto"))
         = (StatusOK, V2.AuthHandler.VLoginResponse token (poner_password2 u ""))
       ∧ V2.AuthHandler.Login validar_demo (λ _, inr "tok") db2_demo
           (inr (V2.AuthHandler.mkLoginRequest "ana" "secreto"))
         = mkRespuesta StatusOK
             (V2.Encode.LoginResponse token (poner_password2 u "")))
  ∧ (∃ u, V2.usuarios db2_demo !! "W1" = Some u
          ∧ V2.AuthHandler.Me_JSON db2_demo "W1"
            = (StatusOK, V2.AuthHandler.VUsuario (poner_password2 u ""))
          ∧ V2.AuthHandler.Me db2_demo "W1"
            = mkRespuesta StatusOK (V2.Encode.Usuario (poner_password2 u ""))).
Proof.
  destruct password_hash_not_in_response as (L1 & M1 & _ & _ & L2 & M2 & _ & _).
  split; [apply L1; reflexivity |].
  split; [apply M1; reflexivity |].
  split; [apply L2; reflexivity | apply M2; reflexivity].
Defined.

End AuthResponses.

(** ** The incident state machine *)

Section StateMachine.
Import Go.




(** A pending incident of the first generation. *)
Definition db_pendiente : V1.DB :=
  V1.mkDB {[ "W1" := V1.Usuario.mk "W1" "Ana" "ana@example.org" "h1" V1.RolAseo
                       None "E1" true 0 ]}
          {[ "I1" := V1.Incidencia.mk "I1" "E1" "Z1" "" "derrame"
                       "agua en el pasillo" "pendiente" "ADM" None 5 5 ]}
          [] ∅ ∅.






End StateMachine.

(** ** Tasks: [completada_en] against [estado] *)

Section TaskCompletion.
Import Go.

(** [completada_en] is non-null exactly when [estado] is [completada]. *)
Definition completada_coherente (estado : string) (completada_en : option Z) : bool :=
  Bool.eqb (bool_decide (is_Some completada_en)) (String.eqb estado "completada").

Definition fila_coherente (f : V2.Fila.tarea) : bool :=
  completada_coherente (V2.Fila.t_estado f) (V2.Fila.t_completada_en f).

(** A task completed at instant 9. *)
Definition db_completada : V2.DB :=
  V2.mkDB {[ "W1" := V2.Usuario.mk "W1" "ana" "Ana" "h1" "aseo" (Some "E1") true 0 ]}
          [V2.Evento.mk "E1" "Festival" "" "activo" "ADM" 1 None]
          ∅ ∅ []
          {[ "T1" := V2.Fila.mkTarea "T1" "E1" None "Reponer agua" "" "completada"
                       "media" "ADM" (Some "W1") (Some 9) 3 ]}
          [].

(** The first-generation [Completar] writes a coherent row. *)
Lemma Completar_coherente (db db' : V1.DB) (ahora : Z) (tareaID usuarioID : string)
    (t : V1.Tarea.t) :
  V1.TareaRepository.Completar db ahora tareaID usuarioID = (db', inr t) →
  V1.tareas db' !! tareaID = Some t
  ∧ completada_coherente (V1.Tarea.Estado t) (V1.Tarea.CompletadaEn t) = true.
Proof.
  unfold V1.TareaRepository.Completar.
  destruct (V1.tareas db !! tareaID) as [f|]; [| discriminate].
  destruct (String.eqb _ _); [| discriminate].
  destruct (V1.usuarios db !! usuarioID); [| discriminate].
  intros [= <- <-]. simpl. split; [apply lookup_insert_eq | reflexivity].
Qed.

(** [Crear] inserts a coherent row: pending, not completed. *)
Lemma Crear_coherente (db db' : V2.DB) (ahora : Z) (nuevoID : string)
    (req : V2.CrearTareaRequest.t) (eventoID adminID : string) (t : V2.Tarea.t) :
  V2.TareaRepo.Crear db ahora nuevoID req eventoID adminID = (db', inr t) →
  ∃ f, V2.tareas db' !! nuevoID = Some f ∧ fila_coherente f = true.
Proof.
  unfold V2.TareaRepo.Crear.
  destruct (negb _); [discriminate |].
  destruct (_ || _); [discriminate |].
  destruct (V2.TareaRepo.ObtenerPorID _ _); [| discriminate].
  intros [= <- <-]. simpl. eexists. split; [apply lookup_insert_eq | reflexivity].
Qed.

(** The trigger keeps one half under [Editar]: a row whose state is
    [completada] after an update has a completion instant, if coherent
    rows went in. *)
Lemma trigger_completada (ahora : Z) (OLD NEW : V2.Fila.tarea) :
  fila_coherente OLD = true →
  V2.Fila.t_completada_en NEW = V2.Fila.t_completada_en OLD →
  V2.Fila.t_estado (V2.TareaRepo.update_tareas_actualizada_en ahora OLD NEW)
  = "completada" →
  is_Some (V2.Fila.t_completada_en
             (V2.TareaRepo.update_tareas_actualizada_en ahora OLD NEW)).
Proof.
  unfold fila_coherente, completada_coherente,
    V2.TareaRepo.update_tareas_actualizada_en.
  intros Hold Hsame.
  destruct (String.eqb (V2.Fila.t_estado NEW) "completada") eqn:Hn; simpl.
  - destruct (String.eqb (V2.Fila.t_estado OLD) "completada") eqn:Ho; simpl.
    + intros _. rewrite Hsame.
      apply Bool.eqb_prop in Hold. by apply bool_decide_eq_true in Hold.
    + intros _. by eexists.
  - intros He. apply String.eqb_neq in Hn. done.
Qed.

(** C8 (the code departs from the claim).  [Editar] with state
    [pendiente] on the completed task: the trigger only ever sets
    [completada_en], so the row ends pending with its completion instant
    still in place, and so does the task returned to the handler. *)
Theorem editar_leaves_completion_time :
  fila_coherente
    (V2.Fila.mkTarea "T1" "E1" None "Reponer agua" "" "completada" "media" "ADM"
       (Some "W1") (Some 9) 3) = true
  ∧ V2.tareas db_completada !! "T1"
    = Some (V2.Fila.mkTarea "T1" "E1" None "Reponer agua" "" "completada" "media"
              "ADM" (Some "W1") (Some 9) 3)
  ∧ V2.tareas
      (V2.TareaRepo.Editar db_completada 20 "T1"
         (V2.EditarTareaRequest.mk (Some "pendiente") None)).1 !! "T1"
    = Some (V2.Fila.mkTarea "T1" "E1" None "Reponer agua" "" "pendiente" "media"
              "ADM" (Some "W1") (Some 9) 3)
  ∧ (V2.TareaRepo.Editar db_completada 20 "T1"
       (V2.EditarTareaRequest.mk (Some "pendiente") None)).2
    = inr (Some (V2.Tarea.mk "T1" "E1" None None "Reponer agua" "" "pendiente"
                   "media" "ADM" (Some "W1") (Some "Ana") (Some 9) 3))
  ∧ fila_coherente
      (V2.Fila.mkTarea "T1" "E1" None "Reponer agua" "" "pendiente" "media" "ADM"
         (Some "W1") (Some 9) 3) = false.
Proof. repeat split. Qed.

End TaskCompletion.

(** ** Chat history *)

Section ChatHistory.
Import Go V2 V2.MensajeRepo.

Context {A : Type}.

Lemma intercambiar_extremos (pre mid suf : list A) (x y : A) :
  intercambiar (pre ++ x :: mid ++ y :: suf)
    (Z.of_nat (length pre)) (Z.of_nat (length pre + length mid + 1))
  = Some (pre ++ y :: mid ++ x :: suf).
Proof.
  unfold intercambiar.
  rewrite (proj2 (Z.leb_le 0 _)) by lia. rewrite (proj2 (Z.leb_le 0 _)) by lia.
  rewrite !Nat2Z.id. simpl.
  rewrite list_lookup_middle by done.
  assert (pre ++ x :: mid ++ y :: suf = (pre ++ x :: mid) ++ y :: suf) as Hre
    by (by rewrite <- app_assoc).
  rewrite Hre at 1.
  rewrite list_lookup_middle by (rewrite length_app; simpl; lia).
  f_equal.
  rewrite (insert_app_r_alt pre) by lia.
  rewrite Nat.sub_diag. simpl.
  assert (pre ++ y :: mid ++ y :: suf = (pre ++ y :: mid) ++ y :: suf) as Hre'
    by (by rewrite <- app_assoc).
  rewrite Hre'.
  rewrite (insert_app_r_alt (pre ++ y :: mid)) by (rewrite length_app; simpl; lia).
  replace (length pre + length mid + 1 - length (pre ++ y :: mid))%nat with 0%nat
    by (rewrite length_app; simpl; lia).
  simpl. by rewrite <- app_assoc.
Qed.

(** The loop reverses the part between its two indices. *)
Lemma invertir_desde_medio (n : nat) (pre mid suf : list A) :
  (length mid ≤ n)%nat →
  invertir_desde n (Z.of_nat (length pre))
    (Z.of_nat (length pre + length mid) - 1) (pre ++ mid ++ suf)
  = Some (pre ++ reverse mid ++ suf).
Proof.
  revert pre mid suf. induction n as [|n IH]; intros pre mid suf Hn.
  - destruct mid; [| simpl in Hn; lia]. simpl.
    by rewrite (proj2 (Z.ltb_ge _ _)) by lia.
  - destruct mid as [|x mid].
    { simpl. by rewrite (proj2 (Z.ltb_ge _ _)) by lia. }
    destruct mid as [|y mid _] using rev_ind.
    { simpl. by rewrite (proj2 (Z.ltb_ge _ _)) by lia. }
    simpl in Hn. rewrite length_app in Hn. simpl in Hn.
    cbn [invertir_desde].
    rewrite (proj2 (Z.ltb_lt _ _)) by (simpl; rewrite length_app; simpl; lia).
    replace (pre ++ (x :: mid ++ [y]) ++ suf) with (pre ++ x :: mid ++ y :: suf)
      by (simpl; by rewrite <- app_assoc).
    replace (Z.of_nat (length pre + length (x :: mid ++ [y])) - 1)
      with (Z.of_nat (length pre + length mid + 1))
      by (simpl; rewrite length_app; simpl; lia).
    rewrite intercambiar_extremos.
    replace (pre ++ y :: mid ++ x :: suf) with ((pre ++ [y]) ++ mid ++ x :: suf)
      by (by rewrite <- app_assoc).
    replace (Z.of_nat (length pre) + 1) with (Z.of_nat (length (pre ++ [y])))
      by (rewrite length_app; simpl; lia).
    replace (Z.of_nat (length pre + length mid + 1) - 1)
      with (Z.of_nat (length (pre ++ [y]) + length mid) - 1)
      by (rewrite length_app; simpl; lia).
    rewrite IH by lia.
    rewrite reverse_cons, reverse_snoc. simpl.
    by rewrite <- !app_assoc.
Qed.

(** The in-place loop of [Listar] never panics and yields the reversal. *)
Lemma invertir_reverse (l : list A) : invertir l = Some (reverse l).
Proof.
  unfold invertir.
  pose proof (invertir_desde_medio (length l) [] l [] (le_n _)) as H.
  simpl in H. rewrite !app_nil_r in H. exact H.
Qed.

Variable clave : A → Z.

Lemma insertar_desc_perm (x : A) (l : list A) :
  Sql.insertar_desc clave x l ≡ₚ x :: l.
Proof.
  induction l as [|y l IH]; simpl; [done |].
  destruct (Z.leb _ _); [done |].
  rewrite IH. apply Permutation_swap.
Qed.

Lemma ordenar_desc_perm (l : list A) : Sql.ordenar_desc clave l ≡ₚ l.
Proof.
  induction l as [|x l IH]; simpl; [done |].
  unfold Sql.ordenar_desc in *. simpl. by rewrite insertar_desc_perm, IH.
Qed.

Lemma insertar_desc_sorted (x : A) (l : list A) :
  StronglySorted (λ a b, (clave b ≤ clave a)%Z) l →
  StronglySorted (λ a b, (clave b ≤ clave a)%Z) (Sql.insertar_desc clave x l).
Proof.
  induction 1 as [|y l Hs IH Hall]; simpl.
  - repeat constructor.
  - destruct (Z.leb (clave y) (clave x)) eqn:Hle.
    + apply Z.leb_le in Hle. constructor; [by constructor |].
      constructor; [done |].
      eapply Forall_impl; [exact Hall |]. simpl. intros z Hz. lia.
    + apply Z.leb_gt in Hle. constructor; [done |].
      rewrite insertar_desc_perm. constructor; [lia | done].
Qed.

Lemma ordenar_desc_sorted (l : list A) :
  StronglySorted (λ a b, (clave b ≤ clave a)%Z) (Sql.ordenar_desc clave l).
Proof.
  induction l as [|x l IH]; [constructor |].
  unfold Sql.ordenar_desc in *. simpl. by apply insertar_desc_sorted.
Qed.

Lemma reverse_sorted (l : list A) :
  StronglySorted (λ a b, (clave b ≤ clave a)%Z) l →
  StronglySorted (λ a b, (clave a ≤ clave b)%Z) (reverse l).
Proof.
  induction 1 as [|x l Hs IH Hall]; [constructor |].
  rewrite reverse_cons. apply StronglySorted_app.
  split; [| split; [done | repeat constructor]].
  intros a b Ha Hb. apply list_elem_of_singleton in Hb as ->.
  rewrite elem_of_reverse in Ha. rewrite Forall_forall in Hall.
  exact (Hall a Ha).
Qed.

End ChatHistory.

Section ChatHistoryClaim.
Import Go V2 V2.MensajeRepo.

(** Ascending by [enviado_en]. *)
Definition orden_cronologico (l : list Mensaje.t) : Prop :=
  StronglySorted (λ a b, (Mensaje.EnviadoEn a ≤ Mensaje.EnviadoEn b)%Z) l.

(** Three messages of event E1 and one of another event. *)
Definition db_chat : DB :=
  mkDB {[ "W1" := Usuario.mk "W1" "ana" "Ana" "h1" "aseo" (Some "E1") true 0;
          "W2" := Usuario.mk "W2" "luis" "Luis" "h2" "guardia" (Some "E1") true 0 ]}
       [Evento.mk "E1" "Festival" "" "activo" "ADM" 1 None]
       ∅ ∅ [] ∅
       [Fila.mkMensaje "M1" "E1" "W1" "hola" 10;
        Fila.mkMensaje "M2" "E2" "W2" "otro evento" 11;
        Fila.mkMensaje "M3" "E1" "W2" "voy" 30;
        Fila.mkMensaje "M4" "E1" "W1" "listo" 20].

(** What [Listar] with limit 50 returns for an event. *)
Lemma Listar_50 (db : DB) (eventoID : string) :
  es_evento_id db eventoID = true →
  ∃ q resto,
    consultar db eventoID 50 = inr q
    ∧ Listar db eventoID 50 = Some (reverse q, None)
    ∧ (length (reverse q) ≤ 50)%nat
    ∧ length (reverse q) = Nat.min 50 (length (del_evento db eventoID))
    ∧ q ++ resto ≡ₚ del_evento db eventoID
    ∧ (∀ m m', m ∈ reverse q → m' ∈ resto →
               (Mensaje.EnviadoEn m' ≤ Mensaje.EnviadoEn m)%Z)
    ∧ orden_cronologico (reverse q).
Proof.
  intros Hid.
  set (s := Sql.ordenar_desc Mensaje.EnviadoEn (del_evento db eventoID)).
  pose proof (ordenar_desc_sorted Mensaje.EnviadoEn (del_evento db eventoID)) as Hs.
  pose proof (ordenar_desc_perm Mensaje.EnviadoEn (del_evento db eventoID)) as Hp.
  fold s in Hs, Hp. rewrite <- (take_drop 50 s) in Hs.
  exists (take 50 s), (drop 50 s).
  assert (consultar db eventoID 50 = inr (take 50 s)) as Hq
    by (unfold consultar; by rewrite Hid).
  split; [exact Hq |]. split; [| split; [| split; [| split; [| split]]]].
  - unfold Listar. rewrite Hq, invertir_reverse. reflexivity.
  - rewrite length_reverse, length_take. lia.
  - rewrite length_reverse, length_take. by rewrite <- Hp.
  - by rewrite take_drop.
  - intros m m' Hm Hm'. rewrite elem_of_reverse in Hm.
    exact (StronglySorted_app_1_elem_of _ _ _ _ _ Hs Hm Hm').
  - apply reverse_sorted. by apply StronglySorted_app_1_l in Hs.
Qed.

(** C9. Let [E] be the event of the request (the one in the request
    context, or else the active one), and let it be an event (its id is
    a stored event's, or at least a UUID).  The repository's [Listar]
    with limit 50 returns for [E], without error, the reversal of the
    limit-50 descending query result [q]: at most 50 messages (all there
    are, if fewer), in ascending order of [enviado_en], and every message
    of the event that was left out was sent no later than every message
    returned; and the history handler answers 200 with that list. *)
Theorem historial_last_50 (db : DB) (eventoID : string) :
  let E := ChatHandler.evento_de_la_peticion db eventoID in
  es_evento_id db E = true →
  ∃ q resto,
    consultar db E 50 = inr q
    ∧ Listar db E 50 = Some (reverse q, None)
    ∧ (length (reverse q) ≤ 50)%nat
    ∧ length (reverse q) = Nat.min 50 (length (del_evento db E))
    ∧ q ++ resto ≡ₚ del_evento db E
    ∧ (∀ m m', m ∈ reverse q → m' ∈ resto →
               (Mensaje.EnviadoEn m' ≤ Mensaje.EnviadoEn m)%Z)
    ∧ orden_cronologico (reverse q)
    ∧ ChatHandler.Historial db eventoID
      = Some (mkRespuesta StatusOK (Encode.Mensajes (reverse q))).
Proof.
  intros E Hid.
  destruct (Listar_50 db E Hid) as (q & resto & Hq & Hl & H50 & Hmin & Hperm & Hult & Hord).
  exists q, resto. repeat (split; [done |]).
  unfold ChatHandler.Historial. fold E. rewrite Hl. reflexivity.
Qed.

(** The history of E1 in the sample store, oldest first. *)
Lemma historial_last_50_witness :
  ChatHandler.Historial db_chat "E1"
  = Some (mkRespuesta StatusOK
            (Encode.Mensajes
               [Mensaje.mk "M1" "E1" "W1" "Ana" "aseo" "hola" 10;
                Mensaje.mk "M4" "E1" "W1" "Ana" "aseo" "listo" 20;
                Mensaje.mk "M3" "E1" "W2" "Luis" "guardia" "voy" 30])).
Proof.
  destruct (historial_last_50 db_chat "E1" eq_refl)
    as (q & resto & Hq & _ & _ & _ & _ & _ & _ & Hh).
  rewrite Hh. injection Hq as <-. reflexivity.
Defined.

(** Without an event to ask for (no event in the request context, none
    active) the query is run with the empty text, fails, and the handler
    answers 500. *)
Lemma Historial_sin_evento (db : DB) (eventoID : string) :
  es_evento_id db (ChatHandler.evento_de_la_peticion db eventoID) = false →
  ChatHandler.Historial db eventoID
  = Some (responder_error StatusInternalServerError "Error obteniendo historial").
Proof.
  intros Hid. unfold ChatHandler.Historial, Listar, consultar.
  by rewrite Hid.
Qed.

End ChatHistoryClaim.

(** ** Fan-out *)

Section FanOut.
Import Go Ws.

(** The registry is sound: a registered client exists, is registered
    under its own event, and its queue is open. *)
Definition hub_ok (h : Hub) : Prop :=
  ∀ e c, c ∈ registrados h e →
         ∃ cl, memoria h !! c = Some cl
               ∧ cerrado (send cl) = false ∧ EventoID cl = e.

(** The outcome of one fan-out for the client [cl] at address [c]. *)
Definition encolado (data : JSON) (cl : Cliente) : Cliente :=
  con_send cl (mkCanal (buf (send cl) ++ [data]) (capacidad (send cl)) false).
Definition expulsado (cl : Cliente) : Cliente :=
  con_send cl (mkCanal (buf (send cl)) (capacidad (send cl)) true).

Definition entregado_o_expulsado (E : string) (data : JSON) (h h' : Hub)
    (c : nat) (cl : Cliente) : Prop :=
  ((length (buf (send cl)) < capacidad (send cl))%nat
   ∧ memoria h' !! c = Some (encolado data cl)
   ∧ c ∈ registrados h' E)
  ∨ ((capacidad (send cl) ≤ length (buf (send cl)))%nat
     ∧ memoria h' !! c = Some (expulsado cl)
     ∧ c ∉ registrados h' E).

Lemma registrados_insert (m : gmap nat Cliente) (cs : gmap string (gset nat))
    (E e : string) (s : gset nat) :
  registrados (mkHub m (<[E := s]> cs)) e
  = if decide (E = e) then s else registrados (mkHub m cs) e.
Proof.
  unfold registrados. simpl. rewrite lookup_insert. by destruct (decide (E = e)).
Qed.

Lemma recorrer_resultado (E : string) (data : JSON) (orden : list nat) (h : Hub) :
  NoDup orden →
  (∀ c, c ∈ orden →
        c ∈ registrados h E
        ∧ ∃ cl, memoria h !! c = Some cl ∧ cerrado (send cl) = false) →
  ∃ h',
    recorrer E data orden h = Some h'
    ∧ (∀ c cl, c ∈ orden → memoria h !! c = Some cl →
               entregado_o_expulsado E data h h' c cl)
    ∧ (∀ c, c ∉ orden → memoria h' !! c = memoria h !! c)
    ∧ (∀ c, c ∉ orden → c ∈ registrados h' E ↔ c ∈ registrados h E)
    ∧ (∀ e, e ≠ E → registrados h' e = registrados h e).
Proof.
  revert h. induction orden as [|c resto IH]; intros h Hnd Hreg.
  - exists h. simpl. repeat split; try done. intros c cl Hc. by apply elem_of_nil in Hc.
  - apply NoDup_cons in Hnd as [Hc Hnd].
    destruct (Hreg c) as (HcE & cl & Hcl & Habierto); [by left |].
    destruct h as [m cs]. simpl in *.
    assert (∃ h1,
               entregar E data c (mkHub m cs) = Some h1
               ∧ entregado_o_expulsado E data (mkHub m cs) h1 c cl
               ∧ (∀ d, d ≠ c → memoria h1 !! d = m !! d)
               ∧ (∀ d, d ≠ c → d ∈ registrados h1 E ↔ d ∈ registrados (mkHub m cs) E)
               ∧ (∀ e, e ≠ E → registrados h1 e = registrados (mkHub m cs) e))
      as (h1 & Hent & Hout & Hmem1 & Hreg1 & Hotros1).
    { unfold entregar, enviar_sin_bloquear, cerrar, entregado_o_expulsado,
        encolado, expulsado. simpl. rewrite Hcl. simpl.
      destruct cl as [[b k z] uid eid]. simpl in *. subst z.
      destruct (Nat.ltb (length b) k) eqn:Hlt.
      - apply Nat.ltb_lt in Hlt. eexists. split; [reflexivity |].
        repeat split.
        + left. simpl. by rewrite lookup_insert_eq.
        + intros d Hd. simpl. by rewrite lookup_insert_ne.
        + done.
        + done.
      - apply Nat.ltb_ge in Hlt. simpl. eexists. split; [reflexivity |].
        repeat split.
        + right. simpl. rewrite lookup_insert_eq, registrados_insert.
          rewrite decide_True by done. repeat split; [done | set_solver].
        + intros d Hd. simpl. by rewrite lookup_insert_ne.
        + rewrite registrados_insert, decide_True by done. set_solver.
        + rewrite registrados_insert, decide_True by done. set_solver.
        + intros e He. rewrite registrados_insert. by rewrite decide_False. }
    destruct (IH h1 Hnd) as (h' & Hrec & Hcada & Hmem & Hregs & Hotros).
    { intros d Hd. assert (d ≠ c) as Hne by (intros ->; done).
      destruct (Hreg d) as (HdE & cld & Hcld & Hab); [by right |].
      split; [by apply Hreg1 |]. exists cld. by rewrite Hmem1. }
    exists h'. simpl. rewrite Hent. split; [exact Hrec |].
    split; [| split; [| split]].
    + intros d cld Hd Hcld. apply elem_of_cons in Hd as [-> | Hd].
      * assert (cld = cl) as -> by congruence.
        destruct Hout as [(Hlt & Hm1 & Hr1) | (Hge & Hm1 & Hr1)].
        -- left. repeat split; [done | by rewrite Hmem | by apply Hregs].
        -- right. repeat split; [done | by rewrite Hmem |].
           by rewrite Hregs.
      * assert (d ≠ c) as Hne by (intros ->; done).
        assert (memoria h1 !! d = Some cld) as Hcld1 by (by rewrite Hmem1).
        destruct (Hcada d cld Hd Hcld1) as [(Hlt & Hm1 & Hr1) | (Hge & Hm1 & Hr1)];
          [left | right]; done.
    + intros d Hd. apply not_elem_of_cons in Hd as [Hne Hd].
      rewrite Hmem by done. by apply Hmem1.
    + intros d Hd. apply not_elem_of_cons in Hd as [Hne Hd].
      rewrite (Hregs d Hd). by apply Hreg1.
    + intros e He. rewrite Hotros by done. by apply Hotros1.
Qed.

Lemma recorrer_hub_ok (E : string) (data : JSON) (orden : list nat) (h h' : Hub) :
  hub_ok h →
  (∀ c, c ∈ orden ↔ c ∈ registrados h E) →
  (∀ c cl, c ∈ orden → memoria h !! c = Some cl →
           entregado_o_expulsado E data h h' c cl) →
  (∀ c, c ∉ orden → memoria h' !! c = memoria h !! c) →
  (∀ c, c ∉ orden → c ∈ registrados h' E ↔ c ∈ registrados h E) →
  (∀ e, e ≠ E → registrados h' e = registrados h e) →
  hub_ok h'.
Proof.
  intros Hok Horden Hcada Hmem Hregs Hotros e c Hc.
  destruct (decide (e = E)) as [-> | Hne].
  - destruct (decide (c ∈ orden)) as [Hin | Hnin].
    + destruct (Hok E c) as (cl & Hcl & Hab & Hev); [by apply Horden |].
      destruct (Hcada c cl Hin Hcl) as [(_ & Hm & _) | (_ & _ & Hout)]; [| done].
      exists (encolado data cl). by repeat split.
    + exfalso. apply Hnin, Horden. by apply Hregs.
  - rewrite Hotros in Hc by done.
    destruct (Hok e c Hc) as (cl & Hcl & Hab & Hev).
    exists cl. repeat split; [| done | done].
    rewrite Hmem; [done |]. intros Hin. apply Horden in Hin.
    destruct (Hok E c Hin) as (cl' & Hcl' & _ & Hev'). congruence.
Qed.

(** C6. A broker message that decodes to an envelope for event [E]
    (non-empty) is handed to every client registered for [E], in whatever
    order the registry is ranged over: a client whose queue has room gets
    the message appended to its queue once and stays registered; a client
    whose queue is full gets nothing, its queue is closed and it is no
    longer registered; the other clients of [E] are served all the same;
    clients of other events are untouched; no send or close panics and
    the registry stays sound.  Both generations' entry points do this. *)
Theorem fan_out_once_or_evicted (h : Hub) (canal : string) (data : JSON)
    (ev : EventoWS) :
  hub_ok h →
  Unmarshal data = Some ev →
  EventoWS_EventoID ev ≠ "" →
  let E := EventoWS_EventoID ev in
  (∀ orden, NoDup orden → (∀ c, c ∈ orden ↔ c ∈ registrados h E) →
     ∃ h',
       recorrer E data orden h = Some h'
       ∧ (∀ c, c ∈ registrados h E →
               ∃ cl, memoria h !! c = Some cl
                     ∧ entregado_o_expulsado E data h h' c cl)
       ∧ (∀ c, c ∉ registrados h E →
               memoria h' !! c = memoria h !! c ∧ c ∉ registrados h' E)
       ∧ (∀ e, e ≠ E → registrados h' e = registrados h e)
       ∧ hub_ok h')
  ∧ distribuirMensaje h canal data = distribuir h E data
  ∧ escucharRedis_mensaje h data = distribuir h E data
  ∧ distribuir h E data = recorrer E data (elements (registrados h E)) h.
Proof.
  intros Hok Hun Hne E. split; [| repeat split].
  - intros orden Hnd Horden.
    destruct (recorrer_resultado E data orden h Hnd)
      as (h' & Hrec & Hcada & Hmem & Hregs & Hotros).
    { intros c Hc. apply Horden in Hc. split; [done |].
      destruct (Hok E c Hc) as (cl & Hcl & Hab & _). eauto. }
    exists h'. split; [done |]. repeat split.
    + intros c Hc. destruct (Hok E c Hc) as (cl & Hcl & _).
      exists cl. split; [done |]. apply Hcada; [by apply Horden | done].
    + apply Hmem. by rewrite Horden.
    + intros Hin. apply Hregs in Hin; [done |]. by rewrite Horden.
    + done.
    + by eapply recorrer_hub_ok.
  - unfold distribuirMensaje. rewrite Hun.
    apply String.eqb_neq in Hne. by rewrite Hne.
  - unfold escucharRedis_mensaje. by rewrite Hun.
Qed.

(** Registration and deregistration keep the registry sound. *)
Lemma registrar_hub_ok (h : Hub) (c : nat) (cl : Cliente) :
  hub_ok h → memoria h !! c = Some cl → cerrado (send cl) = false →
  ∃ h', registrar h c = Some h' ∧ hub_ok h' ∧ c ∈ registrados h' (EventoID cl).
Proof.
  intros Hok Hcl Hab. unfold registrar. rewrite Hcl. simpl.
  eexists. split; [reflexivity |]. destruct h as [m cs]. simpl in *. split.
  - intros e d Hd. rewrite registrados_insert in Hd.
    destruct (decide (EventoID cl = e)) as [<- | Hne]; [| by apply Hok].
    apply elem_of_union in Hd as [Hd | Hd]; [| by apply Hok].
    apply elem_of_singleton in Hd as ->. eauto.
  - rewrite registrados_insert, decide_True by done. set_solver.
Qed.

Lemma desregistrar_hub_ok (h : Hub) (c : nat) (cl : Cliente) :
  hub_ok h → memoria h !! c = Some cl →
  ∃ h', desregistrar h c = Some h' ∧ hub_ok h'
        ∧ c ∉ registrados h' (EventoID cl).
Proof.
  intros Hok Hcl. unfold desregistrar. rewrite Hcl. simpl.
  destruct h as [m cs]. simpl in *.
  destruct (cs !! EventoID cl) as [conns|] eqn:Hconns.
  - assert (registrados (mkHub m cs) (EventoID cl) = conns) as Hreg
      by (unfold registrados; simpl; by rewrite Hconns).
    destruct (bool_decide (c ∈ conns)) eqn:Hin.
    + apply bool_decide_eq_true in Hin.
      destruct (Hok (EventoID cl) c) as (cl' & Hcl' & Hab & _);
        [by rewrite Hreg |].
      simpl in Hcl'. assert (cl' = cl) as -> by congruence.
      unfold cerrar. rewrite Hab. simpl. eexists. split; [reflexivity |]. split.
      * intros e d Hd. rewrite registrados_insert in Hd.
        destruct (decide (EventoID cl = e)) as [<- | Hne].
        -- apply elem_of_difference in Hd as [Hd Hdc].
           rewrite not_elem_of_singleton in Hdc.
           destruct (Hok (EventoID cl) d) as (cld & Hcld & Habd & Hevd);
             [by rewrite Hreg |].
           exists cld. simpl. by rewrite lookup_insert_ne.
        -- destruct (Hok e d Hd) as (cld & Hcld & Habd & Hevd).
           exists cld. simpl. rewrite lookup_insert_ne; [done |].
           intros <-. simpl in Hcld. congruence.
      * rewrite registrados_insert, decide_True by done. set_solver.
    + apply bool_decide_eq_false in Hin.
      eexists. split; [reflexivity |]. split; [done | by rewrite Hreg].
  - eexists. split; [reflexivity |]. split; [done |].
    unfold registrados. simpl. rewrite Hconns. set_solver.
Qed.

End FanOut.

(** Two clients of E1, the first with room in its queue, the second full,
    and a client of another event. *)
Definition hub_demo : Ws.Hub :=
  Ws.mkHub
    {[ 1%nat := Ws.mkCliente (Ws.mkCanal [Go.JNull] 2 false) "W1" "E1";
       2%nat := Ws.mkCliente (Ws.mkCanal [Go.JNull] 1 false) "W2" "E1";
       3%nat := Ws.mkCliente (Ws.mkCanal [] 2 false) "W3" "E2" ]}
    {[ "E1" := {[ 1%nat; 2%nat ]}; "E2" := {[ 3%nat ]} ]}.

Definition data_demo : Go.JSON :=
  Go.JObj [("tipo", Go.JStr "mensaje_nuevo"); ("payload", Go.JNull);
           ("evento_id", Go.JStr "E1")].

Lemma hub_demo_ok : hub_ok hub_demo.
Proof.
  intros e c Hc. unfold Ws.registrados, hub_demo in Hc. cbn [Ws.clientes] in Hc.
  destruct (decide (e = "E1")) as [-> | Hne1].
  - rewrite lookup_insert_eq in Hc. cbn [default from_option id] in Hc. unfold id in Hc.
    apply elem_of_union in Hc as [Hc | Hc]; apply elem_of_singleton in Hc as ->;
      eexists; (split; [reflexivity | by split]).
  - rewrite lookup_insert_ne in Hc by done.
    destruct (decide (e = "E2")) as [-> | Hne2].
    + rewrite lookup_singleton_eq in Hc. cbn [default from_option id] in Hc. unfold id in Hc.
      apply elem_of_singleton in Hc as ->.
      eexists; (split; [reflexivity | by split]).
    + rewrite lookup_singleton_ne in Hc by done. cbn [default from_option id] in Hc. unfold id in Hc.
      by apply not_elem_of_empty in Hc.
Qed.

Lemma fan_out_once_or_evicted_witness :
  Ws.distribuirMensaje hub_demo "eventpulse:E1" data_demo
  = Ws.recorrer "E1" data_demo (elements (Ws.registrados hub_demo "E1")) hub_demo
  ∧ ∃ h', Ws.recorrer "E1" data_demo (elements (Ws.registrados hub_demo "E1")) hub_demo
          = Some h'
          ∧ hub_ok h'.
Proof.
  destruct (fan_out_once_or_evicted hub_demo "eventpulse:E1" data_demo
              (Ws.mkEventoWS "mensaje_nuevo" Go.JNull "E1") hub_demo_ok)
    as (Hcada & Hv1 & _ & Hdist).
  - reflexivity.
  - discriminate.
  - split; [by rewrite Hv1, Hdist |].
    destruct (Hcada (elements (Ws.registrados hub_demo "E1")))
      as (h' & Hrec & _ & _ & _ & Hok').
    + apply NoDup_elements.
    + intros c. apply elem_of_elements.
    + by exists h'.
Defined.

(** * Further properties of the code *)

(** ** The claim protocol: failures, repeats, the whole life of an incident *)

Section ClaimMore.
Import Go V1 V1.Incidencia V1.IncidenciaRepository V1.IncidenciaHandler.

(** The row a resolve writes. *)
Definition fila_resuelta (fila : Incidencia.t) (usuarioID : string) (ahora : Z)
  : Incidencia.t :=
  mk (ID fila) (EventoID fila) (ZonaID fila) "" (Tipo fila) (Descripcion fila)
     EstadoResuelta (ReportadaPor fila) (Some usuarioID) (CreadaEn fila) ahora.

Lemma atender_error_sin_cambios (db db' : DB) (ahora : Z) (incID A : string)
    (e : error) :
  AtenderConLock db ahora incID A = (db', inl e) → db' = db.
Proof.
  unfold AtenderConLock, seleccionar_skip_locked. rewrite vista_inicio. simpl.
  destruct (incidencias db !! incID) as [fila|] eqn:Hfila; simpl.
  - destruct (bool_decide _) eqn:Hb; simpl.
    + intros [= <- _]. apply rollback_inicio.
    + apply bool_decide_eq_false in Hb.
      assert (incID ∉ bloqueos db) as Hlibre by set_solver.
      destruct (negb _); simpl.
      * intros [= <- _]. by apply tomar_y_soltar.
      * unfold actualizar_en_atencion, vista. simpl.
        rewrite (left_id_L ∅ (∪)), Hfila.
        destruct (usuarios db !! A) as [u|] eqn:Hu.
        -- unfold insertar_historial, vista. simpl.
           rewrite lookup_union_l', lookup_insert_eq by (rewrite lookup_insert_eq; eauto).
           rewrite Hu. simpl. discriminate.
        -- intros [= <- _]. by apply tomar_y_soltar.
  - destruct (Pg.es_uuid incID); simpl; intros [= <- _]; apply rollback_inicio.
Qed.

(** X1. Whatever error [AtenderConLock] returns (conflict, missing row,
    unknown user), the store it leaves is the store it found: row, history
    and row locks. *)
Theorem atender_error_leaves_store (db db' : DB) (ahora : Z) (incID A : string)
    (e : error) :
  AtenderConLock db ahora incID A = (db', inl e) → db' = db.
Proof. apply atender_error_sin_cambios. Qed.

Lemma atender_error_leaves_store_witness :
  (AtenderConLock db_escenario 10 "I1" "W2").1 = db_escenario.
Proof.
  apply (atender_error_leaves_store db_escenario _ 10 "I1" "W2"
           (errorString "incidencia_conflicto:ya está en estado en_atencion")).
  assert (incidencias db_escenario !! "I1"
          = Some (mk "I1" "E1" "Z1" "" "derrame" "agua en el pasillo"
                    EstadoEnAtencion "ADM" (Some "W1") 5 7)) as Hfila
    by reflexivity.
  destruct (claim_not_pending_conflict_aux db_escenario 10 "I1" "W2" _ Hfila)
    as [H _]; [discriminate | set_solver |].
  rewrite H. reflexivity.
Defined.

(** X2. A claim cannot be repeated: once a claim on a pending incident has
    succeeded, a second claim by anybody (the winner included) returns the
    conflict naming [en_atencion] and changes nothing. *)
Theorem atender_twice_conflicts (db : DB) (t1 t2 : Z) (incID A B : string)
    (fila : Incidencia.t) :
  incidencias db !! incID = Some fila →
  Estado fila = EstadoPendiente →
  incID ∉ bloqueos db →
  is_Some (usuarios db !! A) →
  let db1 := (AtenderConLock db t1 incID A).1 in
  AtenderConLock db1 t2 incID B
  = (db1, inl (errorString "incidencia_conflicto:ya está en estado en_atencion")).
Proof.
  intros Hfila Hpend Hlibre Hu db1. unfold db1.
  rewrite (atender_pendiente _ t1 _ A _ Hfila Hpend Hlibre Hu). simpl.
  eapply (proj1 (claim_not_pending_conflict_aux _ t2 incID B
                   (fila_atendida fila A t1) _ _ _)).
  Unshelve.
  - simpl. apply lookup_insert_eq.
  - discriminate.
  - done.
Qed.

Lemma atender_twice_conflicts_witness :
  AtenderConLock (AtenderConLock db_pendiente 10 "I1" "W1").1 11 "I1" "W1"
  = ((AtenderConLock db_pendiente 10 "I1" "W1").1,
     inl (errorString "incidencia_conflicto:ya está en estado en_atencion")).
Proof.
  apply (atender_twice_conflicts db_pendiente 10 11 "I1" "W1" "W1"
           (mk "I1" "E1" "Z1" "" "derrame" "agua en el pasillo" "pendiente"
              "ADM" None 5 5)).
  - reflexivity.
  - reflexivity.
  - set_solver.
  - by eexists.
Defined.



(** X4. When another transaction holds the row and the incident has a
    committed assignee, the claim fails at once with the conflict naming
    that assignee's display name, the store is untouched, and the handler
    answers 409 with "Conflicto: ya fue tomada por <nombre>". *)
Theorem atender_locked_names_assignee (db : DB) (ahora : Z)
    (incID A eventoID w : string) (fila : Incidencia.t) (uw : Usuario.t) :
  incidencias db !! incID = Some fila →
  incID ∈ bloqueos db →
  AtendidaPor fila = Some w →
  usuarios db !! w = Some uw →
  AtenderConLock db ahora incID A
  = (db, inl (errorString ("incidencia_conflicto:" +:+ Usuario.Nombre uw)))
  ∧ (Atender db ahora incID A eventoID).1.2
    = mkRespuesta 409
        (JObj [("error",
                JStr ("Conflicto: ya fue tomada por " +:+ Usuario.Nombre uw));
               ("codigo", JNum 409)]).
Proof.
  intros Hfila Hlock Hw Huw.
  assert (AtenderConLock db ahora incID A
          = (db, inl (errorString ("incidencia_conflicto:" +:+ Usuario.Nombre uw))))
    as H.
  { unfold AtenderConLock, seleccionar_skip_locked. rewrite vista_inicio, Hfila. simpl.
    rewrite bool_decide_eq_true_2 by set_solver. simpl.
    unfold conflicto_sin_fila, consultar_actual. rewrite Hfila, Hw. simpl.
    rewrite Huw. simpl. by rewrite rollback_inicio. }
  split; [exact H |].
  by rewrite (Atender_conflicto db db ahora incID A eventoID _ H).
Qed.

Lemma atender_locked_names_assignee_witness :
  AtenderConLock (con_bloqueos db_escenario {["I1"]}) 10 "I1" "W2"
  = (con_bloqueos db_escenario {["I1"]},
     inl (errorString "incidencia_conflicto:Ana")).
Proof.
  apply (atender_locked_names_assignee (con_bloqueos db_escenario {["I1"]})
           10 "I1" "W2" "E1" "W1"
           (mk "I1" "E1" "Z1" "" "derrame" "agua en el pasillo"
              EstadoEnAtencion "ADM" (Some "W1") 5 7)
           (Usuario.mk "W1" "Ana" "ana@example.org" "h1" RolAseo None "E1" true 0)).
  - reflexivity.
  - set_solver.
  - reflexivity.
  - reflexivity.
Defined.

(** What a resolve by the current assignee does. *)
Lemma resolver_asignado (db : DB) (ahora : Z) (incID u : string)
    (fila : Incidencia.t) :
  incidencias db !! incID = Some fila →
  AtendidaPor fila = Some u →
  is_Some (usuarios db !! u) →
  IncidenciaRepository.Resolver db ahora incID u
  = (mkDB (usuarios db)
          (<[incID := fila_resuelta fila u ahora]> (incidencias db))
          (incidencias_historial db
             ++ [Historial.mk incID EstadoEnAtencion EstadoResuelta u ahora])
          (tareas db) (bloqueos db),
     inr (fila_resuelta fila u ahora)).
Proof.
  intros Hfila Hasig [usr Hu].
  unfold IncidenciaRepository.Resolver, actualizar_resuelta.
  rewrite vista_inicio. simpl. rewrite Hfila, Hasig.
  rewrite bool_decide_eq_true_2 by done. simpl. rewrite Hu.
  unfold insertar_historial, vista. simpl.
  rewrite lookup_union_l', lookup_insert_eq by (rewrite lookup_insert_eq; eauto).
  rewrite Hu. unfold Commit. simpl. f_equal. f_equal.
  - by rewrite insert_empty, <- insert_union_singleton_l.
  - set_solver.
Qed.

(** X5. The current assignee can resolve the incident whatever state it is
    in: the row becomes [resuelta] (assignee unchanged), one history row
    en_atencion→resuelta by the assignee is appended, nothing else changes,
    and the resolved incident is returned. *)
Theorem resolver_by_assignee (db : DB) (ahora : Z) (incID u : string)
    (fila : Incidencia.t) :
  incidencias db !! incID = Some fila →
  AtendidaPor fila = Some u →
  is_Some (usuarios db !! u) →
  IncidenciaRepository.Resolver db ahora incID u
  = (mkDB (usuarios db)
          (<[incID := fila_resuelta fila u ahora]> (incidencias db))
          (incidencias_historial db
             ++ [Historial.mk incID EstadoEnAtencion EstadoResuelta u ahora])
          (tareas db) (bloqueos db),
     inr (fila_resuelta fila u ahora)).
Proof. apply resolver_asignado. Qed.

Lemma resolver_by_assignee_witness :
  (IncidenciaRepository.Resolver db_escenario 20 "I2" "W3").2
  = inr (mk "I2" "E1" "Z1" "" "medico" "persona desmayada" EstadoResuelta "ADM"
           (Some "W3") 6 20).
Proof.
  rewrite (resolver_by_assignee db_escenario 20 "I2" "W3"
             (mk "I2" "E1" "Z1" "" "medico" "persona desmayada"
                EstadoEnAtencion "ADM" (Some "W3") 6 8)).
  - reflexivity.
  - reflexivity.
  - reflexivity.
  - by eexists.
Defined.

(** X6. A resolve that returns an error (not the assignee, unknown
    incident, unknown user) has written nothing: the store is the one it
    found. *)
Theorem resolver_error_leaves_store (db db' : DB) (ahora : Z) (incID u : string)
    (e : error) :
  IncidenciaRepository.Resolver db ahora incID u = (db', inl e) → db' = db.
Proof.
  unfold IncidenciaRepository.Resolver, actualizar_resuelta.
  rewrite vista_inicio. simpl.
  destruct (incidencias db !! incID) as [fila|]; simpl.
  - destruct (_ || _); simpl.
    + destruct (usuarios db !! u); simpl; [discriminate |].
      intros [= <- _]. apply rollback_inicio.
    + intros [= <- _]. apply rollback_inicio.
  - destruct (Pg.es_uuid incID); simpl; intros [= <- _]; apply rollback_inicio.
Qed.

Lemma resolver_error_leaves_store_witness :
  (IncidenciaRepository.Resolver db_escenario 20 "I2" "S1").1 = db_escenario.
Proof.
  apply (resolver_error_leaves_store db_escenario _ 20 "I2" "S1"
           (errorString "no tienes permiso para resolver esta incidencia")).
  reflexivity.
Defined.

(** X7. The life of an incident through the first-generation endpoints:
    claimed by [A] and then resolved by [A], a pending incident ends
    [resuelta] with assignee [A], its history has grown by exactly
    pendiente→en_atencion and en_atencion→resuelta (both by [A]), and any
    later claim is refused with the conflict naming [resuelta]. *)
Theorem claim_then_resolve (db : DB) (t1 t2 t3 : Z) (incID A B : string)
    (fila : Incidencia.t) :
  incidencias db !! incID = Some fila →
  Estado fila = EstadoPendiente →
  incID ∉ bloqueos db →
  is_Some (usuarios db !! A) →
  let db1 := (AtenderConLock db t1 incID A).1 in
  let r2 := IncidenciaRepository.Resolver db1 t2 incID A in
  r2.2 = inr (fila_resuelta fila A t2)
  ∧ incidencias r2.1 !! incID = Some (fila_resuelta fila A t2)
  ∧ incidencias_historial r2.1
    = incidencias_historial db
        ++ [Historial.mk incID EstadoPendiente EstadoEnAtencion A t1;
            Historial.mk incID EstadoEnAtencion EstadoResuelta A t2]
  ∧ AtenderConLock r2.1 t3 incID B
    = (r2.1, inl (errorString "incidencia_conflicto:ya está en estado resuelta")).
Proof.
  intros Hfila Hpend Hlibre Hu db1 r2. unfold r2, db1.
  rewrite (atender_pendiente _ t1 _ A _ Hfila Hpend Hlibre Hu). simpl.
  rewrite (resolver_asignado _ t2 incID A (fila_atendida fila A t1));
    [| simpl; apply lookup_insert_eq | done | done].
  simpl. split; [done |]. split; [apply lookup_insert_eq |].
  split; [by rewrite <- app_assoc |].
  eapply (proj1 (claim_not_pending_conflict_aux _ t3 incID B
                   (fila_resuelta (fila_atendida fila A t1) A t2) _ _ _)).
  Unshelve.
  - simpl. apply lookup_insert_eq.
  - discriminate.
  - done.
Qed.

Lemma claim_then_resolve_witness :
  incidencias_historial
    (IncidenciaRepository.Resolver
       (AtenderConLock db_pendiente 10 "I1" "W1").1 20 "I1" "W1").1
  = [Historial.mk "I1" EstadoPendiente EstadoEnAtencion "W1" 10;
     Historial.mk "I1" EstadoEnAtencion EstadoResuelta "W1" 20].
Proof.
  destruct (claim_then_resolve db_pendiente 10 20 30 "I1" "W1" "W1"
              (mk "I1" "E1" "Z1" "" "derrame" "agua en el pasillo" "pendiente"
                 "ADM" None 5 5))
    as (_ & _ & Hh & _).
  - reflexivity.
  - reflexivity.
  - set_solver.
  - by eexists.
  - exact Hh.
Defined.

End ClaimMore.

(** ** The hub: connecting, bounded queues, slow clients *)

Section HubMore.
Import Go Ws.

(** Every queue holds at most its capacity. *)
Definition colas_acotadas (h : Hub) : Prop :=
  ∀ c cl, memoria h !! c = Some cl →
          (length (buf (send cl)) ≤ capacidad (send cl))%nat.

(** Fan-out of a list of messages, one after the other, with nobody
    draining the queues in between. *)
Fixpoint distribuir_todos (h : Hub) (eventoID : string) (datas : list JSON)
  : option Hub :=
  match datas with
  | [] => Some h
  | data :: resto =>
      match distribuir h eventoID data with
      | Some h => distribuir_todos h eventoID resto
      | None => None
      end
  end.

(** One fan-out, seen from the registry. *)
Lemma distribuir_resultado (h : Hub) (E : string) (data : JSON) :
  hub_ok h →
  ∃ h',
    distribuir h E data = Some h'
    ∧ (∀ c, c ∈ registrados h E →
            ∃ cl, memoria h !! c = Some cl
                  ∧ entregado_o_expulsado E data h h' c cl)
    ∧ (∀ c, c ∉ registrados h E →
            memoria h' !! c = memoria h !! c ∧ c ∉ registrados h' E)
    ∧ (∀ e, e ≠ E → registrados h' e = registrados h e)
    ∧ hub_ok h'.
Proof.
  intros Hok. unfold distribuir.
  assert (∀ c, c ∈ elements (registrados h E) ↔ c ∈ registrados h E) as Horden
    by (intros c; apply elem_of_elements).
  destruct (recorrer_resultado E data (elements (registrados h E)) h)
    as (h' & Hrec & Hcada & Hmem & Hregs & Hotros).
  { apply NoDup_elements. }
  { intros c Hc. apply Horden in Hc. split; [done |].
    destruct (Hok E c Hc) as (cl & Hcl & Hab & _). eauto. }
  exists h'. split; [done |]. split; [| split; [| split]].
  - intros c Hc. destruct (Hok E c Hc) as (cl & Hcl & _).
    exists cl. split; [done |]. apply Hcada; [by apply Horden | done].
  - intros c Hc. split; [apply Hmem; by rewrite Horden |].
    intros Hin. apply Hregs in Hin; [done |]. by rewrite Horden.
  - done.
  - by eapply recorrer_hub_ok.
Qed.

Lemma HandleConexion_hub_ok (h : Hub) (c capacidad : nat) (usuarioID eventoID : string) :
  hub_ok h → memoria h !! c = None →
  hub_ok (HandleConexion h c capacidad usuarioID eventoID).
Proof.
  intros Hok Hfresh e d Hd. unfold HandleConexion, registrados in *. simpl in *.
  destruct (Hok e d Hd) as (cl & Hcl & Hab & Hev).
  exists cl. rewrite lookup_insert_ne; [done |]. intros <-. congruence.
Qed.

(** X9. A client that connects is served by the next fan-out of its event:
    after [HandleConexion] (fresh client, empty queue of positive capacity)
    and its registration by [Run], a message for its event is in its queue,
    once, and the client is still registered. *)
Theorem connect_then_fan_out (h : Hub) (c capacidad : nat)
    (usuarioID eventoID canal : string) (data : JSON) (ev : EventoWS) :
  hub_ok h →
  memoria h !! c = None →
  (0 < capacidad)%nat →
  Unmarshal data = Some ev →
  EventoWS_EventoID ev = eventoID →
  eventoID ≠ "" →
  ∃ h1 h2,
    registrar (HandleConexion h c capacidad usuarioID eventoID) c = Some h1
    ∧ distribuirMensaje h1 canal data = Some h2
    ∧ memoria h2 !! c
      = Some (mkCliente (mkCanal [data] capacidad false) usuarioID eventoID)
    ∧ c ∈ registrados h2 eventoID.
Proof.
  intros Hok Hfresh Hcap Hun Hev Hne.
  pose proof (HandleConexion_hub_ok h c capacidad usuarioID eventoID Hok Hfresh) as Hok0.
  destruct (registrar_hub_ok _ c
              (mkCliente (mkCanal [] capacidad false) usuarioID eventoID) Hok0)
    as (h1 & Hreg & Hok1 & Hin).
  { unfold HandleConexion. simpl. apply lookup_insert_eq. }
  { reflexivity. }
  simpl in Hin.
  assert (memoria h1 !! c
          = Some (mkCliente (mkCanal [] capacidad false) usuarioID eventoID)) as Hc1.
  { unfold registrar, HandleConexion in Hreg. simpl in Hreg.
    rewrite lookup_insert_eq in Hreg. simpl in Hreg. injection Hreg as <-.
    simpl. apply lookup_insert_eq. }
  destruct (distribuir_resultado h1 eventoID data Hok1) as (h2 & Hd & Hcada & _).
  exists h1, h2. split; [done |]. split.
  { unfold distribuirMensaje. rewrite Hun, Hev.
    apply String.eqb_neq in Hne. rewrite Hne. exact Hd. }
  destruct (Hcada c Hin) as (cl & Hcl & Hout).
  assert (cl = mkCliente (mkCanal [] capacidad false) usuarioID eventoID) as ->
    by congruence.
  destruct Hout as [(_ & Hm & Hr) | (Hfull & _)]; [done |].
  simpl in Hfull. lia.
Qed.

Lemma connect_then_fan_out_witness :
  ∃ h1 h2,
    registrar (HandleConexion hub_demo 7 256 "W9" "E1") 7 = Some h1
    ∧ distribuirMensaje h1 "eventpulse:E1" data_demo = Some h2
    ∧ memoria h2 !! 7%nat
      = Some (mkCliente (mkCanal [data_demo] 256 false) "W9" "E1")
    ∧ 7%nat ∈ registrados h2 "E1".
Proof.
  apply (connect_then_fan_out hub_demo 7 256 "W9" "E1" "eventpulse:E1" data_demo
           (mkEventoWS "mensaje_nuevo" JNull "E1") hub_demo_ok).
  - reflexivity.
  - lia.
  - reflexivity.
  - reflexivity.
  - discriminate.
Defined.

(** X10. A client evicted by a fan-out can still be deregistered when its
    reader goroutine ends: the hub finds it gone from the registry, closes
    nothing a second time and stays as it is. *)
Theorem evicted_then_deregister (h h' : Hub) (E : string) (data : JSON)
    (c : nat) (cl : Cliente) :
  hub_ok h →
  c ∈ registrados h E →
  memoria h !! c = Some cl →
  (capacidad (send cl) ≤ length (buf (send cl)))%nat →
  distribuir h E data = Some h' →
  memoria h' !! c = Some (expulsado cl)
  ∧ desregistrar h' c = Some h'.
Proof.
  intros Hok Hc Hcl Hfull Hd.
  destruct (distribuir_resultado h E data Hok) as (h2 & Hd2 & Hcada & _).
  assert (h2 = h') as -> by congruence.
  destruct (Hok E c Hc) as (cl0 & Hcl0 & _ & Hev).
  assert (cl0 = cl) as -> by congruence.
  destruct (Hcada c Hc) as (cl1 & Hcl1 & Hout).
  assert (cl1 = cl) as -> by congruence.
  destruct Hout as [(Hlt & _) | (_ & Hm & Hr)]; [lia |].
  split; [done |].
  unfold desregistrar. rewrite Hm. simpl. rewrite Hev.
  unfold registrados in Hr.
  destruct (clientes h' !! E) as [conns|]; [| done].
  simpl in Hr. by rewrite bool_decide_eq_false_2.
Qed.

Lemma evicted_then_deregister_witness :
  ∃ h', distribuir hub_demo "E1" data_demo = Some h'
        ∧ desregistrar h' 2 = Some h'.
Proof.
  destruct (distribuir_resultado hub_demo "E1" data_demo hub_demo_ok)
    as (h' & Hd & _).
  exists h'. split; [exact Hd |].
  refine (proj2 (evicted_then_deregister hub_demo h' "E1" data_demo 2
                   (mkCliente (mkCanal [JNull] 1 false) "W2" "E1")
                   hub_demo_ok _ _ _ Hd)).
  - unfold registrados, hub_demo. simpl. rewrite lookup_insert_eq. simpl. set_solver.
  - reflexivity.
  - simpl. lia.
Defined.

Lemma distribuir_acotadas (h h' : Hub) (E : string) (data : JSON) :
  hub_ok h → colas_acotadas h → distribuir h E data = Some h' →
  colas_acotadas h'.
Proof.
  intros Hok Hac Hd c cl' Hcl'.
  destruct (distribuir_resultado h E data Hok) as (h2 & Hd2 & Hcada & Hresto & _).
  assert (h2 = h') as -> by congruence.
  destruct (decide (c ∈ registrados h E)) as [Hin | Hnin].
  - destruct (Hcada c Hin) as (cl & Hcl & [(Hlt & Hm & _) | (Hge & Hm & _)]).
    + assert (cl' = encolado data cl) as -> by congruence.
      simpl. rewrite length_app. simpl. lia.
    + assert (cl' = expulsado cl) as -> by congruence.
      simpl. by apply (Hac c).
  - destruct (Hresto c Hnin) as [Hm _]. rewrite Hm in Hcl'. by apply (Hac c).
Qed.

(** X11. Fan-out never lets a queue grow past its capacity. *)
Theorem fan_out_keeps_queues_bounded (h h' : Hub) (E : string) (data : JSON) :
  hub_ok h →
  colas_acotadas h →
  distribuir h E data = Some h' →
  colas_acotadas h'.
Proof. apply distribuir_acotadas. Qed.

Lemma fan_out_keeps_queues_bounded_witness :
  ∃ h', distribuir hub_demo "E1" data_demo = Some h' ∧ colas_acotadas h'.
Proof.
  destruct (distribuir_resultado hub_demo "E1" data_demo hub_demo_ok)
    as (h' & Hd & _).
  exists h'. split; [exact Hd |].
  apply (fan_out_keeps_queues_bounded hub_demo h' "E1" data_demo hub_demo_ok);
    [| exact Hd].
  intros c cl Hcl. unfold hub_demo in Hcl. simpl in Hcl.
  destruct (decide (c = 1%nat)) as [-> | H1];
    [rewrite lookup_insert_eq in Hcl; injection Hcl as <-; simpl; lia |].
  rewrite lookup_insert_ne in Hcl by done.
  destruct (decide (c = 2%nat)) as [-> | H2];
    [rewrite lookup_insert_eq in Hcl; injection Hcl as <-; simpl; lia |].
  rewrite lookup_insert_ne in Hcl by done.
  destruct (decide (c = 3%nat)) as [-> | H3];
    [rewrite lookup_singleton_eq in Hcl; injection Hcl as <-; simpl; lia |].
  by rewrite lookup_singleton_ne in Hcl.
Defined.

Lemma distribuir_todos_ajeno (h : Hub) (E : string) (datas : list JSON) (c : nat) :
  hub_ok h → c ∉ registrados h E →
  ∃ h', distribuir_todos h E datas = Some h'
        ∧ hub_ok h'
        ∧ memoria h' !! c = memoria h !! c
        ∧ c ∉ registrados h' E.
Proof.
  revert h. induction datas as [|d ds IH]; intros h Hok Hc; simpl.
  - by exists h.
  - destruct (distribuir_resultado h E d Hok) as (h1 & Hd & _ & Hresto & _ & Hok1).
    rewrite Hd. destruct (Hresto c Hc) as [Hm Hr].
    destruct (IH h1 Hok1 Hr) as (h' & Hds & Hok' & Hm' & Hr').
    exists h'. repeat split; [done | done | congruence | done].
Qed.

(** X12. A client that stops reading is dropped as soon as its queue is
    full: when messages for its event are fanned out one after the other
    and nothing drains its queue, it receives the first ones that fit, in
    order and once each; if there are more, its queue is closed with
    exactly those in it and it is out of the registry (and stays out). *)
Theorem slow_client_is_dropped (datas : list JSON) (h : Hub) (E : string)
    (c : nat) (cl : Cliente) :
  hub_ok h →
  c ∈ registrados h E →
  memoria h !! c = Some cl →
  (length (buf (send cl)) ≤ capacidad (send cl))%nat →
  let libre := (capacidad (send cl) - length (buf (send cl)))%nat in
  ∃ h',
    distribuir_todos h E datas = Some h'
    ∧ hub_ok h'
    ∧ if decide (length datas ≤ libre)%nat
      then memoria h' !! c
           = Some (con_send cl (mkCanal (buf (send cl) ++ datas)
                                  (capacidad (send cl)) false))
           ∧ c ∈ registrados h' E
      else memoria h' !! c
           = Some (con_send cl (mkCanal (buf (send cl) ++ take libre datas)
                                  (capacidad (send cl)) true))
           ∧ c ∉ registrados h' E.
Proof.
  revert h cl. induction datas as [|d ds IH]; intros h cl Hok Hc Hcl Hcap libre.
  - exists h. split; [done |]. split; [done |].
    destruct (decide _) as [_ | Hn]; [| exfalso; simpl in Hn; lia].
    split; [| done].
    destruct (Hok E c Hc) as (cl0 & Hcl0 & Hab & _).
    assert (cl0 = cl) as -> by congruence.
    rewrite Hcl. destruct cl as [[b k z] uid eid]. simpl in *. subst z.
    by rewrite app_nil_r.
  - simpl.
    destruct (distribuir_resultado h E d Hok) as (h1 & Hd & Hcada & _ & _ & Hok1).
    rewrite Hd.
    destruct (Hcada c Hc) as (cl0 & Hcl0 & Hout).
    assert (cl0 = cl) as -> by congruence.
    destruct Hout as [(Hlt & Hm & Hr) | (Hge & Hm & Hr)].
    + destruct (IH h1 (encolado d cl) Hok1 Hr Hm) as (h' & Hds & Hok' & Hfin).
      { simpl. rewrite length_app. simpl. lia. }
      exists h'. split; [done |]. split; [done |].
      simpl in Hfin. rewrite length_app in Hfin. simpl in Hfin.
      unfold libre.
      repeat case_decide; try (exfalso; simpl in *; lia).
      all: destruct Hfin as [Hm' Hr']; split; [| done].
      all: rewrite Hm'; unfold con_send; simpl; rewrite <- app_assoc; simpl.
      all: try done.
      replace (capacidad (send cl) - length (buf (send cl)))%nat
        with (S (capacidad (send cl) - (length (buf (send cl)) + 1)))%nat by lia.
      reflexivity.
    + destruct (distribuir_todos_ajeno h1 E ds c Hok1 Hr)
        as (h' & Hds & Hok' & Hm' & Hr').
      exists h'. split; [done |]. split; [done |].
      case_decide as Hn; [exfalso; unfold libre in Hn; simpl in Hn; lia |].
      split; [| done]. rewrite Hm', Hm. unfold expulsado, libre.
      replace (capacidad (send cl) - length (buf (send cl)))%nat with 0%nat by lia.
      by rewrite take_0, app_nil_r.
Qed.

Lemma slow_client_is_dropped_witness :
  ∃ h',
    distribuir_todos hub_demo "E1" [data_demo; JNull; data_demo] = Some h'
    ∧ memoria h' !! 1%nat
      = Some (mkCliente (mkCanal [JNull; data_demo] 2 true) "W1" "E1")
    ∧ 1%nat ∉ registrados h' "E1".
Proof.
  destruct (slow_client_is_dropped [data_demo; JNull; data_demo] hub_demo "E1" 1
              (mkCliente (mkCanal [JNull] 2 false) "W1" "E1") hub_demo_ok)
    as (h' & Hd & _ & Hfin).
  - unfold registrados, hub_demo. simpl. rewrite lookup_insert_eq. simpl. set_solver.
  - reflexivity.
  - simpl. lia.
  - exists h'. split; [exact Hd |]. exact Hfin.
Defined.

End HubMore.

(** ** From a handler's publication to the sockets *)

Section PublishReceive.
Import Go Ws.

(** Decoding an envelope gives back what was encoded. *)
Lemma Unmarshal_EventoWS (tipo : string) (payload : JSON) (eventoID : string) :
  Unmarshal (V1.Encode.EventoWS tipo payload eventoID)
  = Some (mkEventoWS tipo payload eventoID).
Proof. reflexivity. Qed.

(** X13. What a handler publishes is what the sockets of the event get:
    an envelope for a non-empty event id, published either on the event's
    channel ([PublicarEvento]) or on one user's channel
    ([PublicarAUsuario]), decodes back to its three parts, and on receipt
    [distribuirMensaje] hands that very document to every client
    registered for the event (or evicts the client if its queue is full) —
    for a user-channel message too, so a conflict notice reaches the whole
    event, not only the user it is addressed to. *)
Theorem published_envelope_reaches_event (h : Hub)
    (tipo : string) (payload : JSON) (eventoID usuarioID : string) :
  hub_ok h →
  eventoID ≠ "" →
  let evento := V1.Encode.EventoWS tipo payload eventoID in
  let p1 := V1.HubPub.PublicarEvento eventoID evento in
  let p2 := V1.HubPub.PublicarAUsuario eventoID usuarioID evento in
  Unmarshal (Go.Data p1) = Some (mkEventoWS tipo payload eventoID)
  ∧ Go.Data p2 = Go.Data p1
  ∧ distribuirMensaje h (Go.Canal p2) (Go.Data p2)
    = distribuirMensaje h (Go.Canal p1) (Go.Data p1)
  ∧ ∃ h',
      distribuirMensaje h (Go.Canal p1) (Go.Data p1) = Some h'
      ∧ hub_ok h'
      ∧ ∀ c, c ∈ registrados h eventoID →
             ∃ cl, memoria h !! c = Some cl
                   ∧ entregado_o_expulsado eventoID evento h h' c cl.
Proof.
  intros Hok Hne evento p1 p2.
  split; [apply Unmarshal_EventoWS |]. split; [reflexivity |].
  split; [reflexivity |].
  destruct (distribuir_resultado h eventoID evento Hok)
    as (h' & Hd & Hcada & _ & _ & Hok').
  exists h'. split; [| split; [done | done]].
  unfold distribuirMensaje. simpl Go.Data. unfold evento at 1.
  rewrite Unmarshal_EventoWS. simpl.
  apply String.eqb_neq in Hne. rewrite Hne. exact Hd.
Qed.

Lemma published_envelope_reaches_event_witness :
  ∃ h',
    distribuirMensaje hub_demo "eventpulse:usuario:W2"
      (V1.Encode.EventoWS "incidencia_conflicto" JNull "E1") = Some h'
    ∧ hub_ok h'.
Proof.
  destruct (published_envelope_reaches_event hub_demo "incidencia_conflicto" JNull
              "E1" "W2" hub_demo_ok)
    as (_ & _ & Heq & h' & Hd & Hok' & _).
  - discriminate.
  - exists h'. split; [| exact Hok']. exact Hd.
Defined.

End PublishReceive.

(** ** The hub as a whole: every reachable state *)

Section HubRun.
Import Go Ws.

(** [NewHub]: no client, an empty registry. *)
Definition NewHub : Hub := mkHub ∅ ∅.

(** [msg, ok := <-c.send] in the writer goroutine: the oldest queued frame
    leaves the queue (frames queued before [close] are still received). *)
Definition recibir (c : Canal) : Canal :=
  mkCanal (tail (buf c)) (capacidad c) (cerrado c).

(** The hub, and the clients that [HandleConexion] has put on the
    [registrar] channel and [Run] has not taken yet. *)
Record Sistema := mkSistema { hub : Hub; en_espera : gset nat }.

(** What the goroutines do to the hub, one step at a time: the registry is
    only touched under [h.mu], and a channel operation is atomic. *)
Inductive Suceso :=
| Conecta (c capacidad : nat) (usuarioID eventoID : string)  (* HandleConexion *)
| Registra (c : nat)                    (* Run: c := <-h.registrar *)
| Desregistra (c : nat)                 (* Run: c := <-h.desregistrar *)
| Escribe (c : nat)                     (* the writer: <-c.send *)
| LlegaV1 (canal : string) (data : JSON)    (* suscribirRedis *)
| LlegaV2 (payload : JSON).                 (* escucharRedis *)

(** When a step can happen: a new client gets a new address, [Run] takes
    from [registrar] a client that was put there, and only clients that
    exist have goroutines. *)
Definition posible (s : Sistema) (ev : Suceso) : Prop :=
  match ev with
  | Conecta c _ _ _ => memoria (hub s) !! c = None
  | Registra c => c ∈ en_espera s
  | Desregistra c | Escribe c => is_Some (memoria (hub s) !! c)
  | LlegaV1 _ _ | LlegaV2 _ => True
  end.

(** The step; [None] is a panic. *)
Definition ejecutar (s : Sistema) (ev : Suceso) : option Sistema :=
  match ev with
  | Conecta c capacidad usuarioID eventoID =>
      Some (mkSistema (HandleConexion (hub s) c capacidad usuarioID eventoID)
                      ({[c]} ∪ en_espera s))
  | Registra c =>
      h ← registrar (hub s) c; Some (mkSistema h (en_espera s ∖ {[c]}))
  | Desregistra c =>
      h ← desregistrar (hub s) c; Some (mkSistema h (en_espera s))
  | Escribe c =>
      cl ← memoria (hub s) !! c;
      Some (mkSistema
              (mkHub (<[c := con_send cl (recibir (send cl))]> (memoria (hub s)))
                     (clientes (hub s)))
              (en_espera s))
  | LlegaV1 canal data =>
      h ← distribuirMensaje (hub s) canal data; Some (mkSistema h (en_espera s))
  | LlegaV2 payload =>
      h ← escucharRedis_mensaje (hub s) payload; Some (mkSistema h (en_espera s))
  end.

(** The states the hub can get into, starting from [NewHub]. *)
Inductive alcanzable : Sistema → Prop :=
| alcanzable_nuevo : alcanzable (mkSistema NewHub ∅)
| alcanzable_paso (s s' : Sistema) (ev : Suceso) :
    alcanzable s → posible s ev → ejecutar s ev = Some s' → alcanzable s'.

(** A client waiting to be registered has an open queue and is in no
    registry entry. *)
Definition espera_ok (h : Hub) (c : nat) : Prop :=
  (∃ cl, memoria h !! c = Some cl ∧ cerrado (send cl) = false)
  ∧ ∀ e, c ∉ registrados h e.

Definition sistema_ok (s : Sistema) : Prop :=
  hub_ok (hub s) ∧ colas_acotadas (hub s)
  ∧ ∀ c, c ∈ en_espera s → espera_ok (hub s) c.

Lemma distribuir_sistema (h : Hub) (E : string) (data : JSON) :
  hub_ok h → colas_acotadas h →
  ∃ h', distribuir h E data = Some h'
        ∧ hub_ok h' ∧ colas_acotadas h'
        ∧ ∀ c, espera_ok h c → espera_ok h' c.
Proof.
  intros Hok Hac.
  destruct (distribuir_resultado h E data Hok) as (h' & Hd & _ & Hresto & Hotros & Hok').
  exists h'. split; [done |]. split; [done |].
  split; [exact (distribuir_acotadas h h' E data Hok Hac Hd) |].
  intros c [Hcl Hno]. destruct (Hresto c (Hno E)) as [Hm HnoE]. split.
  - by rewrite Hm.
  - intros e. destruct (decide (e = E)) as [-> | Hne]; [done |].
    rewrite Hotros by done. apply Hno.
Qed.

Lemma desregistrar_sistema (h : Hub) (c : nat) (cl : Cliente) :
  hub_ok h → colas_acotadas h → memoria h !! c = Some cl →
  ∃ h', desregistrar h c = Some h'
        ∧ hub_ok h' ∧ colas_acotadas h'
        ∧ ∀ d, espera_ok h d → espera_ok h' d.
Proof.
  intros Hok Hac Hcl.
  destruct (desregistrar_hub_ok h c cl Hok Hcl) as (h' & Hd & Hok' & _).
  exists h'. split; [done |]. split; [done |].
  unfold desregistrar in Hd. rewrite Hcl in Hd. simpl in Hd.
  destruct (clientes h !! EventoID cl) as [conns|] eqn:Hconns;
    [| injection Hd as <-; done].
  destruct (bool_decide (c ∈ conns)) eqn:Hin; [| injection Hd as <-; done].
  apply bool_decide_eq_true in Hin.
  assert (registrados h (EventoID cl) = conns) as Hreg
    by (unfold registrados; by rewrite Hconns).
  destruct (cerrar (send cl)) as [canal|] eqn:Hcerrar; [| done].
  simpl in Hd. injection Hd as <-.
  unfold cerrar in Hcerrar. destruct (cerrado (send cl)); [done |].
  injection Hcerrar as <-. split.
  - intros d cld. simpl. destruct (decide (d = c)) as [-> | Hne].
    + rewrite lookup_insert_eq. intros [= <-]. simpl. by apply (Hac c).
    + rewrite lookup_insert_ne by done. apply Hac.
  - intros d [(cld & Hcld & Hab) Hno].
    assert (d ≠ c) as Hne.
    { intros ->. apply (Hno (EventoID cl)). by rewrite Hreg. }
    split.
    + exists cld. simpl. by rewrite lookup_insert_ne.
    + intros e. destruct h as [m cs]. simpl in *. rewrite registrados_insert.
      destruct (decide (EventoID cl = e)) as [<- | Hne'].
      * specialize (Hno (EventoID cl)). rewrite Hreg in Hno. set_solver.
      * apply Hno.
Qed.

Lemma paso_sistema_ok (s : Sistema) (ev : Suceso) :
  sistema_ok s → posible s ev →
  ∃ s', ejecutar s ev = Some s' ∧ sistema_ok s'.
Proof.
  intros (Hok & Hac & Hesp) Hpos. destruct s as [h esp]. simpl in *.
  destruct ev as [c k u e | c | c | c | canal data | payload]; simpl in *.
  - (* a new client *)
    eexists. split; [reflexivity |]. simpl. split; [| split].
    + by apply HandleConexion_hub_ok.
    + intros d cld. unfold HandleConexion. simpl.
      destruct (decide (d = c)) as [-> | Hne].
      * rewrite lookup_insert_eq. intros [= <-]. simpl. lia.
      * rewrite lookup_insert_ne by done. apply Hac.
    + intros d Hd. unfold espera_ok, HandleConexion, registrados. simpl.
      assert (∀ e', c ∉ registrados h e') as Hno.
      { intros e' Hin. destruct (Hok e' c Hin) as (cl & Hcl & _). congruence. }
      apply elem_of_union in Hd as [Hd | Hd].
      * apply elem_of_singleton in Hd as ->. split; [| apply Hno].
        eexists. rewrite lookup_insert_eq. by split.
      * destruct (Hesp d Hd) as [(cld & Hcld & Hab) Hnod]. split; [| apply Hnod].
        exists cld. rewrite lookup_insert_ne; [done |]. intros <-. congruence.
  - (* registration *)
    destruct (Hesp c Hpos) as [(cl & Hcl & Hab) Hno].
    destruct (registrar_hub_ok h c cl Hok Hcl Hab) as (h' & Hreg & Hok' & _).
    rewrite Hreg. simpl. eexists. split; [reflexivity |]. simpl.
    unfold registrar in Hreg. rewrite Hcl in Hreg. simpl in Hreg. injection Hreg as <-.
    split; [done |]. split; [done |].
    intros d Hd. apply elem_of_difference in Hd as [Hd Hne].
    rewrite not_elem_of_singleton in Hne.
    destruct (Hesp d Hd) as [Hdcl Hnod]. split; [done |].
    intros e'. destruct h as [m cs]. simpl in *. rewrite registrados_insert.
    destruct (decide (EventoID cl = e')) as [<- | Hne']; [| apply Hnod].
    specialize (Hnod (EventoID cl)). set_solver.
  - (* deregistration *)
    destruct Hpos as [cl Hcl].
    destruct (desregistrar_sistema h c cl Hok Hac Hcl) as (h' & Hd & Hok' & Hac' & Hesp').
    rewrite Hd. simpl. eexists. split; [reflexivity |]. simpl.
    split; [done |]. split; [done |]. intros d Hdin. by apply Hesp', Hesp.
  - (* the writer takes a frame *)
    destruct Hpos as [cl Hcl]. rewrite Hcl. simpl.
    eexists. split; [reflexivity |]. simpl. split; [| split].
    + intros e' d Hd. change (d ∈ registrados h e') in Hd.
      destruct (Hok e' d Hd) as (cld & Hcld & Hab & Hev). simpl.
      destruct (decide (d = c)) as [-> | Hne].
      * rewrite lookup_insert_eq. assert (cld = cl) as -> by congruence.
        eexists. split; [reflexivity |]. by split.
      * rewrite lookup_insert_ne by done. eauto.
    + intros d cld. simpl. destruct (decide (d = c)) as [-> | Hne].
      * rewrite lookup_insert_eq. intros [= <-]. simpl.
        pose proof (Hac c cl Hcl). destruct (buf (send cl)); simpl in *; lia.
      * rewrite lookup_insert_ne by done. apply Hac.
    + intros d Hd. destruct (Hesp d Hd) as [(cld & Hcld & Hab) Hno].
      split; [| exact Hno]. simpl. destruct (decide (d = c)) as [-> | Hne].
      * rewrite lookup_insert_eq. assert (cld = cl) as -> by congruence.
        eexists. split; [reflexivity |]. done.
      * rewrite lookup_insert_ne by done. eauto.
  - (* a broker message, first generation *)
    unfold distribuirMensaje.
    destruct (Unmarshal data) as [evento|];
      [| eexists; split; [reflexivity | done]].
    destruct (String.eqb (EventoWS_EventoID evento) "");
      [eexists; split; [reflexivity | done] |].
    destruct (distribuir_sistema h (EventoWS_EventoID evento) data Hok Hac)
      as (h' & Hd & Hok' & Hac' & Hesp').
    unfold distribuir in Hd. rewrite Hd. simpl.
    eexists. split; [reflexivity |]. simpl.
    split; [done |]. split; [done |]. intros d Hdin. by apply Hesp', Hesp.
  - (* a broker message, second generation *)
    unfold escucharRedis_mensaje.
    destruct (Unmarshal payload) as [evento|];
      [| eexists; split; [reflexivity | done]].
    destruct (distribuir_sistema h (EventoWS_EventoID evento) payload Hok Hac)
      as (h' & Hd & Hok' & Hac' & Hesp').
    rewrite Hd. simpl.
    eexists. split; [reflexivity |]. simpl.
    split; [done |]. split; [done |]. intros d Hdin. by apply Hesp', Hesp.
Qed.

Lemma alcanzable_ok (s : Sistema) : alcanzable s → sistema_ok s.
Proof.
  induction 1 as [| s s' ev _ IH Hpos Hej].
  - split; [| split].
    + intros e c Hc. unfold registrados, NewHub in Hc. simpl in Hc.
      rewrite lookup_empty in Hc. by apply not_elem_of_empty in Hc.
    + intros c cl Hcl. unfold NewHub in Hcl. simpl in Hcl.
      by rewrite lookup_empty in Hcl.
    + intros c Hc. by apply not_elem_of_empty in Hc.
  - destruct (paso_sistema_ok s ev IH Hpos) as (s2 & Hej2 & Hok2). congruence.
Qed.

(** X14. The hub never panics.  In every state it can reach from [NewHub]
    through connections, registrations, deregistrations (also repeated, or
    of a client not yet registered, or already evicted), frames taken by the
    writers and broker messages of either generation, in any order: no
    step sends on or closes a closed queue; a registered client exists, is
    registered under its own event and has an open queue; and no queue
    holds more frames than its capacity. *)
Theorem hub_never_panics (s : Sistema) :
  alcanzable s →
  hub_ok (hub s)
  ∧ colas_acotadas (hub s)
  ∧ ∀ ev, posible s ev → ∃ s', ejecutar s ev = Some s' ∧ alcanzable s'.
Proof.
  intros Halc. pose proof (alcanzable_ok s Halc) as Hs.
  split; [apply Hs |]. split; [apply Hs |].
  intros ev Hpos. destruct (paso_sistema_ok s ev Hs Hpos) as (s' & Hej & _).
  exists s'. split; [done |]. by eapply alcanzable_paso.
Qed.

Lemma hub_never_panics_witness :
  ∃ s', ejecutar (mkSistema NewHub ∅) (Conecta 1 256 "W1" "E1") = Some s'
        ∧ alcanzable s'.
Proof.
  apply (hub_never_panics (mkSistema NewHub ∅) alcanzable_nuevo).
  reflexivity.
Defined.

End HubRun.

(** ** Tasks *)

(** The first generation's task handler. *)
Module V1Tareas.
Import Go V1.

Module Encode.
Definition Tarea (t : Tarea.t) : JSON :=
  JObj ([("id", JStr (Tarea.ID t));
         ("evento_id", JStr (Tarea.EventoID t))]
        ++ omitempty "zona_id" JStr (Tarea.ZonaID t)
        ++ [("titulo", JStr (Tarea.Titulo t));
            ("descripcion", JStr (Tarea.Descripcion t));
            ("estado", JStr (Tarea.Estado t));
            ("prioridad", JStr (Tarea.Prioridad t))]
        ++ omitempty "asignada_a" JStr (Tarea.AsignadaA t)
        ++ omitempty "completada_en" JNum (Tarea.CompletadaEn t)
        ++ [("creada_en", JNum (Tarea.CreadaEn t))]).
End Encode.

Module TareaHandler.
(** [Completar]: the response and what the goroutine it starts publishes. *)
Definition Completar (db : DB) (ahora : Z) (tareaID usuarioID eventoID : string)
  : DB * Respuesta * list Publicacion :=
  match TareaRepository.Completar db ahora tareaID usuarioID with
  | (db, inl err) => (db, responder_error StatusBadRequest (Error err) 0, [])
  | (db, inr tarea) =>
      (db,
       mkRespuesta StatusOK (Encode.Tarea tarea),
       [HubPub.PublicarEvento eventoID
          (V1.Encode.EventoWS WSTareaActualizada (Encode.Tarea tarea) eventoID)])
  end.
End TareaHandler.

End V1Tareas.

Section TasksMore.
Import Go.

(** X15. A pending task is completed once.  Whoever asks first (any
    existing user: the task's assignee and event are not looked at)
    completes it: the row becomes [completada], assigned to the caller, with
    the instant of the call as completion time; the answer is 200 with the
    task, and the update is published to the event.  Every later request to
    complete it, by anyone, is answered 400 with
    [tarea no encontrada o ya completada]; it writes and publishes
    nothing, so the first completion time and assignee stay. *)
Theorem completar_once (db : V1.DB) (ahora luego : Z)
    (tareaID u u' eventoID eventoID' : string) (t : V1.Tarea.t) :
  V1.tareas db !! tareaID = Some t →
  V1.Tarea.Estado t = "pendiente" →
  is_Some (V1.usuarios db !! u) →
  let hecha :=
    V1.Tarea.mk (V1.Tarea.ID t) (V1.Tarea.EventoID t) (V1.Tarea.ZonaID t)
      (V1.Tarea.Titulo t) (V1.Tarea.Descripcion t) "completada"
      (V1.Tarea.Prioridad t) (Some u) (Some ahora) (V1.Tarea.CreadaEn t) in
  let db1 := V1.con_tareas db (<[tareaID := hecha]> (V1.tareas db)) in
  V1Tareas.TareaHandler.Completar db ahora tareaID u eventoID
  = (db1,
     mkRespuesta 200 (V1Tareas.Encode.Tarea hecha),
     [mkPublicacion ("eventpulse:" +:+ eventoID)
        (V1.Encode.EventoWS "tarea_actualizada" (V1Tareas.Encode.Tarea hecha)
           eventoID)])
  ∧ V1Tareas.TareaHandler.Completar db1 luego tareaID u' eventoID'
    = (db1,
       mkRespuesta 400
         (JObj [("error", JStr "tarea no encontrada o ya completada")]),
       []).
Proof.
  intros Ht Hest [usr Hu] hecha db1. split.
  - unfold V1Tareas.TareaHandler.Completar, V1.TareaRepository.Completar.
    rewrite Ht, Hest, Hu. reflexivity.
  - unfold V1Tareas.TareaHandler.Completar, V1.TareaRepository.Completar.
    unfold db1 at 1 2. simpl. rewrite lookup_insert_eq. reflexivity.
Qed.

Lemma completar_once_witness :
  let t := V1.Tarea.mk "T1" "E1" None "Reponer agua" "" "pendiente" "media"
             (Some "W2") None 3 in
  let db := V1.mkDB {[ "W1" := V1.Usuario.mk "W1" "Ana" "ana@example.org" "h1"
                                  V1.RolAseo None "E1" true 0 ]}
              ∅ [] {[ "T1" := t ]} ∅ in
  let hecha := V1.Tarea.mk "T1" "E1" None "Reponer agua" "" "completada" "media"
                 (Some "W1") (Some 10) 3 in
  let db1 := V1.con_tareas db (<[ "T1" := hecha ]> (V1.tareas db)) in
  V1Tareas.TareaHandler.Completar db 10 "T1" "W1" "E1"
  = (db1,
     mkRespuesta 200 (V1Tareas.Encode.Tarea hecha),
     [mkPublicacion "eventpulse:E1"
        (V1.Encode.EventoWS "tarea_actualizada" (V1Tareas.Encode.Tarea hecha) "E1")])
  ∧ V1Tareas.TareaHandler.Completar db1 20 "T1" "W2" "E1"
    = (db1,
       mkRespuesta 400
         (JObj [("error", JStr "tarea no encontrada o ya completada")]),
       []).
Proof.
  intros t db.
  apply (completar_once db 10 20 "T1" "W1" "W2" "E1" "E1" t).
  - reflexivity.
  - reflexivity.
  - by eexists.
Defined.

Import V2 V2.Fila.

(** The row of a task after [Editar], whatever [Editar] returns: the state
    is the requested one if it is one of the three states, and the
    completion time is set to the instant of the call exactly when the
    task enters [completada]. *)
Lemma editar_fila (db : V2.DB) (ahora : Z) (id : string)
    (req : EditarTareaRequest.t) (f : tarea) :
  V2.tareas db !! id = Some f →
  ∃ f',
    V2.tareas (TareaRepo.Editar db ahora id req).1 !! id = Some f'
    ∧ t_estado f'
      = match EditarTareaRequest.Estado req with
        | Some e => if TareaRepo.estado_valido e then e else t_estado f
        | None => t_estado f
        end
    ∧ t_completada_en f'
      = match EditarTareaRequest.Estado req with
        | Some e =>
            if TareaRepo.estado_valido e && String.eqb e "completada"
               && negb (String.eqb (t_estado f) "completada")
            then Some ahora else t_completada_en f
        | None => t_completada_en f
        end.
Proof.
  intros Hf. destruct req as [[e|] [a|]];
    unfold TareaRepo.Editar, TareaRepo.actualizar_estado,
      TareaRepo.actualizar_asignada, TareaRepo.update_tareas_actualizada_en;
    simpl; rewrite ?Hf; simpl.
  - destruct (TareaRepo.estado_valido e) eqn:Hv; simpl.
    2: { exists f. by rewrite Hf. }
    rewrite lookup_insert_eq.
    destruct (String.eqb e "completada") eqn:He;
      destruct (String.eqb (t_estado f) "completada") eqn:Ho; simpl;
      rewrite ?He, ?Ho; simpl;
      destruct (V2.usuarios db !! a); simpl; rewrite lookup_insert_eq;
      eexists; (split; [reflexivity |]); simpl; by rewrite ?He.
  - destruct (TareaRepo.estado_valido e) eqn:Hv; simpl.
    2: { exists f. by rewrite Hf. }
    rewrite lookup_insert_eq.
    destruct (String.eqb e "completada") eqn:He;
      destruct (String.eqb (t_estado f) "completada") eqn:Ho; simpl;
      eexists; (split; [reflexivity |]); done.
  - destruct (String.eqb (t_estado f) "completada") eqn:Ho; simpl;
      destruct (V2.usuarios db !! a); simpl; rewrite ?lookup_insert_eq, ?Hf;
      eexists; (split; [reflexivity |]); done.
  - exists f. by rewrite ?Hf.
Qed.

(** An edit that moves a completed task to another state. *)
Definition reabre (f : tarea) (req : EditarTareaRequest.t) : bool :=
  String.eqb (t_estado f) "completada"
  && match EditarTareaRequest.Estado req with
     | Some e => TareaRepo.estado_valido e && negb (String.eqb e "completada")
     | None => false
     end.

(** X16. [Editar] breaks the tie between state and completion time in
    one case only.  Starting from a task whose completion time is set
    exactly when it is completed, the row after [Editar] (whether [Editar]
    returns the task or an error) is again such a row, unless the edit moves
    a completed task to another state; then it never is. *)
Theorem editar_breaks_completion_iff_reopened (db : V2.DB) (ahora : Z) (id : string)
    (req : EditarTareaRequest.t) (f : tarea) :
  V2.tareas db !! id = Some f →
  fila_coherente f = true →
  ∃ f',
    V2.tareas (TareaRepo.Editar db ahora id req).1 !! id = Some f'
    ∧ fila_coherente f' = negb (reabre f req).
Proof.
  intros Hf Hcoh.
  destruct (editar_fila db ahora id req f Hf) as (f' & Hf' & Hest & Hcom).
  exists f'. split; [done |].
  unfold fila_coherente, completada_coherente, reabre in *.
  rewrite Hest, Hcom. clear Hest Hcom Hf'.
  destruct (EditarTareaRequest.Estado req) as [e|]; [| by rewrite andb_false_r].
  destruct (TareaRepo.estado_valido e); simpl; [| by rewrite andb_false_r].
  destruct (String.eqb (t_estado f) "completada") eqn:Ho;
    destruct (String.eqb e "completada") eqn:He; simpl;
    destruct (t_completada_en f); simpl in *; done.
Qed.

Lemma editar_breaks_completion_iff_reopened_witness :
  ∃ f',
    V2.tareas (TareaRepo.Editar db_completada 20 "T1"
                 (EditarTareaRequest.mk (Some "en_progreso") None)).1 !! "T1"
    = Some f'
    ∧ fila_coherente f' = false.
Proof.
  apply (editar_breaks_completion_iff_reopened db_completada 20 "T1"
           (EditarTareaRequest.mk (Some "en_progreso") None)
           (mkTarea "T1" "E1" None "Reponer agua" "" "completada" "media" "ADM"
              (Some "W1") (Some 9) 3)).
  - reflexivity.
  - reflexivity.
Defined.



End TasksMore.

(** ** Editing an incident *)

Section IncidentEdit.
Import Go V2 V2.Fila.




(** X19. An edit by a caller who is no user is lost without a word.  When
    the request names a state for an existing incident and the caller's id
    is not in [usuarios], the history insert fails on its foreign key; its
    error is not looked at, the transaction is aborted, and [Commit]
    commits nothing: the store is unchanged, and [Editar] returns the
    incident as it was, with no error, if no assignee was requested (and
    the abort error of the next statement if one was). *)
Theorem incidencia_editar_unknown_actor (db : V2.DB) (ahora : Z)
    (id usuarioID e : string) (asignada : option string) (f : incidencia) :
  V2.incidencias db !! id = Some f →
  IncidenciaRepo.estado_valido e = true →
  V2.usuarios db !! usuarioID = None →
  IncidenciaRepo.Editar db ahora id (EditarIncidenciaRequest.mk (Some e) asignada)
    usuarioID
  = (db, match asignada with
         | None => IncidenciaRepo.ObtenerPorID db id
         | Some _ => inl ErrAbortada
         end).
Proof.
  intros Hf Hv Hu.
  unfold IncidenciaRepo.Editar, IncidenciaRepo.actualizar_estado,
    IncidenciaRepo.insertar_historial, IncidenciaRepo.actualizar_asignada,
    IncidenciaRepo.leer_estado, BeginTxx, V2.Commit, fallar.
  simpl. rewrite Hf, Hv. simpl. rewrite lookup_insert_eq, Hu. simpl.
  by destruct asignada.
Qed.

Lemma incidencia_editar_unknown_actor_witness :
  let f := mkIncidencia "I1" "E1" "Z1" "derrame" "agua" "pendiente" "ADM" None 5 5 in
  let db := mkDB ∅ [] {[ ("Z1", "E1") := Zona.mk "Z1" "E1" "Entrada" ]}
              {[ "I1" := f ]} [] ∅ [] in
  IncidenciaRepo.Editar db 10 "I1"
    (EditarIncidenciaRequest.mk (Some "resuelta") None) "W9"
  = (db, inr (Some (Incidencia.mk "I1" "E1" "Z1" "Entrada" "derrame" "agua"
                      "pendiente" "ADM" None None 5 5))).
Proof.
  intros f db.
  apply (incidencia_editar_unknown_actor db 10 "I1" "W9" "resuelta" None f).
  - reflexivity.
  - reflexivity.
  - reflexivity.
Defined.


End IncidentEdit.

(** ** Sending a chat message *)

Module V2Chat.
Import Go V2 V2.Fila.

Definition con_mensajes (db : DB) (l : list mensaje) : DB :=
  mkDB (usuarios db) (eventos db) (zonas db) (incidencias db)
       (incidencias_historial db) (tareas db) l.


Module Encode.
(** [EventoWS{Tipo, Payload, EventoID}] *)
Definition EventoWS (tipo : string) (payload : JSON) (eventoID : string) : JSON :=
  JObj [("tipo", JStr tipo); ("payload", payload); ("evento_id", JStr eventoID)].
End Encode.



Section Postgres.
(** PostgreSQL's [LENGTH]: the number of characters of a text. *)
Variable LENGTH : string → nat.

(** [MensajeRepo.Crear]: the INSERT (CHECK (LENGTH(contenido) <= 500), the
    two foreign keys, [enviado_en] by DEFAULT NOW(), [nuevoID] the fresh
    [uuid_generate_v4()]) and the inserted row joined with its author. *)
Definition Crear (db : DB) (ahora : Z) (nuevoID eventoID usuarioID contenido : string)
  : DB * (error + Mensaje.t) :=
  if Nat.ltb 500 (LENGTH contenido) then (db, inl ErrCheck)
  else if negb (existsb (λ e, String.eqb (Evento.ID e) eventoID) (eventos db))
  then (db, inl ErrForeignKey)
  else
    match usuarios db !! usuarioID with
    | None => (db, inl ErrForeignKey)
    | Some u =>
        (con_mensajes db
           (mensajes db ++ [mkMensaje nuevoID eventoID usuarioID contenido ahora]),
         inr (Mensaje.mk nuevoID eventoID usuarioID (Usuario.Nombre u)
                (Usuario.Rol u) contenido ahora))
    end.


End Postgres.
End V2Chat.

Section ChatSend.
Import Go V2 V2.Fila V2Chat.

Variable LENGTH : string → nat.





End ChatSend.


Section ChatFanOut.
Import Go V2 V2.Fila V2Chat Ws.

Variable LENGTH : string → nat.


End ChatFanOut.


(** ** The request context of the handle login generation *)

Module V2Middleware.
Import Go V2.

(** A value stored by [c.Set]: the claims hold the user id and the role as
    strings and the event id as a [*string]. *)
Inductive any :=
| AString (s : string)
| APtrString (p : option string).

(** [c.Keys] is a [gmap string any]. *)

(** gin's [c.GetString(key)]: the value under the key when it is a
    [string] ([s, _ = val.(string)]), the empty string otherwise. *)
Definition GetString (c : gmap string any) (key : string) : string :=
  match c !! key with
  | Some (AString s) => s
  | _ => ""
  end.

Definition CtxUsuarioID : string := "usuario_id".
Definition CtxEventoID : string := "evento_id".
Definition CtxRol : string := "rol".

Record Claims := mkClaims {
  UsuarioID : string; EventoID : option string; Rol : string }.

(** [strings.SplitN(header, " ", 2)] *)
Definition SplitN2 (s : string) : list string :=
  match cortar " "%char s with
  | Some (a, b) => [a; b]
  | None => [s]
  end.

Section Servicio.
(** [JWTService.ValidarToken] *)
Variable ValidarToken : string → error + Claims.

(** [Auth]; [header] is [c.GetHeader("Authorization")].  [inl] is the
    response the request is aborted with, [inr] the context the next
    handler runs in. *)
Definition Auth (c : gmap string any) (header : string) : Respuesta + gmap string any :=
  if String.eqb header "" then
    inl (responder_error StatusUnauthorized "Token requerido")
  else
    match SplitN2 header with
    | [p0; p1] =>
        if negb (String.eqb p0 "Bearer") then
          inl (responder_error StatusUnauthorized "Formato inválido: Bearer <token>")
        else
          match ValidarToken p1 with
          | inl _ =>
              inl (responder_error StatusUnauthorized "Token inválido o expirado")
          | inr claims =>
              inr (<[CtxRol := AString (Rol claims)]>
                     (<[CtxEventoID := APtrString (EventoID claims)]>
                        (<[CtxUsuarioID := AString (UsuarioID claims)]> c)))
          end
    | _ => inl (responder_error StatusUnauthorized "Formato inválido: Bearer <token>")
    end.

End Servicio.

(** [SoloAdmin]: the response it aborts with, if it aborts. *)
Definition SoloAdmin (c : gmap string any) : option Respuesta :=
  if negb (String.eqb (GetString c CtxRol) RolAdmin) then
    Some (responder_error StatusForbidden "Solo el admin puede realizar esta acción")
  else None.

(** [RequiereEventoActivo] *)
Definition RequiereEventoActivo (c : gmap string any) : option Respuesta :=
  if String.eqb (GetString c CtxEventoID) "" then
    Some (responder_error StatusForbidden "No estás vinculado a ningún evento activo")
  else None.

Definition GetUsuarioID (c : gmap string any) : string := GetString c CtxUsuarioID.
Definition GetEventoID (c : gmap string any) : string := GetString c CtxEventoID.
Definition GetRol (c : gmap string any) : string := GetString c CtxRol.

End V2Middleware.

Module V2Eventos.
Import Go V2 V2Middleware.

Module Encode.
Definition Evento (e : Evento.t) : JSON :=
  JObj ([("id", JStr (Evento.ID e));
         ("nombre", JStr (Evento.Nombre e));
         ("descripcion", JStr (Evento.Descripcion e));
         ("estado", JStr (Evento.Estado e));
         ("creado_por", JStr (Evento.CreadoPor e));
         ("creado_en", JNum (Evento.CreadoEn e))]
        ++ omitempty "terminado_en" JNum (Evento.TerminadoEn e)).

(** A slice that the query leaves nil when there is no row. *)
Definition Eventos (l : list Evento.t) : JSON :=
  match l with
  | [] => JNull
  | _ => JArr (Evento <$> l)
  end.
End Encode.

Module EventoRepo.
(** [SELECT ... FROM eventos ORDER BY creado_en DESC] *)
Definition Listar (db : DB) : list Evento.t :=
  Sql.ordenar_desc Evento.CreadoEn (eventos db).
End EventoRepo.

Module EventoHandler.
(** [Listar]: everything for the admin, the event a worker is bound to
    for a worker. *)
Definition Listar (db : DB) (c : gmap string any) : Respuesta :=
  if String.eqb (GetRol c) RolAdmin then
    mkRespuesta StatusOK (Encode.Eventos (EventoRepo.Listar db))
  else
    let eventoID := GetEventoID c in
    if String.eqb eventoID "" then mkRespuesta StatusOK (JArr [])
    else
      match V2.EventoRepo.ObtenerActivo db with
      | None => mkRespuesta StatusOK (JArr [])
      | Some evento => mkRespuesta StatusOK (JArr [Encode.Evento evento])
      end.
End EventoHandler.

End V2Eventos.

Section RequestContext.
Import Go V2 V2Middleware.

Variable ValidarToken : string → error + Claims.

Lemma cortar_Some (sep : ascii) (s a b : string) :
  cortar sep s = Some (a, b) → s = a +:+ String sep b.
Proof.
  revert a. induction s as [|ch s IH]; intros a; simpl; [done |].
  destruct (Ascii.eqb ch sep) eqn:Hch.
  - apply Ascii.eqb_eq in Hch as ->. by intros [= <- <-].
  - destruct (cortar sep s) as [[a' b']|]; [| done].
    intros [= <- <-]. by rewrite (IH a' eq_refl) at 1.
Qed.

(** X22. [Auth] lets a request through exactly when its Authorization
    header is [Bearer], one space, and a token that [ValidarToken]
    accepts (the token is everything after the first space); the context
    then holds the claims of that token.  Every other request, the one
    without the header included, is aborted with 401. *)
Theorem auth_accepts_bearer_only (c : gmap string any) (header : string) :
  match Auth ValidarToken c header with
  | inr ctx =>
      ∃ tok claims,
        header = "Bearer " +:+ tok
        ∧ ValidarToken tok = inr claims
        ∧ ctx = <[CtxRol := AString (Rol claims)]>
                  (<[CtxEventoID := APtrString (EventoID claims)]>
                     (<[CtxUsuarioID := AString (UsuarioID claims)]> c))
  | inl r =>
      Status r = 401
      ∧ ¬ ∃ tok claims, header = "Bearer " +:+ tok ∧ ValidarToken tok = inr claims
  end.
Proof.
  destruct (Auth ValidarToken c header) as [r|ctx] eqn:HA.
  - split.
    + unfold Auth, SplitN2 in HA.
      destruct (String.eqb header ""); [by injection HA as <- |].
      destruct (cortar " " header) as [[p0 p1]|]; [| by injection HA as <-].
      destruct (negb _); [by injection HA as <- |].
      destruct (ValidarToken p1); [by injection HA as <- | done].
    + intros (tok & claims & -> & Hv).
      unfold Auth, SplitN2 in HA. simpl in HA.
      change ("" +:+ tok) with tok in HA. by rewrite Hv in HA.
  - unfold Auth, SplitN2 in HA.
    destruct (String.eqb header ""); [done |].
    destruct (cortar " " header) as [[p0 p1]|] eqn:Hcut; [| done].
    destruct (String.eqb p0 "Bearer") eqn:Hp0; simpl in HA; [| done].
    apply String.eqb_eq in Hp0 as ->.
    destruct (ValidarToken p1) as [|claims] eqn:Hv; [done |].
    injection HA as <-. apply cortar_Some in Hcut.
    exists p1, claims. by repeat split.
Qed.

(** X23. The event of the token never reaches a handler.  In the context
    [Auth] builds, the user id and the role are those of the token, but the
    event id is stored as a [*string], which [GetString] does not read:
    [GetEventoID] is the empty string whatever event the token carries.  So
    [RequiereEventoActivo] refuses every authenticated request with 403,
    [SoloAdmin] lets through exactly the tokens whose role is [admin], and
    the chat history is that of the active event. *)
Theorem token_event_never_read (db : DB) (c ctx : gmap string any) (tok : string)
    (claims : Claims) :
  ValidarToken tok = inr claims →
  Auth ValidarToken c ("Bearer " +:+ tok) = inr ctx →
  GetUsuarioID ctx = UsuarioID claims
  ∧ GetRol ctx = Rol claims
  ∧ GetEventoID ctx = ""
  ∧ (∃ r, RequiereEventoActivo ctx = Some r ∧ Status r = 403)
  ∧ (SoloAdmin ctx = None ↔ Rol claims = "admin")
  ∧ ChatHandler.Historial db (GetEventoID ctx) = ChatHandler.Historial db "".
Proof.
  intros Hv HA. unfold Auth, SplitN2 in HA. simpl in HA.
  change ("" +:+ tok) with tok in HA. rewrite Hv in HA.
  injection HA as <-.
  assert (GetEventoID
            (<[CtxRol := AString (Rol claims)]>
               (<[CtxEventoID := APtrString (EventoID claims)]>
                  (<[CtxUsuarioID := AString (UsuarioID claims)]> c))) = "") as Hev.
  { unfold GetEventoID, GetString.
    rewrite lookup_insert_ne by done. by rewrite lookup_insert_eq. }
  assert (GetRol
            (<[CtxRol := AString (Rol claims)]>
               (<[CtxEventoID := APtrString (EventoID claims)]>
                  (<[CtxUsuarioID := AString (UsuarioID claims)]> c)))
          = Rol claims) as Hrol.
  { unfold GetRol, GetString. by rewrite lookup_insert_eq. }
  split; [| split; [done | split; [done | split; [| split]]]].
  - unfold GetUsuarioID, GetString.
    rewrite !lookup_insert_ne by done. by rewrite lookup_insert_eq.
  - unfold RequiereEventoActivo. fold (GetEventoID
      (<[CtxRol := AString (Rol claims)]>
         (<[CtxEventoID := APtrString (EventoID claims)]>
            (<[CtxUsuarioID := AString (UsuarioID claims)]> c)))).
    rewrite Hev. simpl. by eexists.
  - unfold SoloAdmin. fold (GetRol
      (<[CtxRol := AString (Rol claims)]>
         (<[CtxEventoID := APtrString (EventoID claims)]>
            (<[CtxUsuarioID := AString (UsuarioID claims)]> c)))).
    rewrite Hrol. unfold RolAdmin.
    destruct (String.eqb (Rol claims) "admin") eqn:Hr; simpl.
    + apply String.eqb_eq in Hr. done.
    + apply String.eqb_neq in Hr. split; [done | by intros ?].
  - by rewrite Hev.
Qed.

(** X24. A worker never sees an event in the event list.  For a token
    whose role is not [admin], [EventoHandler.Listar] answers 200 with the
    empty list, whatever event the token carries and whatever events there
    are: the branch that returns the worker's event is guarded by
    [GetEventoID], which is always empty. *)
Theorem worker_event_list_is_empty (db : DB) (c ctx : gmap string any) (tok : string)
    (claims : Claims) :
  ValidarToken tok = inr claims →
  Auth ValidarToken c ("Bearer " +:+ tok) = inr ctx →
  Rol claims ≠ "admin" →
  V2Eventos.EventoHandler.Listar db ctx = mkRespuesta 200 (JArr []).
Proof.
  intros Hv HA Hrol. unfold Auth, SplitN2 in HA. simpl in HA.
  change ("" +:+ tok) with tok in HA. rewrite Hv in HA.
  injection HA as <-.
  unfold V2Eventos.EventoHandler.Listar, GetRol, GetEventoID, GetString.
  rewrite lookup_insert_eq. apply String.eqb_neq in Hrol. unfold RolAdmin.
  rewrite Hrol. rewrite lookup_insert_ne by done. by rewrite lookup_insert_eq.
Qed.

End RequestContext.

(** A token service that knows one token. *)
Definition ValidarToken_demo (tok : string) : Go.error + V2Middleware.Claims :=
  if String.eqb tok "t1"
  then inr (V2Middleware.mkClaims "W1" (Some "E1") "aseo")
  else inl (Go.errorString "token inválido").

Lemma token_event_never_read_witness :
  ∃ ctx,
    V2Middleware.Auth ValidarToken_demo ∅ "Bearer t1" = inr ctx
    ∧ V2Middleware.GetUsuarioID ctx = "W1"
    ∧ V2Middleware.GetEventoID ctx = "".
Proof.
  eexists. split; [reflexivity |].
  destruct (token_event_never_read ValidarToken_demo db_chat ∅ _ "t1"
              (V2Middleware.mkClaims "W1" (Some "E1") "aseo") eq_refl eq_refl)
    as (Hu & _ & He & _).
  by split.
Defined.

Lemma worker_event_list_is_empty_witness :
  ∃ ctx,
    V2Middleware.Auth ValidarToken_demo ∅ "Bearer t1" = inr ctx
    ∧ V2Eventos.EventoHandler.Listar db_chat ctx = Go.mkRespuesta 200 (Go.JArr []).
Proof.
  eexists. split; [reflexivity |].
  apply (worker_event_list_is_empty ValidarToken_demo db_chat ∅ _ "t1"
           (V2Middleware.mkClaims "W1" (Some "E1") "aseo") eq_refl eq_refl).
  discriminate.
Defined.

(** ** Events: created, active, terminated *)

Module V2EventosRepo.
Import Go V2.

Definition con_eventos (db : DB) (l : list Evento.t) : DB :=
  mkDB (usuarios db) l (zonas db) (incidencias db) (incidencias_historial db)
       (tareas db) (mensajes db).

Record CrearEventoRequest := mkCrearEventoRequest {
  Nombre : string; Descripcion : string }.

Definition ErrTooLong : error :=
  pqError "value too long for type character varying(255)".

Section Postgres.
(** PostgreSQL's character count of a text. *)
Variable LENGTH : string → nat.

(** [EventoRepo.Crear]: [nombre] is a VARCHAR(255); the INSERT names
    neither [estado] nor the dates, so the row is [activo], created now,
    not terminated; [creado_por] references [usuarios]. *)
Definition Crear (db : DB) (ahora : Z) (nuevoID : string)
    (req : CrearEventoRequest) (adminID : string) : DB * (error + Evento.t) :=
  if Nat.ltb 255 (LENGTH (Nombre req)) then (db, inl ErrTooLong)
  else
    match usuarios db !! adminID with
    | None => (db, inl ErrForeignKey)
    | Some _ =>
        let e := Evento.mk nuevoID (Nombre req) (Descripcion req) "activo" adminID
                   ahora None in
        (con_eventos db (eventos db ++ [e]), inr e)
    end.

End Postgres.




End V2EventosRepo.

Section EventLife.
Import Go V2 V2EventosRepo.



End EventLife.



(** ** Users: logging in, being created *)

Module V2Usuarios.
Import Go V2.

Definition con_usuarios (db : DB) (m : gmap string Usuario.t) : DB :=
  mkDB m (eventos db) (zonas db) (incidencias db) (incidencias_historial db)
       (tareas db) (mensajes db).

Record CrearUsuarioRequest := mkCrearUsuarioRequest {
  NombreUsuario : string; Nombre : string; Password : string;
  Rol : string; ZonaID : option string }.

(** [Rol.EsValido] *)
Definition EsValido (r : string) : bool :=
  String.eqb r "admin" || String.eqb r "aseo" || String.eqb r "guardia"
  || String.eqb r "medico" || String.eqb r "logistica" || String.eqb r "supervisor".


(** The driver's message for a violated UNIQUE constraint (the driver
    puts the constraint's name in quotes). *)
Definition ErrUnique : error :=
  pqError "duplicate key value violates unique constraint usuarios_nombre_usuario_key".
Definition ErrTooLong : error := pqError "value too long for type character varying".

Section Servicios.
(** [bcrypt.GenerateFromPassword] and PostgreSQL's character count. *)
Variable GenerateFromPassword : string → error + string.
Variable LENGTH : string → nat.

(** [UsuarioRepo.Crear]: the INSERT with the column widths, the CHECK on
    [rol], the UNIQUE handle and the reference to [eventos]; [activo] and
    [creado_en] get their defaults, and RETURNING leaves the hash out. *)
Definition Crear (db : DB) (ahora : Z) (nuevoID : string)
    (req : CrearUsuarioRequest) (eventoID : string) : DB * (error + Usuario.t) :=
  match GenerateFromPassword (Password req) with
  | inl err => (db, inl err)
  | inr hash =>
      if Nat.ltb 50 (LENGTH (NombreUsuario req))
         || Nat.ltb 255 (LENGTH (Nombre req))
         || Nat.ltb 20 (LENGTH (Rol req))
      then (db, inl ErrTooLong)
      else if negb (EsValido (Rol req)) then (db, inl ErrCheck)
      else if existsb (λ kv, String.eqb (Usuario.NombreUsuario kv.2) (NombreUsuario req))
                (map_to_list (usuarios db))
      then (db, inl ErrUnique)
      else if negb (existsb (λ e, String.eqb (Evento.ID e) eventoID) (eventos db))
      then (db, inl ErrForeignKey)
      else
        (con_usuarios db
           (<[nuevoID := Usuario.mk nuevoID (NombreUsuario req) (Nombre req) hash
                           (Rol req) (Some eventoID) true ahora]> (usuarios db)),
         inr (Usuario.mk nuevoID (NombreUsuario req) (Nombre req) ""
                (Rol req) (Some eventoID) true ahora))
  end.


End Servicios.
End V2Usuarios.

Section UsersMore.
Import Go V2 V2Usuarios.

Variable GenerateFromPassword : string → error + string.
Variable LENGTH : string → nat.
Variable ValidarPassword : string → string → bool.
Variable GenerarToken : Usuario.t → error + string.

(** [nombre_usuario] is UNIQUE. *)
Definition nombres_unicos (db : DB) : Prop :=
  ∀ k1 k2 u1 u2,
    V2.usuarios db !! k1 = Some u1 → V2.usuarios db !! k2 = Some u2 →
    Usuario.NombreUsuario u1 = Usuario.NombreUsuario u2 → k1 = k2.

Lemma BuscarPorNombreUsuario_unico (db : DB) (k : string) (u : Usuario.t) :
  nombres_unicos db → V2.usuarios db !! k = Some u →
  UsuarioRepo.BuscarPorNombreUsuario db (Usuario.NombreUsuario u)
  = if Usuario.Activo u then Some u else None.
Proof.
  intros Hunico Hu. unfold UsuarioRepo.BuscarPorNombreUsuario.
  destruct (List.find _ _) as [[k' u']|] eqn:Hfind; simpl.
  - apply List.find_some in Hfind as [Hin Hp]. simpl in Hp.
    apply list_elem_of_In, elem_of_map_to_list in Hin.
    apply andb_true_iff in Hp as [Hn Ha]. apply String.eqb_eq in Hn.
    assert (k' = k) as -> by (by eapply Hunico).
    assert (u' = u) as -> by congruence. by rewrite Ha.
  - pose proof (List.find_none _ _ Hfind (k, u)) as Hp. simpl in Hp.
    rewrite String.eqb_refl in Hp. simpl in Hp. rewrite Hp; [done |].
    by apply list_elem_of_In, elem_of_map_to_list.
Qed.

(** X25. Who can log in.  With unique handles, a login with the handle of
    a user succeeds exactly when the user is active and the password is
    the user's: the answer is then 200 with a token for that user and the
    user with the hash blanked (500 if the token cannot be signed).  A
    deactivated user, a wrong password and a handle nobody has all get the
    same 401 [Credenciales inválidas]. *)
Theorem login_by_handle (db : DB) (k pw : string) (u : Usuario.t) :
  nombres_unicos db →
  V2.usuarios db !! k = Some u →
  AuthHandler.Login ValidarPassword GenerarToken db
    (inr (AuthHandler.mkLoginRequest (Usuario.NombreUsuario u) pw))
  = (if Usuario.Activo u && ValidarPassword (Usuario.Password u) pw then
       match GenerarToken u with
       | inl _ => responder_error 500 "Error generando token"
       | inr token =>
           mkRespuesta 200 (Encode.LoginResponse token (AuthHandler.sin_password u))
       end
     else responder_error 401 "Credenciales inválidas")
  ∧ ∀ n, (∀ k' u', V2.usuarios db !! k' = Some u' → Usuario.NombreUsuario u' ≠ n) →
         AuthHandler.Login ValidarPassword GenerarToken db
           (inr (AuthHandler.mkLoginRequest n pw))
         = responder_error 401 "Credenciales inválidas".
Proof.
  intros Hunico Hu. split.
  - unfold AuthHandler.Login, AuthHandler.Login_JSON. simpl.
    rewrite (BuscarPorNombreUsuario_unico db k u Hunico Hu).
    destruct (Usuario.Activo u); simpl; [| done].
    destruct (ValidarPassword (Usuario.Password u) pw); simpl; [| done].
    by destruct (GenerarToken u).
  - intros n Hn.
    unfold AuthHandler.Login, AuthHandler.Login_JSON,
      UsuarioRepo.BuscarPorNombreUsuario. simpl.
    destruct (List.find _ _) as [[k' u']|] eqn:Hfind; simpl; [| done].
    apply List.find_some in Hfind as [Hin Hp]. simpl in Hp.
    apply list_elem_of_In, elem_of_map_to_list in Hin.
    apply andb_true_iff in Hp as [Hp _]. apply String.eqb_eq in Hp.
    by destruct (Hn k' u' Hin).
Qed.


End UsersMore.

Lemma login_by_handle_witness :
  V2.AuthHandler.Login (λ h p, String.eqb h p) (λ u, inr (V2.Usuario.ID u))
    db_completada (inr (V2.AuthHandler.mkLoginRequest "ana" "otra"))
  = V2.responder_error 401 "Credenciales inválidas".
Proof.
  refine (proj1 (login_by_handle (λ h p, String.eqb h p) (λ u, inr (V2.Usuario.ID u))
                   db_completada "W1" "otra"
                   (V2.Usuario.mk "W1" "ana" "Ana" "h1" "aseo" (Some "E1") true 0)
                   _ _)).
  - intros k1 k2 u1 u2 H1 H2 _. unfold db_completada in H1, H2. simpl in H1, H2.
    apply lookup_singleton_Some in H1 as [<- _].
    by apply lookup_singleton_Some in H2 as [<- _].
  - reflexivity.
Defined.
